(** * Deal-Finder: the Estately extraction pipeline

    A shallow embedding of [backend/estately/filters.py],
    [backend/estately/parsing.py], [backend/estately/scraper.py] and
    [backend/estately/scrape_all.py], and the properties of the
    specification stated over it.

    Modelling conventions.
    - Text is ASCII: a Python [str] is a [string] of bytes; [lower], [strip]
      and the regular-expression classes [\d] and [\s] are read on ASCII.
    - A Python [float] is the finite decimal it was written as (mantissa and
      power of ten); every float operation of the program (reading a decimal
      literal, scaling by 1000, 10^6, 10^9, dividing by 100, comparing,
      truncating) is exact on decimals.  Rounding to binary64, infinities and
      NaN are outside the model.  An integer is converted to a float
      exactly, as [float] does up to the magnitude 2^53; beyond, where
      [float] rounds or raises [OverflowError], the model does not follow,
      and the statements that convert an integer of any size carry the
      bound.
    - A Python [dict] is an association list with distinct keys in insertion
      order (the order in which Python iterates it).
    - An exception is a value of [exn]; code that can raise returns a
      [result], and the pipeline runs in a state monad in which the changes
      made before an exception stay.
    - The markup engine, the JSON reader and the network are outside the
      embedding.  A card is given by what the selectors and regular
      expressions of [parse_card] read in it (the one reading that can
      raise, the sqft, as a result) and by the JSON value of its
      structured-data script; a page by the JSON values of its scripts, its
      cards and its "next" link; the site and the browser by a [world] that
      answers each fetch and each navigation.  [urllib.parse.urljoin] is a
      parameter of the functions that call it.
    - The response hook of the browser runs beside the pipeline; its effect
      is that the responses of a page are in the bucket once the page is
      rendered.
    - The file system and [csv.DictReader] are outside the embedding: a CSV
      file is given by its field names and the dict of each of its rows. *)

From Stdlib Require Import ZArith List String Ascii Bool Lia DecimalString.
Import ListNotations.
Open Scope string_scope.
Open Scope Z_scope.
Set Warnings "-register-all".

(* ===================================================================== *)
(** ** Python values and built-ins                                        *)
(* ===================================================================== *)

Module Py.

(** *** Text *)

Definition is_digit (c : ascii) : bool :=
  let n := N_of_ascii c in (48 <=? n)%N && (n <=? 57)%N.

(** [str.isspace] on ASCII: tab, LF, VT, FF, CR, FS, GS, RS, US, space. *)
Definition is_space (c : ascii) : bool :=
  let n := N_of_ascii c in
  ((9 <=? n)%N && (n <=? 13)%N) || ((28 <=? n)%N && (n <=? 32)%N).

Definition is_alnum (c : ascii) : bool :=
  let n := N_of_ascii c in
  is_digit c || ((65 <=? n)%N && (n <=? 90)%N) || ((97 <=? n)%N && (n <=? 122)%N).

Definition lower_ascii (c : ascii) : ascii :=
  let n := N_of_ascii c in
  if (65 <=? n)%N && (n <=? 90)%N then ascii_of_N (n + 32) else c.

Definition digit_val (c : ascii) : Z := Z.of_N (N_of_ascii c) - 48.

Fixpoint smap (f : ascii -> ascii) (s : string) : string :=
  match s with
  | EmptyString => EmptyString
  | String c r => String (f c) (smap f r)
  end.

Fixpoint sfilter (p : ascii -> bool) (s : string) : string :=
  match s with
  | EmptyString => EmptyString
  | String c r => if p c then String c (sfilter p r) else sfilter p r
  end.

Fixpoint sdrop_while (p : ascii -> bool) (s : string) : string :=
  match s with
  | EmptyString => EmptyString
  | String c r => if p c then sdrop_while p r else s
  end.

Fixpoint stake_while (p : ascii -> bool) (s : string) : string :=
  match s with
  | EmptyString => EmptyString
  | String c r => if p c then String c (stake_while p r) else EmptyString
  end.

Fixpoint srev_onto (s acc : string) : string :=
  match s with
  | EmptyString => acc
  | String c r => srev_onto r (String c acc)
  end.

Definition srev (s : string) : string := srev_onto s EmptyString.

(** [s.lower()] *)
Definition lower (s : string) : string := smap lower_ascii s.

Definition upper_ascii (c : ascii) : ascii :=
  let n := N_of_ascii c in
  if (97 <=? n)%N && (n <=? 122)%N then ascii_of_N (n - 32) else c.

(** [s.upper()] *)
Definition upper (s : string) : string := smap upper_ascii s.

(** [s.lstrip()], [s.rstrip()], [s.strip()] *)
Definition lstrip (s : string) : string := sdrop_while is_space s.
Definition rstrip (s : string) : string := srev (sdrop_while is_space (srev s)).
Definition strip (s : string) : string := rstrip (lstrip s).

(** [s.strip(", ")]: strips the given characters from both ends. *)
Definition strip_chars (p : ascii -> bool) (s : string) : string :=
  srev (sdrop_while p (srev (sdrop_while p s))).

(** [s.startswith(p)] *)
Definition startswith (s p : string) : bool := String.prefix p s.

(** [needle in hay] *)
Fixpoint contains (needle hay : string) : bool :=
  String.prefix needle hay ||
  match hay with
  | EmptyString => false
  | String _ r => contains needle r
  end.

(** [any(tok in blob for tok in toks)] *)
Definition any_in (toks : list string) (blob : string) : bool :=
  existsb (fun tok => contains tok blob) toks.

(** [s.replace(c, "")] for a one-character [c]. *)
Definition remove_char (c : ascii) (s : string) : string :=
  sfilter (fun x => negb (Ascii.eqb x c)) s.

(** [s.split(c)] for a one-character separator. *)
Fixpoint split_on (c : ascii) (s : string) : list string :=
  match s with
  | EmptyString => [EmptyString]
  | String x r =>
      if Ascii.eqb x c then EmptyString :: split_on c r
      else match split_on c r with
           | [] => [String x EmptyString]
           | w :: ws => String x w :: ws
           end
  end.

(** [s.split()]: the maximal runs of non-whitespace characters. *)
Fixpoint words_aux (s : string) (cur : string) : list string :=
  match s with
  | EmptyString => if String.eqb cur "" then [] else [srev cur]
  | String x r =>
      if is_space x
      then (if String.eqb cur "" then words_aux r "" else srev cur :: words_aux r "")
      else words_aux r (String x cur)
  end.

Definition words (s : string) : list string := words_aux s "".

(** [sep.join(l)] *)
Definition join (sep : string) (l : list string) : string := String.concat sep l.

Definition non_empty (s : string) : bool := negb (String.eqb s "").

(** *** Floats as finite decimals *)

(** [Dec m e] is the number [m * 10^e]. *)
Record dec : Type := Dec { dec_m : Z; dec_e : Z }.

Definition dec_of_Z (z : Z) : dec := Dec z 0.

(** Multiplication by [10^k], exact for every integer [k]. *)
Definition dec_scale10 (d : dec) (k : Z) : dec := Dec (dec_m d) (dec_e d + k).

Definition dec_align (a b : dec) : Z * Z :=
  let e := Z.min (dec_e a) (dec_e b) in
  (dec_m a * 10 ^ (dec_e a - e), dec_m b * 10 ^ (dec_e b - e)).

Definition dec_leb (a b : dec) : bool := let '(x, y) := dec_align a b in x <=? y.
Definition dec_ltb (a b : dec) : bool := let '(x, y) := dec_align a b in x <? y.
Definition dec_eqb (a b : dec) : bool := let '(x, y) := dec_align a b in x =? y.

Definition dec_is_zero (d : dec) : bool := dec_m d =? 0.

(** [int(x)] for a float [x]: truncation towards zero. *)
Definition dec_trunc (d : dec) : Z :=
  if 0 <=? dec_e d then dec_m d * 10 ^ dec_e d
  else Z.quot (dec_m d) (10 ^ (- dec_e d)).

(** *** Exceptions *)

Inductive exn : Type :=
| AttributeError | TypeError | ValueError | RuntimeError
| HTTPError.   (* what [fetch_html] raises *)

Inductive result (A : Type) : Type :=
| Ok (a : A)
| Raise (e : exn).
Arguments Ok {A} a.
Arguments Raise {A} e.

Definition bind {A B} (r : result A) (k : A -> result B) : result B :=
  match r with
  | Ok a => k a
  | Raise e => Raise e
  end.

(** [try: r except Exception: h] *)
Definition try_except {A} (r : result A) (h : A) : A :=
  match r with
  | Ok a => a
  | Raise _ => h
  end.

(** *** Values *)

Inductive value : Type :=
| PNone
| PBool (b : bool)
| PInt (z : Z)
| PFloat (d : dec)
| PStr (s : string)
| PList (l : list value)
| PDict (kv : list (string * value)).

Definition dict : Type := list (string * value).

(** Truthiness: [bool(v)]. *)
Definition truthy (v : value) : bool :=
  match v with
  | PNone => false
  | PBool b => b
  | PInt z => negb (z =? 0)
  | PFloat d => negb (dec_is_zero d)
  | PStr s => non_empty s
  | PList l => match l with [] => false | _ => true end
  | PDict kv => match kv with [] => false | _ => true end
  end.

(** [a or b] *)
Definition por (a b : value) : value := if truthy a then a else b.

Definition is_none (v : value) : bool :=
  match v with PNone => true | _ => false end.

Definition is_dict (v : value) : bool :=
  match v with PDict _ => true | _ => false end.

(** [isinstance(v, (int, float))]; [bool] is a subclass of [int]. *)
Definition is_number (v : value) : bool :=
  match v with PBool _ | PInt _ | PFloat _ => true | _ => false end.

(** [float(v)] for a number [v]. *)
Definition num_of (v : value) : option dec :=
  match v with
  | PBool b => Some (dec_of_Z (if b then 1 else 0))
  | PInt z => Some (dec_of_Z z)
  | PFloat d => Some d
  | _ => None
  end.

(** *** Dictionaries *)

Fixpoint lookup (k : string) (d : dict) : option value :=
  match d with
  | [] => None
  | (k', v) :: r => if String.eqb k k' then Some v else lookup k r
  end.

(** [d.get(k)]: [None] when the key is absent. *)
Definition get (d : dict) (k : string) : value :=
  match lookup k d with Some v => v | None => PNone end.

(** [d.get(k, dflt)] *)
Definition get_default (d : dict) (k : string) (dflt : value) : value :=
  match lookup k d with Some v => v | None => dflt end.

(** [k in d] *)
Definition has_key (d : dict) (k : string) : bool :=
  match lookup k d with Some _ => true | None => false end.

(** [d[k] = v]: replaces in place, or appends a new key last. *)
Fixpoint set (d : dict) (k : string) (v : value) : dict :=
  match d with
  | [] => [(k, v)]
  | (k', v') :: r =>
      if String.eqb k k' then (k', v) :: r else (k', v') :: set r k v
  end.

(** [d.setdefault(k, v)], for its effect on [d]. *)
Definition setdefault (d : dict) (k : string) (v : value) : dict :=
  if has_key d k then d else set d k v.

(** [d.update(other)] *)
Definition update (d other : dict) : dict :=
  fold_left (fun acc kv => set acc (fst kv) (snd kv)) other d.

(** [v.get(k)] on an arbitrary value: only a [dict] has the method. *)
Definition vget (v : value) (k : string) : result value :=
  match v with
  | PDict d => Ok (get d k)
  | _ => Raise AttributeError
  end.

(** [v.strip()] on an arbitrary value: only a [str] has the method here. *)
Definition vstrip (v : value) : result string :=
  match v with
  | PStr s => Ok (strip s)
  | _ => Raise AttributeError
  end.

(** *** [float(text)] *)

Fixpoint Z_of_digits_acc (s : string) (acc : Z) : Z :=
  match s with
  | EmptyString => acc
  | String c r => Z_of_digits_acc r (10 * acc + digit_val c)
  end.

Definition Z_of_digits (s : string) : Z := Z_of_digits_acc s 0.

(** A digit part [digit (["_"] digit)*]: the digits read (underscores
    dropped) and the text left. *)
Fixpoint digitpart (s : string) : string * string :=
  match s with
  | EmptyString => (EmptyString, EmptyString)
  | String c r =>
      if is_digit c then
        match r with
        | String u r' =>
            if Ascii.eqb u "_" then
              match r' with
              | String c2 _ =>
                  if is_digit c2
                  then let '(ds, rest) := digitpart r' in (String c ds, rest)
                  else (String c EmptyString, r)
              | EmptyString => (String c EmptyString, r)
              end
            else let '(ds, rest) := digitpart r in (String c ds, rest)
        | EmptyString => (String c EmptyString, EmptyString)
        end
      else (EmptyString, s)
  end.

Definition read_sign (s : string) : Z * string :=
  match s with
  | String c r =>
      if Ascii.eqb c "+" then (1, r)
      else if Ascii.eqb c "-" then (-1, r)
      else (1, s)
  | EmptyString => (1, s)
  end.

(** The exponent part [("e" | "E") ["+" | "-"] digitpart], which must end the
    text; an empty text is exponent 0. *)
Definition read_exponent (s : string) : option Z :=
  match s with
  | EmptyString => Some 0
  | String c r =>
      if Ascii.eqb c "e" || Ascii.eqb c "E" then
        let '(sg, r1) := read_sign r in
        let '(ds, rest) := digitpart r1 in
        if non_empty ds && negb (non_empty rest)
        then Some (sg * Z_of_digits ds) else None
      else None
  end.

(** [float(s)] for a text [s]; [None] stands for [ValueError].  The literals
    [inf], [infinity] and [nan] denote no decimal and are read as [None]. *)
Definition py_float (s : string) : option dec :=
  let '(sg, body) := read_sign (strip s) in
  let '(ip, r1) := digitpart body in
  let '(fp, r2) :=
    match r1 with
    | String c r => if Ascii.eqb c "." then digitpart r else (EmptyString, r1)
    | EmptyString => (EmptyString, r1)
    end in
  if non_empty ip || non_empty fp then
    match read_exponent r2 with
    | Some x =>
        Some (Dec (sg * Z_of_digits (ip ++ fp)) (x - Z.of_nat (String.length fp)))
    | None => None
    end
  else None.

(** *** [str(v)] and [repr(v)] *)

Definition str_of_Z (z : Z) : string := NilZero.string_of_int (Z.to_int z).

Fixpoint zeros (n : nat) : string :=
  match n with
  | O => EmptyString
  | S k => String "0" (zeros k)
  end.

(** Trailing zeros of the mantissa moved into the exponent ([fuel] bounds the
    number of digits). *)
Fixpoint dec_normalize (fuel : nat) (m e : Z) : Z * Z :=
  match fuel with
  | O => (m, e)
  | S k =>
      if (m =? 0) then (0, 0)
      else if (m mod 10 =? 0) then dec_normalize k (m / 10) (e + 1)
      else (m, e)
  end.

(** [repr] of a float: fixed notation when the decimal point position lies
    in (-4, 16], exponent notation otherwise. *)
Definition repr_float (d : dec) : string :=
  let fuel := S (String.length (str_of_Z (Z.abs (dec_m d)))) in
  let '(m, e) := dec_normalize fuel (dec_m d) (dec_e d) in
  let sign := if m <? 0 then "-" else "" in
  let ds := str_of_Z (Z.abs m) in
  let n := Z.of_nat (String.length ds) in
  let decpt := n + e in
  if (m =? 0) then "0.0"
  else if (decpt <=? -4) || (16 <? decpt) then
    let x := decpt - 1 in
    let xs := str_of_Z (Z.abs x) in
    let xs := if (String.length xs <? 2)%nat then "0" ++ xs else xs in
    let frac := String.substring 1 (String.length ds - 1) ds in
    sign ++ String.substring 0 1 ds
         ++ (if non_empty frac then "." ++ frac else "")
         ++ "e" ++ (if x <? 0 then "-" else "+") ++ xs
  else if decpt <=? 0 then
    sign ++ "0." ++ zeros (Z.to_nat (- decpt)) ++ ds
  else if n <=? decpt then
    sign ++ ds ++ zeros (Z.to_nat (decpt - n)) ++ ".0"
  else
    sign ++ String.substring 0 (Z.to_nat decpt) ds ++ "."
         ++ String.substring (Z.to_nat decpt) (String.length ds - Z.to_nat decpt) ds.

Definition hex_digit (n : N) : ascii :=
  if (n <? 10)%N then ascii_of_N (48 + n) else ascii_of_N (87 + n).

Definition escape_char (q : ascii) (c : ascii) : string :=
  let n := N_of_ascii c in
  if Ascii.eqb c "\" then "\\"
  else if Ascii.eqb c q then String "\" (String q EmptyString)
  else if (n =? 10)%N then "\n"
  else if (n =? 13)%N then "\r"
  else if (n =? 9)%N then "\t"
  else if (n <? 32)%N || (n =? 127)%N then
    "\x" ++ String (hex_digit (n / 16)) (String (hex_digit (n mod 16)) EmptyString)
  else String c EmptyString.

Fixpoint escape (q : ascii) (s : string) : string :=
  match s with
  | EmptyString => EmptyString
  | String c r => escape_char q c ++ escape q r
  end.

Definition dquote : ascii := ascii_of_N 34.

(** [repr] of a [str]: single quotes, unless the text has a single quote and
    no double quote. *)
Definition repr_str (s : string) : string :=
  let q : ascii :=
    if contains "'" s && negb (contains (String dquote EmptyString) s)
    then dquote else "'"%char in
  String q (escape q s) ++ String q EmptyString.

Fixpoint repr (v : value) : string :=
  match v with
  | PNone => "None"
  | PBool true => "True"
  | PBool false => "False"
  | PInt z => str_of_Z z
  | PFloat d => repr_float d
  | PStr s => repr_str s
  | PList l => "[" ++ join ", " (List.map repr l) ++ "]"
  | PDict kv =>
      "{" ++ join ", "
               (List.map (fun p => repr_str (fst p) ++ ": " ++ repr (snd p)) kv)
          ++ "}"
  end.

(** [str(v)] *)
Definition str (v : value) : string :=
  match v with
  | PStr s => s
  | _ => repr v
  end.

(** *** Equality and order *)

(** [a == b]: numbers compare by value across [bool], [int] and [float];
    dictionaries compare as maps. *)
Fixpoint py_eq (a b : value) {struct a} : bool :=
  match a, b with
  | PNone, PNone => true
  | PStr s, PStr t => String.eqb s t
  | PList l, PList l' =>
      (fix go (l l' : list value) : bool :=
         match l, l' with
         | [], [] => true
         | x :: r, y :: r' => py_eq x y && go r r'
         | _, _ => false
         end) l l'
  | PDict d, PDict d' =>
      Nat.eqb (List.length d) (List.length d') &&
      (fix go (d : list (string * value)) : bool :=
         match d with
         | [] => true
         | (k, v) :: r =>
             match lookup k d' with
             | Some v' => py_eq v v'
             | None => false
             end && go r
         end) d
  | _, _ =>
      match num_of a, num_of b with
      | Some x, Some y => dec_eqb x y
      | _, _ => false
      end
  end.

(** [v < n] for an integer [n]: defined between numbers only. *)
Definition lt_int (v : value) (n : Z) : result bool :=
  match num_of v with
  | Some x => Ok (dec_ltb x (dec_of_Z n))
  | None => Raise TypeError
  end.

(** Lists and dictionaries are not hashable. *)
Definition hashable (v : value) : bool :=
  match v with
  | PList _ | PDict _ => false
  | _ => true
  end.

End Py.

(* ===================================================================== *)
(** ** backend/estately/filters.py                                        *)
(* ===================================================================== *)

Module Filters.
Import Py.

(** [urllib.parse.quote_plus] on one character: letters, digits and [_.-~]
    are kept, a space becomes [+], anything else is percent-encoded. *)
Definition upper_hex (n : N) : ascii :=
  if (n <? 10)%N then ascii_of_N (48 + n) else ascii_of_N (55 + n).

Definition quote_char (c : ascii) : string :=
  let n := N_of_ascii c in
  if is_alnum c || Ascii.eqb c "_" || Ascii.eqb c "." || Ascii.eqb c "-"
     || Ascii.eqb c "~"
  then String c EmptyString
  else if Ascii.eqb c " " then "+"
  else String "%" (String (upper_hex (n / 16))
                     (String (upper_hex (n mod 16)) EmptyString)).

Fixpoint quote_plus (s : string) : string :=
  match s with
  | EmptyString => EmptyString
  | String c r => quote_char c ++ quote_plus r
  end.

(** [urllib.parse.urlencode] of a dictionary of text and integer values. *)
Definition urlencode (params : dict) : string :=
  join "&" (List.map (fun kv => quote_plus (fst kv) ++ "=" ++ quote_plus (str (snd kv)))
                     params).

Definition _slug (s : string) : string := join "-" (words (lower (strip s))).

Definition STATE_TO_ABBR : list (string * string) :=
  [ ("alabama", "al"); ("alaska", "ak"); ("arizona", "az"); ("arkansas", "ar");
    ("california", "ca"); ("colorado", "co"); ("connecticut", "ct");
    ("delaware", "de"); ("florida", "fl"); ("georgia", "ga"); ("hawaii", "hi");
    ("idaho", "id"); ("illinois", "il"); ("indiana", "in"); ("iowa", "ia");
    ("kansas", "ks"); ("kentucky", "ky"); ("louisiana", "la"); ("maine", "me");
    ("maryland", "md"); ("massachusetts", "ma"); ("michigan", "mi");
    ("minnesota", "mn"); ("mississippi", "ms"); ("missouri", "mo");
    ("montana", "mt"); ("nebraska", "ne"); ("nevada", "nv"); ("new hampshire", "nh");
    ("new jersey", "nj"); ("new mexico", "nm"); ("new york", "ny");
    ("north carolina", "nc"); ("north dakota", "nd"); ("ohio", "oh");
    ("oklahoma", "ok"); ("oregon", "or"); ("pennsylvania", "pa");
    ("rhode island", "ri"); ("south carolina", "sc"); ("south dakota", "sd");
    ("tennessee", "tn"); ("texas", "tx"); ("utah", "ut"); ("vermont", "vt");
    ("virginia", "va"); ("washington", "wa"); ("west virginia", "wv");
    ("wisconsin", "wi"); ("wyoming", "wy");
    ("district of columbia", "dc"); ("washington dc", "dc"); ("dc", "dc") ].

Fixpoint assoc (k : string) (l : list (string * string)) : option string :=
  match l with
  | [] => None
  | (k', v) :: r => if String.eqb k k' then Some v else assoc k r
  end.

(** Returns [(st, city)], or raises [ValueError]. *)
Definition parse_market (market : string) : result (string * string) :=
  match List.map strip (split_on "," market) with
  | [city_raw; state_raw] =>
      let city := _slug city_raw in
      let sr := strip state_raw in
      if Nat.eqb (String.length sr) 2 then Ok (lower sr, city)
      else
        match assoc (lower sr) STATE_TO_ABBR with
        | Some st => if non_empty st then Ok (st, city) else Raise ValueError
        | None => Raise ValueError
        end
  | _ => Raise ValueError
  end.

(** The caller's keyword arguments, with the defaults of the source. *)
Record search_args : Type := {
  min_price : Z;
  max_price : option Z;
  min_beds : Z;
  min_sqft : Z;
  no_hoa : bool;
  distressed : bool;
  property_type : string;
  sort : string
}.

Definition default_args : search_args :=
  {| min_price := 600000; max_price := None; min_beds := 3; min_sqft := 1000;
     no_hoa := true; distressed := true; property_type := "house";
     sort := "newest" |}.

Definition search_params (a : search_args) : dict :=
  let params : dict :=
    [ ("min_price", PInt (min_price a));
      ("min_beds", PInt (min_beds a));
      ("min_sqft", PInt (min_sqft a));
      ("property_type", PStr (property_type a));
      ("status", PStr "active");
      ("sort", PStr (sort a)) ] in
  let params :=
    match max_price a with
    | Some m => if negb (m =? 0) then set params "max_price" (PInt m) else params
    | None => params
    end in
  let params := if no_hoa a then set params "hoa" (PStr "no") else params in
  let params :=
    if distressed a
    then set params "keywords" (PStr "fixer,foreclosure,short+sale,reo,distressed")
    else params in
  params.

Definition build_search_url (market : string) (a : search_args) : result string :=
  bind (parse_market market) (fun '(st, city) =>
    let base := "https://www.estately.com/" ++ st ++ "/" ++ city in
    Ok (base ++ "?" ++ urlencode (search_params a))).

End Filters.

(* ===================================================================== *)
(** ** backend/estately/parsing.py                                        *)
(* ===================================================================== *)

Module Parsing.
Import Py.

Definition of_text (o : option string) : value :=
  match o with Some s => PStr s | None => PNone end.

Definition of_num (o : option dec) : value :=
  match o with Some d => PFloat d | None => PNone end.

(** *** [_first_price] *)

Definition is_group_char (c : ascii) : bool := is_digit c || Ascii.eqb c ",".

Definition is_suffix_char (c : ascii) : bool :=
  existsb (Ascii.eqb c) ["k"; "K"; "m"; "M"; "b"; "B"]%char.

(** [re.search(r"(\d{1,3}(?:[,\d]{0,3})*(?:\.\d+)?)(?:\s*([kKmMbB]))?", s)]:
    the leftmost match starts at the first digit; group 1 is the longest run
    of digits and commas from there, with a fraction [.digits] when one
    follows; group 2 is a suffix letter after optional white space.  Every
    part after the first digit is optional and greedy, so the first attempt
    at the first digit succeeds. *)
Definition price_search (s : string) : option (string * option ascii) :=
  let t := sdrop_while (fun c => negb (is_digit c)) s in
  match t with
  | EmptyString => None
  | String _ _ =>
      let run := stake_while is_group_char t in
      let r1 := sdrop_while is_group_char t in
      let '(frac, r2) :=
        match r1 with
        | String c r =>
            if Ascii.eqb c "." && non_empty (stake_while is_digit r)
            then (String "." (stake_while is_digit r), sdrop_while is_digit r)
            else (EmptyString, r1)
        | EmptyString => (EmptyString, r1)
        end in
      let suf :=
        match sdrop_while is_space r2 with
        | String c _ => if is_suffix_char c then Some c else None
        | EmptyString => None
        end in
      Some (run ++ frac, suf)
  end.

(** A value that is not text makes [re.search] raise [TypeError], which the
    function's own [except Exception] turns into [None]. *)
Definition _first_price (s : value) : option dec :=
  if negb (truthy s) then None
  else
    match s with
    | PStr t =>
        match price_search t with
        | None => None
        | Some (g1, g2) =>
            match py_float (remove_char "," g1) with
            | None => None
            | Some val =>
                let suf := match g2 with
                           | Some c => String (lower_ascii c) EmptyString
                           | None => EmptyString
                           end in
                if String.eqb suf "k" then Some (dec_scale10 val 3)
                else if String.eqb suf "m" then Some (dec_scale10 val 6)
                else if String.eqb suf "b" then Some (dec_scale10 val 9)
                else Some val
            end
        end
    | _ => None
    end.

(** *** [_qv_value] *)

(** [float(str(v).replace(",", "")) if v is not None else None], with
    [ValueError] caught. *)
Definition float_of_value (v : value) : option dec :=
  if is_none v then None else py_float (remove_char "," (str v)).

Definition _qv_value (x : value) : option dec :=
  match x with
  | PDict d => float_of_value (get d "value")
  | _ => float_of_value x
  end.

(** *** [_jsonld_from_card] *)

Definition type_in (names : list string) (obj : dict) : bool :=
  existsb (String.eqb (lower (str (get_default obj "@type" (PStr "")))))
          names.

Definition _is_residence (obj : dict) : bool :=
  type_in ["singlefamilyresidence"; "house"; "apartment"; "residence"] obj.

Definition _is_product (obj : dict) : bool := type_in ["product"] obj.

(** [next((o for o in items if isinstance(o, dict) and p(o)), None)] *)
Fixpoint first_dict (p : dict -> bool) (items : list value) : option dict :=
  match items with
  | [] => None
  | PDict o :: r => if p o then Some o else first_dict p r
  | _ :: r => first_dict p r
  end.

(** The loop over the hosts that looks for an [offers] entry. *)
Fixpoint find_offer (hosts : list value) : option value :=
  match hosts with
  | [] => None
  | PDict host :: r =>
      match get host "offers" with
      | PList (o :: _) => Some o
      | PDict off => Some (PDict off)
      | _ => find_offer r
      end
  | _ :: r => find_offer r
  end.

Definition of_dict (o : option dict) : value :=
  match o with Some d => PDict d | None => PNone end.

(** [data] is what [json.loads] made of the card's [application/ld+json]
    script; the function returns the merged view, or [None] when it is
    empty. *)
Definition jsonld_merge (data : value) : option dict :=
  let items := match data with PList l => l | _ => [data] end in
  let residence := first_dict _is_residence items in
  let product := first_dict _is_product items in
  let hosts :=
    match product, residence with
    | None, None => items
    | _, _ => [of_dict product; of_dict residence]
    end in
  let offer := find_offer hosts in
  let merged : dict := [] in
  let merged := match residence with Some r => update merged r | None => merged end in
  let merged :=
    match product with
    | Some p => fold_left (fun acc kv => setdefault acc (fst kv) (snd kv)) p merged
    | None => merged
    end in
  let merged :=
    match offer with
    | Some o => if truthy o then setdefault merged "offers" o else merged
    | None => merged
    end in
  match merged with [] => None | _ => Some merged end.

(** *** Cards *)

(** What the selectors and regular expressions of [parse_card] read in the
    card's markup, before the structured-data backfill; the markup engine
    itself is not modelled. *)
Record card : Type := {
  c_address : option string;   (* [_text(addr_el)] *)
  c_city : option string;
  c_state : option string;
  c_zip : option string;
  c_price_txt : option string; (* [price_txt] *)
  c_beds : option dec;
  c_baths : option dec;
  c_sqft : result (option dec);
                               (* the sqft read; [Raise ValueError] when the
                                  fallback pattern [(\d[\d,\.]+)\s*sf] matches
                                  a text that [float] refuses, as in
                                  [1.2.3sf] *)
  c_href : option string;      (* [_extract_href(card)] *)
  c_jsonld : option value;     (* the parsed ld+json script: [None] when
                                  absent, empty or not JSON *)
  c_text : string              (* [card.get_text(" ", strip=True)] *)
}.

Definition _jsonld_from_card (c : card) : option dict :=
  match c_jsonld c with
  | Some data => jsonld_merge data
  | None => None
  end.

(** The sqft read in the markup, when reading it did not raise. *)
Definition markup_sqft (c : card) : option dec := try_except (c_sqft c) None.

(** The [out] dictionary after the markup has been read. *)
Definition dom_fields (c : card) : dict :=
  [ ("address", of_text (c_address c));
    ("city", of_text (c_city c));
    ("state", of_text (c_state c));
    ("zip", of_text (c_zip c));
    ("price", of_num (_first_price (of_text (c_price_txt c))));
    ("beds", of_num (c_beds c));
    ("baths", of_num (c_baths c));
    ("sqft", of_num (markup_sqft c));
    ("href", of_text (c_href c)) ].

Section Backfill.

(** [urllib.parse.urljoin], kept abstract. *)
Variable urljoin : string -> string -> string.

(** [street not in address] *)
Definition not_in_text (street address : value) : result bool :=
  match street, address with
  | PStr s, PStr a => Ok (negb (contains s a))
  | _, _ => Raise TypeError
  end.

Definition backfill_address (out : dict) (ld : dict) : result dict :=
  let addr := if is_dict (get ld "address") then get ld "address"
              else get_default ld "address" (PDict []) in
  bind (vget addr "streetAddress") (fun street =>
  bind (vget addr "addressLocality") (fun city_ld =>
  bind (vget addr "addressRegion") (fun state_ld =>
  bind (vget addr "postalCode") (fun zip_ld =>
  bind (if truthy street then
          if negb (truthy (get out "address")) then Ok (set out "address" street)
          else bind (not_in_text street (get_default out "address" (PStr "")))
                    (fun b => Ok (if b then set out "address" street else out))
        else Ok out) (fun out =>
  let out := if truthy city_ld
             then set out "city" (por (get out "city") city_ld) else out in
  let out := if truthy state_ld
             then set out "state" (por (get out "state") state_ld) else out in
  let out := if truthy zip_ld
             then set out "zip" (por (get out "zip") zip_ld) else out in
  Ok out))))).

Definition backfill_href (out : dict) (ld : dict) : dict :=
  if negb (truthy (get out "href")) then
    match get ld "url" with
    | PStr url_ld => set out "href" (PStr (urljoin "https://www.estately.com/" url_ld))
    | _ => out
    end
  else out.

Definition backfill_numbers (out : dict) (ld : dict) : dict :=
  let out := if is_none (get out "beds")
             then set out "beds" (of_num (_qv_value (get ld "numberOfRooms")))
             else out in
  let out := if is_none (get out "baths")
             then set out "baths" (of_num (_qv_value (get ld "numberOfBathroomsTotal")))
             else out in
  if is_none (get out "sqft") then
    let fs := get ld "floorSize" in
    let out := set out "sqft" (of_num (_qv_value fs)) in
    match fs with
    | PDict fsd =>
        if is_none (get out "sqft")
        then set out "sqft" (of_num (_qv_value (get fsd "value")))
        else out
    | _ => out
    end
  else out.

Definition backfill_price (out : dict) (ld : dict) : result dict :=
  if is_none (get out "price") then
    let offers := get ld "offers" in
    bind (match offers with
          | PDict o => Ok (get o "price")
          | PList (o :: _) => vget o "price"
          | _ => Ok PNone
          end) (fun price_ld =>
    let price_ld := if is_none price_ld then get ld "price" else price_ld in
    Ok (set out "price" (por (of_num (_qv_value price_ld)) (get out "price"))))
  else Ok out.

Definition parse_card (c : card) : result dict :=
  bind (c_sqft c) (fun _ =>
  let out := dom_fields c in
  bind (match _jsonld_from_card c with
        | Some ld =>
            bind (backfill_address out ld) (fun out =>
            let out := backfill_href out ld in
            let out := backfill_numbers out ld in
            backfill_price out ld)
        | None => Ok out
        end) (fun out =>
  if negb (truthy (get out "address")) then Ok []
  else if negb (truthy (por (get out "price") (get out "href")))
       then Ok (setdefault out "_weak" (PBool true))
       else Ok out)).

End Backfill.

(** *** [should_keep] and [parse_all_cards] *)

Definition should_keep (row : dict) : bool :=
  if negb (truthy (PDict row)) then false
  else if negb (truthy (get row "address")) then false
  else if negb (truthy (por (get row "price") (get row "href"))) then false
  else if truthy (get row "_weak") then false
  else true.

(** [[f(c) for c in cards]] for an [f] that may raise. *)
Fixpoint map_result {A B} (f : A -> result B) (l : list A) : result (list B) :=
  match l with
  | [] => Ok []
  | x :: r => bind (f x) (fun y => bind (map_result f r) (fun ys => Ok (y :: ys)))
  end.

(** [cards] is what [select_cards] found in the page. *)
Definition parse_all_cards (urljoin : string -> string -> string)
  (cards : list card) : result (list dict) :=
  bind (map_result (parse_card urljoin) cards) (fun parsed =>
  Ok (List.filter should_keep parsed)).

End Parsing.

(* ===================================================================== *)
(** ** backend/estately/scraper.py: helpers and extractors                *)
(* ===================================================================== *)

Module Scraper.
Import Py.

(** [a or b or ... or z]: the first truthy operand, else the last one. *)
Fixpoint por_chain (l : list value) : value :=
  match l with
  | [] => PNone
  | [v] => v
  | v :: r => if truthy v then v else por_chain r
  end.

Definition gets (d : dict) (keys : list string) : value :=
  por_chain (List.map (get d) keys).

(** *** Numeric coercion and the minimum filter *)

Definition is_digit_or_dot (c : ascii) : bool := is_digit c || Ascii.eqb c ".".

Definition _coerce_float (x : value) : option dec :=
  match x with
  | PNone => None
  | PBool _ | PInt _ | PFloat _ => num_of x
  | _ =>
      let s := sfilter is_digit_or_dot (str x) in
      if non_empty s then py_float s else None
  end.

Definition of_num : option dec -> value := Parsing.of_num.

Definition _passes_min (val : value) (minimum : Z) : bool :=
  match _coerce_float val with
  | None => true
  | Some v => dec_leb (dec_of_Z minimum) v
  end.

(** [(d.get(k) or 0) < minimum], the test written inline in some loops. *)
Definition below_min (val : value) (minimum : Z) : result bool :=
  lt_int (por val (PInt 0)) minimum.

(** [(v or "").strip()] *)
Definition text_field (v : value) : result string := vstrip (por v (PStr "")).

Definition _has_min_address (d : dict) : result bool :=
  bind (text_field (get d "address")) (fun addr =>
  bind (text_field (get d "city")) (fun city =>
  bind (text_field (get d "state")) (fun state =>
  Ok (non_empty addr || (non_empty city && non_empty state))))).

(** *** Status *)

Definition NEG_STATUS : list string :=
  ["pending"; "sold"; "contingent"; "off market"; "off-market"; "closed";
   "withdrawn"; "canceled"; "leased"; "rented"; "temporarily off market"].

Definition POS_STATUS_TOKENS : list string :=
  ["for sale"; "active"; "active listing"; "on market"; "on-market"].

Definition status_fields : list string :=
  ["status"; "listingStatus"; "propertyStatus"; "marketStatus"; "statusText";
   "saleType"; "listing_type"; "onMarket"; "isActive"; "forSale"].

(** The first status field that is present and not [None]. *)
Fixpoint first_status (d : dict) (keys : list string) : option value :=
  match keys with
  | [] => None
  | k :: r =>
      if has_key d k && negb (is_none (get d k)) then Some (get d k)
      else first_status d r
  end.

Definition _extract_status (d : dict) (text : string) : option string * bool :=
  let raw := first_status d status_fields in
  let s := match raw with
           | Some r => lower (strip (str r))
           | None => ""
           end in
  let blob := strip (join " " [s; lower text]) in
  let is_active :=
    match raw with
    | Some (PBool b) => b
    | _ =>
        if any_in NEG_STATUS blob then false
        else if any_in POS_STATUS_TOKENS blob then true
        else true
    end in
  (if non_empty s then Some s else None, is_active).

Definition ACTIVE_TOKENS : list string :=
  ["active"; "for_sale"; "for sale"; "active-listing"; "on_market"; "on market"].

Definition INACTIVE_TOKENS : list string :=
  ["pending"; "under contract"; "contingent"; "off_market"; "sold";
   "coming soon"; "withdrawn"; "canceled"; "expired"].

Definition looks_fields : list string :=
  ["status"; "listingStatus"; "sale_status"; "marketStatus"; "availability";
   "listing_status"; "mlsStatus"; "property_status"; "propStatus"].

Fixpoint first_truthy (d : dict) (keys : list string) : option value :=
  match keys with
  | [] => None
  | k :: r => if truthy (get d k) then Some (get d k) else first_truthy d r
  end.

Definition _looks_active_for_sale (d : dict) : bool :=
  match first_truthy d looks_fields with
  | None => true
  | Some v =>
      let val := lower (strip (str v)) in
      if negb (non_empty val) then true
      else if any_in INACTIVE_TOKENS val then false
      else if any_in ACTIVE_TOKENS val then true
      else true
  end.

(** *** The JSON walker *)

Definition _addr_from_any (d : dict) : option dict :=
  let cand := gets d ["address"; "location"; "propertyAddress"; "address_obj"] in
  let d2 := match cand with PDict c => c | _ => d end in
  let address := gets d2 ["address"; "streetAddress"; "street_address"; "line1";
                          "addressLine1"; "address1"] in
  let city := gets d2 ["city"; "addressCity"] in
  let state := gets d2 ["state"; "addressState"; "stateCode"] in
  let zipc := gets d2 ["zip"; "zipcode"; "postalCode"; "zip_code"] in
  if truthy address || (truthy city && truthy state)
  then Some [("address", address); ("city", city); ("state", state); ("zip", zipc)]
  else None.

(** [float(v)] for an arbitrary value. *)
Definition to_float (v : value) : result dec :=
  match v with
  | PBool _ | PInt _ | PFloat _ =>
      match num_of v with Some d => Ok d | None => Raise TypeError end
  | PStr s => match py_float s with Some d => Ok d | None => Raise ValueError end
  | _ => Raise TypeError
  end.

Definition cents_keys : list string :=
  ["listPriceCents"; "priceCents"; "list_price_cents"; "price_cents"].

Definition price_keys : list string :=
  ["listPrice"; "price"; "displayPrice"; "list_price";
   "listPriceCents"; "priceCents"; "list_price_cents"; "price_cents"].

Definition _price_from_any (d : dict) : result (option dec) :=
  let raw := gets d price_keys in
  if is_none raw then Ok None
  else if existsb (fun k => has_key d k && py_eq (get d k) raw) cents_keys
       then bind (to_float raw) (fun f => Ok (Some (dec_scale10 f (-2))))
       else Ok (_coerce_float raw).

Definition _href_from_any (d : dict) : value :=
  gets d ["url"; "detailUrl"; "permalink"; "canonicalUrl"; "seoUrl"; "listingUrl"].

Fixpoint _flatten_dicts (obj : value) : list dict :=
  match obj with
  | PDict kv =>
      kv :: (fix values (kv : list (string * value)) : list dict :=
               match kv with
               | [] => []
               | (_, v) :: r => (_flatten_dicts v ++ values r)%list
               end) kv
  | PList l =>
      (fix items (l : list value) : list dict :=
         match l with
         | [] => []
         | it :: r => (_flatten_dicts it ++ items r)%list
         end) l
  | _ => []
  end.

Definition str_or_none (v : value) : value :=
  if is_none v then PNone else PStr (str v).

(** [int(_coerce_float(v) or 0) if _coerce_float(v) is not None else None] *)
Definition int_or_none (v : value) : value :=
  match _coerce_float v with
  | Some d => PInt (if dec_is_zero d then 0 else dec_trunc d)
  | None => PNone
  end.

Definition blob_key : Type := string * dec * value.

Definition blob_key_eqb (a b : blob_key) : bool :=
  let '(a1, a2, a3) := a in
  let '(b1, b2, b3) := b in
  String.eqb a1 b1 && dec_eqb a2 b2 && py_eq a3 b3.

(** One turn of the loop over the flattened nodes. *)
Definition blob_step (node : dict) (st : list blob_key * list dict)
  : result (list blob_key * list dict) :=
  let '(seen_keys, out) := st in
  let addr := _addr_from_any node in
  bind (_price_from_any node) (fun price =>
  match addr, price with
  | Some addr, Some price =>
      if negb (_looks_active_for_sale node) then Ok st
      else
        let beds := gets node ["beds"; "bedrooms"; "num_bedrooms"; "bedCount"] in
        let baths := gets node ["baths"; "bathrooms"; "fullBaths"; "bathCount"] in
        let sqft := gets node ["sqft"; "livingArea"; "squareFeet"; "square_feet";
                               "living_area"] in
        let href := _href_from_any node in
        bind (text_field (get addr "address")) (fun street =>
        let zkey := por_chain [get addr "zip"; get addr "zipcode";
                               get addr "zip_code"; PStr ""] in
        if negb (hashable zkey) then Raise TypeError
        else
          let key : blob_key := (lower street, price, zkey) in
          if existsb (blob_key_eqb key) seen_keys then Ok st
          else
            let listing : dict :=
              [ ("address", PStr street);
                ("city", str_or_none (get addr "city"));
                ("state", str_or_none (get addr "state"));
                ("zip", str_or_none (get addr "zip"));
                ("price", PFloat price);
                ("beds", of_num (_coerce_float beds));
                ("baths", of_num (_coerce_float baths));
                ("sqft", int_or_none sqft);
                ("href", str_or_none href) ] in
            Ok (key :: seen_keys, (out ++ [listing])%list))
  | _, _ => Ok st
  end).

Fixpoint fold_result {A S} (step : A -> S -> result S) (l : list A) (s : S)
  : result S :=
  match l with
  | [] => Ok s
  | x :: r => bind (step x s) (fun s' => fold_result step r s')
  end.

(** [parsed] is the outcome of the function's guarded prologue: the JSON
    value read from the text, or [None] when the text looks like HTML or is
    not JSON (the prologue then returns the empty list). *)
Definition _extract_listings_from_json_blob (parsed : option value)
  : result (list dict) :=
  match parsed with
  | None => Ok []
  | Some data =>
      bind (fold_result blob_step (_flatten_dicts data) ([], []))
           (fun st => Ok (snd st))
  end.

(** *** The targeted parser of the [/map/properties] endpoint *)

Definition map_price_keys : list string :=
  ["list_price"; "price"; "list_price_cents"; "price_cents"].

Definition map_price (it : dict) : option dec :=
  let price := gets it map_price_keys in
  let price :=
    match num_of price with
    | Some p =>
        if is_number price && dec_ltb (dec_of_Z 0) p && dec_ltb p (dec_of_Z 100000)
        then PFloat p else price
    | None => price
    end in
  if has_key it "list_price_cents" && is_number (get it "list_price_cents") then
    option_map (fun f => dec_scale10 f (-2)) (num_of (get it "list_price_cents"))
  else if has_key it "price_cents" && is_number (get it "price_cents") then
    option_map (fun f => dec_scale10 f (-2)) (num_of (get it "price_cents"))
  else _coerce_float price.

Definition map_step (it : value) (out : list dict) : result (list dict) :=
  match it with
  | PDict it =>
      let addr_obj := por (get it "address") (PDict []) in
      bind (vget addr_obj "street") (fun a_street =>
      bind (vget addr_obj "address") (fun a_address =>
      let street := por_chain [a_street; a_address; get it "streetAddress"] in
      bind (vget addr_obj "city") (fun a_city =>
      let city := por a_city (get it "city") in
      bind (vget addr_obj "state") (fun a_state =>
      let state := por a_state (get it "state") in
      bind (vget addr_obj "zip") (fun a_zip =>
      bind (vget addr_obj "zipcode") (fun a_zipcode =>
      bind (vget addr_obj "postalCode") (fun a_postal =>
      let zipc := por_chain [a_zip; a_zipcode; a_postal; get it "zip"] in
      let price := map_price it in
      let beds := gets it ["beds"; "bedrooms"; "bed_count"] in
      let baths := gets it ["baths"; "bathrooms"; "bath_count"] in
      let sqft := gets it ["sqft"; "square_feet"; "living_area"] in
      let href := gets it ["url"; "listing_url"; "permalink"] in
      if negb (snd (_extract_status it "")) then Ok out
      else if negb (truthy street && truthy (por city state)) then Ok out
      else
        match price with
        | None => Ok out
        | Some p =>
            bind (text_field street) (fun street_txt =>
            Ok (out ++ [[ ("address", PStr street_txt);
                          ("city", str_or_none city);
                          ("state", str_or_none state);
                          ("zip", str_or_none zipc);
                          ("price", PFloat p);
                          ("beds", of_num (_coerce_float beds));
                          ("baths", of_num (_coerce_float baths));
                          ("sqft", int_or_none sqft);
                          ("href", str_or_none href) ]])%list)
        end)))))))
  | _ => Ok out
  end.

(** [parsed] is [json.loads(text)], [None] when it raises. *)
Definition _extract_estately_map_properties (url : string) (parsed : option value)
  : result (list dict) :=
  if negb (contains "/map/properties" url) then Ok []
  else
    match parsed with
    | Some (PList data) => fold_result map_step data []
    | _ => Ok []
    end.

(** *** Inline scripts *)

Fixpoint mentions_html (v : value) : bool :=
  let hit (s : string) :=
    contains "<html" (lower s) || contains "<!doctype" (lower s) in
  match v with
  | PStr s => hit s
  | PList l =>
      (fix any (l : list value) : bool :=
         match l with [] => false | x :: r => mentions_html x || any r end) l
  | PDict kv =>
      (fix any (kv : list (string * value)) : bool :=
         match kv with
         | [] => false
         | (k, x) :: r => hit k || mentions_html x || any r
         end) kv
  | _ => false
  end.

(** [json.dumps(data)] read back by the walker's prologue: the text it
    produces is JSON again, and is taken for HTML exactly when one of its
    keys or strings has the marker. *)
Definition redumped (data : value) : option value :=
  if mentions_html data then None else Some data.

(** [scripts] lists, for each candidate [<script>] of the page, the JSON
    value isolated and loaded from it ([None] when loading raises). *)
Definition _mine_inline_scripts (scripts : list (option value)) : list dict :=
  let blobs := flat_map (fun o => match o with Some d => [d] | None => [] end)
                        scripts in
  flat_map (fun data =>
              try_except (_extract_listings_from_json_blob (redumped data)) [])
           blobs.

Definition DISTRESSED_KEYWORDS : list string :=
  ["foreclosure"; "pre-foreclosure"; "auction"; "bank owned"; "reo";
   "short sale"; "fixer"; "distressed"].

Definition looks_distressed (text : string) : bool :=
  any_in DISTRESSED_KEYWORDS (lower text).

Definition has_no_hoa (text : string) : bool := negb (contains "hoa" (lower text)).

(** *** The document handed to the store *)

(** [_normalize_property_from_dict]: the address, price, details and status
    fields of the document.  The agent and broker contact fields, the raw
    copy of the row and the time stamp are left out. *)
Definition _normalize_property_from_dict (d : dict) (source_url : value)
  : result dict :=
  bind (text_field (get d "address")) (fun address =>
  bind (text_field (get d "city")) (fun city =>
  bind (text_field (get d "state")) (fun state0 =>
  let state := upper state0 in
  let zipc := strip (str (por (get d "zip") (PStr ""))) in
  let loc_tail := strip (join " " (List.filter non_empty [state; zipc])) in
  let full_addr_parts :=
    ((if non_empty address then [address] else []) ++
     (if non_empty city || non_empty loc_tail
      then [join ", " (List.filter non_empty [city; loc_tail])] else []))%list in
  let full_addr :=
    strip_chars (fun c => Ascii.eqb c "," || Ascii.eqb c " ")
                (join ", " full_addr_parts) in
  bind (match por (get d "_card_text") (PStr "") with
        | PStr t => Ok t
        | _ => Raise AttributeError
        end) (fun text =>
  let '(status_text, is_active) := _extract_status d text in
  let price_val :=
    if is_none (get d "price") then PNone
    else of_num (try_except (bind (to_float (get d "price")) (fun f => Ok (Some f)))
                            None) in
  Ok [ ("fullAddress", PStr full_addr);
       ("fullAddress_ci", PStr (lower full_addr));
       ("address", PStr address);
       ("city", PStr city);
       ("state", PStr state);
       ("zip", PStr zipc);
       ("price", price_val);
       ("details", PDict [ ("beds", get d "beds"); ("baths", get d "baths");
                           ("sqft", get d "sqft") ]);
       ("listing_status",
        PStr (match status_text with Some t => t | None => "active" end));
       ("status", PStr (if is_active then "active" else "inactive"));
       ("forSale", PBool is_active);
       ("isActive", PBool is_active);
       ("source_url", source_url) ])))).

(* ===================================================================== *)
(** ** backend/estately/scraper.py: the collection pipeline               *)
(* ===================================================================== *)

(** [PropertyCard] (backend/py_models/property.py); the validation done by
    the model class is not part of the embedding. *)
Record PropertyCard : Type := {
  address : value;
  city : value;
  state : value;
  zip : value;
  listing_price : value;
  beds : value;
  baths : value;
  sqft : value;
  source_url : value
}.

(** *** The outside world *)

(** A page as the pipeline reads it: the JSON of its candidate scripts, the
    elements matched by the card selectors, and the href of its "next"
    link. *)
Record html_doc : Type := {
  h_scripts : list (option value);
  h_cards : list Parsing.card;
  h_next : option string
}.

(** A captured network response: its URL, [json.loads] of its body, and what
    the prologue of the JSON walker reads in its body. *)
Record blob : Type := {
  b_url : string;
  b_json : option value;
  b_walk : option value
}.

(** What the browser shows after a successful navigation. *)
Record rendered : Type := {
  p_html : html_doc;
  p_net : list blob;            (* responses buffered while rendering *)
  p_next_attr : option string   (* [page.get_attribute(next link, "href")] *)
}.

Inductive nav : Type :=
| NavFailed                     (* [page.goto] raises [PWError] *)
| NavOk (p : rendered).

Record world : Type := {
  w_fetch : string -> option html_doc;   (* [fetch_html]; [None]: it raises *)
  w_canonical : string -> string;        (* the URL after canonicalization *)
  w_goto : nat -> string -> nav          (* [page.goto] at a turn of the
                                            page loop *)
}.

Record config : Type := {
  playwright_available : bool;  (* [_PLAYWRIGHT_AVAILABLE] and the launchers *)
  mongo_available : bool        (* [_properties_col is not None] *)
}.

Record limits : Type := {
  min_price : Z;
  min_beds : Z;
  min_sqft : Z;
  require_distressed : bool;
  require_no_hoa : bool
}.

(** Calls on the collaborators, in the order they are made. *)
Inductive event : Type :=
| EvLaunch | EvNewPage | EvHook
| EvGoto (url : string) (ok : bool)      (* [ok]: it returned; else it
                                            raised [PWError] *)
| EvDismissBanners | EvPrimeResults | EvWait | EvWaitForListings | EvScroll
| EvContent | EvGetAttribute
| EvClose
| EvHttpCanonical (url : string)
| EvHttpFetch (url : string)
| EvPersist.

(** *** State and exceptions *)

Record run : Type := {
  results : list PropertyCard;
  mongo_docs : list dict;
  net_bucket : list blob;
  trace : list event
}.

Definition empty_run : run :=
  {| results := []; mongo_docs := []; net_bucket := []; trace := [] |}.

(** A computation changes the state and returns or raises; the changes
    made before an exception stay. *)
Definition M (A : Type) : Type := run -> run * result A.

Definition ret {A} (a : A) : M A := fun s => (s, Ok a).

Definition bindM {A B} (m : M A) (k : A -> M B) : M B :=
  fun s => match m s with
           | (s', Ok a) => k a s'
           | (s', Raise e) => (s', Raise e)
           end.

Definition lift {A} (r : result A) : M A := fun s => (s, r).

(** [try: m except Exception: h] *)
Definition catch {A} (m : M A) (h : M A) : M A :=
  fun s => match m s with
           | (s', Raise _) => h s'
           | r => r
           end.

Declare Scope run_scope.
Delimit Scope run_scope with run.
Notation "x <- m ;; k" := (bindM m (fun x => k))
  (at level 61, m at next level, right associativity) : run_scope.
Notation "m ;; k" := (bindM m (fun _ => k))
  (at level 61, right associativity) : run_scope.
Local Open Scope run_scope.

Definition emit (e : event) : M unit :=
  fun s => ({| results := results s; mongo_docs := mongo_docs s;
               net_bucket := net_bucket s;
               trace := (trace s ++ [e])%list |}, Ok tt).

Definition push_card (c : PropertyCard) : M unit :=
  fun s => ({| results := (results s ++ [c])%list; mongo_docs := mongo_docs s;
               net_bucket := net_bucket s; trace := trace s |}, Ok tt).

Definition push_doc (d : dict) : M unit :=
  fun s => ({| results := results s; mongo_docs := (mongo_docs s ++ [d])%list;
               net_bucket := net_bucket s; trace := trace s |}, Ok tt).

Definition push_net (l : list blob) : M unit :=
  fun s => ({| results := results s; mongo_docs := mongo_docs s;
               net_bucket := (net_bucket s ++ l)%list; trace := trace s |}, Ok tt).

Definition get_run : M run := fun s => (s, Ok s).

(** [for x in items: ...] with a loop variable [a] threaded through. *)
Fixpoint for_each {I A} (step : I -> A -> M A) (items : list I) (a : A) : M A :=
  match items with
  | [] => ret a
  | x :: r => a' <- step x a ;; for_each step r a'
  end.

(** *** Emitting a listing *)

Definition key : Type := (value * value)%type.

(** [(d.get("address") or "", d.get("price") or 0)] *)
Definition row_key (d : dict) : key :=
  (por (get d "address") (PStr ""), por (get d "price") (PInt 0)).

Definition key_eqb (a b : key) : bool :=
  py_eq (fst a) (fst b) && py_eq (snd a) (snd b).

(** [key in seen] *)
Definition seen_mem (k : key) (seen : list key) : result bool :=
  if hashable (fst k) && hashable (snd k) then Ok (existsb (key_eqb k) seen)
  else Raise TypeError.

Definition make_card (d : dict) (url : string) : PropertyCard :=
  {| address := por (get d "address") (PStr "");
     city := get d "city";
     state := get d "state";
     zip := get d "zip";
     listing_price := get d "price";
     beds := get d "beds";
     baths := get d "baths";
     sqft := get d "sqft";
     source_url := por (get d "href") (PStr url) |}.

(** The tail shared by every harvesting loop: skip a key already seen, else
    record the key, append the card and its document.  [d_doc] is the row
    the document is built from (the row itself, or the row with its card
    text attached). *)
Definition dedupe_emit (d d_doc : dict) (url : string) (seen : list key)
  : M (list key) :=
  dup <- lift (seen_mem (row_key d) seen) ;;
  if dup then ret seen
  else
    push_card (make_card d url) ;;
    doc <- lift (_normalize_property_from_dict d_doc (por (get d_doc "href") (PStr url))) ;;
    push_doc doc ;;
    ret (row_key d :: seen).

Definition passes_mins (lim : limits) (d : dict) : bool :=
  _passes_min (get d "price") (min_price lim) &&
  _passes_min (get d "beds") (min_beds lim) &&
  _passes_min (get d "sqft") (min_sqft lim).

(** The three inline tests [(d.get(k) or 0) < minimum]: [true] when the row
    is to be skipped. *)
Definition below_mins (lim : limits) (d : dict) : result bool :=
  bind (below_min (get d "price") (min_price lim)) (fun b1 =>
  if b1 then Ok true else
  bind (below_min (get d "beds") (min_beds lim)) (fun b2 =>
  if b2 then Ok true else
  below_min (get d "sqft") (min_sqft lim))).

(** [require_no_hoa and not has_no_hoa(t) or require_distressed and not
    looks_distressed(t)]: [true] when the row is to be skipped. *)
Definition text_filtered (lim : limits) (t : string) : bool :=
  (require_no_hoa lim && negb (has_no_hoa t)) ||
  (require_distressed lim && negb (looks_distressed t)).

(** [d.get("_card_text") or ""], as [_extract_status] lowers it. *)
Definition card_text_of (d : dict) : result string :=
  match por (get d "_card_text") (PStr "") with
  | PStr t => Ok t
  | _ => Raise AttributeError
  end.

(** *** The harvesting loops *)

Section Loops.

Variable urljoin : string -> string -> string.
Variable w : world.
Variable lim : limits.

Definition make_absolute (base href : string) : string := urljoin base href.

(** The inline-script loop of [_collect_http_only]. *)
Definition http_inline_step (url : string) (d : dict) (seen : list key)
  : M (list key) :=
  if negb (passes_mins lim d) then ret seen
  else
    ok <- lift (_has_min_address d) ;;
    if negb ok then ret seen
    else
      t <- lift (card_text_of d) ;;
      if negb (snd (_extract_status d t)) then ret seen
      else dedupe_emit d d url seen.

(** The inline-script loop run after a failed navigation. *)
Definition nav_fallback_step (url : string) (d : dict) (seen : list key)
  : M (list key) :=
  if negb (passes_mins lim d) then ret seen
  else
    t <- lift (card_text_of d) ;;
    if negb (snd (_extract_status d t)) then ret seen
    else dedupe_emit d d url seen.

(** The inline-script loop of the browser path, and the final harvest of
    the network bucket. *)
Definition inline_step (url : string) (d : dict) (seen : list key)
  : M (list key) :=
  if negb (passes_mins lim d) then ret seen
  else if negb (snd (_extract_status d "")) then ret seen
  else dedupe_emit d d url seen.

(** The loop over the rows harvested from the network bucket; its text
    filters run on the empty text. *)
Definition net_step (url : string) (d : dict) (seen : list key)
  : M (list key) :=
  low <- lift (below_min (get d "price") (min_price lim)) ;;
  if low then ret seen
  else if negb (_passes_min (get d "beds") (min_beds lim)) then ret seen
  else if negb (_passes_min (get d "sqft") (min_sqft lim)) then ret seen
  else if text_filtered lim "" then ret seen
  else if negb (snd (_extract_status d "")) then ret seen
  else dedupe_emit d d url seen.

(** The main loop over the cards of the rendered page. *)
Definition dom_step (url : string) (c : Parsing.card) (seen : list key)
  : M (list key) :=
  data <- lift (Parsing.parse_card urljoin c) ;;
  low <- lift (below_mins lim data) ;;
  if low then ret seen
  else
    let card_text := Parsing.c_text c in
    if text_filtered lim card_text then ret seen
    else if negb (snd (_extract_status data card_text)) then ret seen
    else dedupe_emit data (set data "_card_text" (PStr card_text)) url seen.

(** [_harvest_from_detail]: the first inline row of the detail page that has
    an address and passes the minimums. *)
Fixpoint first_detail (url : string) (cand : list dict) : result (option dict) :=
  match cand with
  | [] => Ok None
  | d :: r =>
      bind (_has_min_address d) (fun ok =>
      if negb ok then first_detail url r
      else if negb (passes_mins lim d) then first_detail url r
      else Ok (Some (setdefault d "href" (PStr url))))
  end.

Definition _harvest_from_detail (url : string) : M (option dict) :=
  emit (EvHttpFetch url) ;;
  match w_fetch w url with
  | None => ret None
  | Some html => lift (first_detail url (_mine_inline_scripts (h_scripts html)))
  end.

(** "Normalize/enrich before gating by address": the href made absolute,
    and a row without address completed from its detail page. *)
Definition enrich (url : string) (data : dict) : M dict :=
  data <- lift (if truthy (get data "href")
                then match get data "href" with
                     | PStr h => Ok (set data "href" (PStr (make_absolute url h)))
                     | _ => Raise TypeError
                     end
                else Ok data) ;;
  ok <- lift (_has_min_address data) ;;
  if negb ok && truthy (get data "href") then
    catch (detail <- _harvest_from_detail (str (get data "href")) ;;
           ret (match detail with
                | Some (x :: r) => update data (x :: r)
                | _ => data
                end))
          (ret data)
  else ret data.

(** The gates of the card loop of [_collect_http_only], on the enriched
    row. *)
Definition http_dom_gates (url : string) (c : Parsing.card) (data : dict)
  (seen : list key) : M (list key) :=
  if negb (passes_mins lim data) then ret seen
  else
    ok <- lift (_has_min_address data) ;;
    if negb ok then ret seen
    else
      let card_text := Parsing.c_text c in
      if text_filtered lim card_text then ret seen
      else if negb (snd (_extract_status data card_text)) then ret seen
      else dedupe_emit data (set data "_card_text" (PStr card_text)) url seen.

(** The card loop of [_collect_http_only]; a card whose parsing raises is
    skipped. *)
Definition http_dom_step (url : string) (c : Parsing.card) (seen : list key)
  : M (list key) :=
  match Parsing.parse_card urljoin c with
  | Raise _ => ret seen
  | Ok data =>
      data <- enrich url data ;;
      http_dom_gates url c data seen
  end.

(** The card loop on the HTTP-fetched markup inside the browser path. *)
Definition fallback_dom_step (url : string) (c : Parsing.card) (seen : list key)
  : M (list key) :=
  match Parsing.parse_card urljoin c with
  | Raise _ => ret seen
  | Ok data =>
      data <- enrich url data ;;
      low <- lift (below_mins lim data) ;;
      if low then ret seen
      else
        let card_text := Parsing.c_text c in
        if text_filtered lim card_text then ret seen
        else if negb (snd (_extract_status data card_text)) then ret seen
        else dedupe_emit data (set data "_card_text" (PStr card_text)) url seen
  end.

Definition next_absolute (href : string) : string :=
  if startswith href "/" then "https://www.estately.com" ++ href else href.

(** *** [_collect_http_only] *)

(** Runs on its own result lists (the state it is started in) and returns
    the next URL. *)
Definition _collect_http_only (url : string) : M (option string) :=
  emit (EvHttpCanonical url) ;;
  let url := w_canonical w url in
  emit (EvHttpFetch url) ;;
  match w_fetch w url with
  | None => ret None
  | Some html =>
      let inline_harvest := _mine_inline_scripts (h_scripts html) in
      for_each (http_inline_step url) inline_harvest [] ;;
      catch (for_each (http_dom_step url) (h_cards html) [] ;; ret tt) (ret tt) ;;
      ret (option_map next_absolute (h_next html))
  end.

(** The call from [collect_estately]: the page's lists are appended to the
    caller's. *)
Definition call_collect_http_only (url : string) : M (option string) :=
  fun s =>
    let '(s', r) := _collect_http_only url
                      {| results := []; mongo_docs := [];
                         net_bucket := net_bucket s; trace := trace s |} in
    match r with
    | Ok next =>
        ({| results := (results s ++ results s')%list;
            mongo_docs := (mongo_docs s ++ mongo_docs s')%list;
            net_bucket := net_bucket s'; trace := trace s' |}, Ok next)
    | Raise e =>
        ({| results := results s; mongo_docs := mongo_docs s;
            net_bucket := net_bucket s'; trace := trace s' |}, Raise e)
    end.

(** The bulk upsert, attempted when the store is there and some document
    has a [fullAddress_ci]. *)
Definition persist (cfg : config) : M unit :=
  s <- get_run ;;
  if mongo_available cfg
     && existsb (fun d => truthy (get d "fullAddress_ci")) (mongo_docs s)
  then emit EvPersist else ret tt.

Fixpoint http_only_pages (n : nat) (url : string) : M unit :=
  match n with
  | O => ret tt
  | S k =>
      next <- call_collect_http_only url ;;
      match next with
      | Some next_url =>
          if non_empty next_url then http_only_pages k next_url else ret tt
      | None => ret tt
      end
  end.

(** *** The browser path *)

(** [l[-n:]] *)
Definition lastn {A} (n : nat) (l : list A) : list A :=
  List.skipn (List.length l - n) l.

(** The rows harvested from the buffered responses: the targeted parser
    first, the JSON walker when it finds nothing. *)
Definition harvest_step (b : blob) (harvested : list dict) : result (list dict) :=
  bind (_extract_estately_map_properties (b_url b) (b_json b)) (fun h1 =>
  match h1 with
  | _ :: _ => Ok (harvested ++ h1)%list
  | [] =>
      bind (_extract_listings_from_json_blob (b_walk b)) (fun h2 =>
      Ok (harvested ++ h2)%list)
  end).

Definition harvest_net (bucket : list blob) : result (list dict) :=
  fold_result harvest_step bucket [].

(** How one turn of the page loop ends. *)
Inductive control : Type :=
| CtlNext (url : string) (seen : list key)   (* go on with the next page *)
| CtlBreak (seen : list key)                 (* [break] *)
| CtlReturn.                                 (* [return results] *)

Definition is_nil {A} (l : list A) : bool :=
  match l with [] => true | _ => false end.

(** The part of a turn after a failed [page.goto]. *)
Definition nav_failure (cfg : config) (url : string) : M control :=
  emit (EvHttpFetch url) ;;
  match w_fetch w url with
  | None => lift (Raise HTTPError)
  | Some html =>
      let inline_harvest := _mine_inline_scripts (h_scripts html) in
      for_each (nav_fallback_step url) inline_harvest [] ;;
      persist cfg ;;
      ret CtlReturn
  end.

(** The end of a turn: the card loop and the search for the next page. *)
Definition dom_and_advance (p : rendered) (url : string) (seen : list key)
  : M control :=
  emit EvContent ;;
  let cards := h_cards (p_html p) in
  seen <- for_each (dom_step url) cards seen ;;
  emit EvGetAttribute ;;
  let next_href :=
    match p_next_attr p with
    | Some h => if non_empty h then Some h else h_next (p_html p)
    | None => h_next (p_html p)
    end in
  match next_href with
  | Some h => if non_empty h then ret (CtlNext (next_absolute h) seen)
              else ret (CtlBreak seen)
  | None => ret (CtlBreak seen)
  end.

(** The inline harvest and the guarded card loop, run when the page gave no
    card and nothing has been collected yet. *)
Definition inline_and_fallback (p : rendered) (url : string) (seen : list key)
  : M (list key) :=
  s <- get_run ;;
  if is_nil (h_cards (p_html p)) && is_nil (results s) then
    seen <- for_each (inline_step url)
                     (_mine_inline_scripts (h_scripts (p_html p))) seen ;;
    catch (for_each (fallback_dom_step url) (h_cards (p_html p)) [] ;; ret tt)
          (ret tt) ;;
    ret seen
  else ret seen.

(** The part of a turn after a successful [page.goto]. *)
Definition rendered_turn (p : rendered) (url : string) (seen : list key)
  : M control :=
  push_net (p_net p) ;;
  emit EvDismissBanners ;;
  emit EvPrimeResults ;;
  emit EvWait ;;
  emit EvWaitForListings ;;
  emit EvScroll ;;
  emit EvWait ;;
  emit EvContent ;;
  s <- get_run ;;
  if is_nil (h_cards (p_html p)) && negb (is_nil (net_bucket s)) then
    harvested <- lift (harvest_net (lastn 20 (net_bucket s))) ;;
    if negb (is_nil harvested) then
      seen <- for_each (net_step url) harvested seen ;;
      s <- get_run ;;
      if negb (is_nil (results s)) then
        emit EvContent ;;
        match h_next (p_html p) with
        | Some h => if non_empty h then ret (CtlNext (next_absolute h) seen)
                    else ret (CtlBreak seen)
        | None => ret (CtlBreak seen)
        end
      else
        seen <- inline_and_fallback p url seen ;;
        dom_and_advance p url seen
    else
      seen <- inline_and_fallback p url seen ;;
      dom_and_advance p url seen
  else
    seen <- inline_and_fallback p url seen ;;
    dom_and_advance p url seen.

(** One turn of the page loop. *)
Definition page_turn (cfg : config) (idx : nat) (url : string) (seen : list key)
  : M control :=
  match w_goto w idx url with
  | NavFailed => emit (EvGoto url false) ;; nav_failure cfg url
  | NavOk p => emit (EvGoto url true) ;; rendered_turn p url seen
  end.

(** [for page_idx in range(max_pages)], with [n] turns left from turn
    [idx]: the URL and the keys seen when the loop ends, [None] when a turn
    returned from the function. *)
Fixpoint page_loop (cfg : config) (n idx : nat) (url : string) (seen : list key)
  : M (option (string * list key)) :=
  match n with
  | O => ret (Some (url, seen))
  | S k =>
      c <- page_turn cfg idx url seen ;;
      match c with
      | CtlNext url' seen' => page_loop cfg k (S idx) url' seen'
      | CtlBreak seen' => ret (Some (url, seen'))
      | CtlReturn => ret None
      end
  end.

(** The harvest of the network bucket made when the pages gave nothing. *)
Definition final_fallback (url : string) (seen : list key) : M unit :=
  s <- get_run ;;
  if is_nil (results s)
     && (negb (is_nil (net_bucket s)) || negb (is_nil (mongo_docs s)))
  then
    harvested <- lift (harvest_net (lastn 40 (net_bucket s))) ;;
    for_each (inline_step url) harvested seen ;;
    ret tt
  else ret tt.

(** [try: m finally: f] *)
Definition finally {A} (m : M A) (f : M unit) : M A :=
  fun s => let '(s', r) := m s in (fst (f s'), r).

Definition current_results : M (list PropertyCard) :=
  s <- get_run ;; ret (results s).

(** *** [collect_estately] *)

Definition search_url (market : string) : result string :=
  Filters.build_search_url market
    {| Filters.min_price := min_price lim;
       Filters.max_price := None;
       Filters.min_beds := min_beds lim;
       Filters.min_sqft := min_sqft lim;
       Filters.no_hoa := require_no_hoa lim;
       Filters.distressed := require_distressed lim;
       Filters.property_type := "house";
       Filters.sort := "newest" |}.

Definition collect_estately (cfg : config) (market : string) (max_pages : nat)
  : M (list PropertyCard) :=
  url <- lift (search_url market) ;;
  if negb (playwright_available cfg) then
    http_only_pages max_pages url ;;
    persist cfg ;;
    current_results
  else
    emit EvLaunch ;;
    finally
      (emit EvNewPage ;;
       emit EvHook ;;
       r <- page_loop cfg max_pages 0 url [] ;;
       match r with
       | None => current_results
       | Some (url', seen) =>
           final_fallback url' seen ;;
           persist cfg ;;
           current_results
       end)
      (emit EvClose).

End Loops.

(** A run from the empty state: the calls made, and what is returned. *)
Definition run_collect (urljoin : string -> string -> string) (w : world)
  (lim : limits) (cfg : config) (market : string) (max_pages : nat)
  : list event * result (list PropertyCard) :=
  let '(s, r) := collect_estately urljoin w lim cfg market max_pages empty_run in
  (trace s, r).

End Scraper.

(* ===================================================================== *)
(** ** The fetch ladder, read on the calls made                           *)
(* ===================================================================== *)

Module Ladder.
Import Scraper.

(** The calls on the browser-automation collaborator: launching, opening a
    page, hooking the responses, navigating, waiting, scrolling, clicking
    and reading the page.  Closing the browser when the run ends is not one
    of them. *)
Definition browser_call (e : event) : bool :=
  match e with
  | EvLaunch | EvNewPage | EvHook | EvGoto _ _ | EvDismissBanners
  | EvPrimeResults | EvWait | EvWaitForListings | EvScroll | EvContent
  | EvGetAttribute => true
  | EvClose | EvHttpCanonical _ | EvHttpFetch _ | EvPersist => false
  end.

(** Calls that are not made on the browser. *)
Definition off_browser (e : event) : bool := negb (browser_call e).

(** Calls other than a navigation that failed. *)
Definition calm (e : event) : bool :=
  match e with
  | EvGoto _ false => false
  | _ => true
  end.

(** Read from its start, the sequence of calls has, right after its first
    failed navigation, the HTTP fetch of the same URL, and no browser call
    from there on. *)
Fixpoint deescalated (tr : list event) : Prop :=
  match tr with
  | [] => True
  | EvGoto u false :: rest =>
      exists rest' : list event,
        rest = (EvHttpFetch u :: rest')%list /\
        Forall (fun e => browser_call e = false) rest'
  | _ :: rest => deescalated rest
  end.

(** Whatever calls off the browser follow, the calls made so far keep the
    ladder de-escalated. *)
Definition settled (ev : list event) : Prop :=
  forall tail, Forall (fun e => off_browser e = true) tail ->
               deescalated (ev ++ tail).

(** The computation only adds calls that satisfy [P]. *)
Definition adds {A} (P : event -> bool) (m : M A) : Prop :=
  forall s, exists ev,
    trace (fst (m s)) = (trace s ++ ev)%list /\ Forall (fun e => P e = true) ev.

(** A predicate that admits the HTTP calls and the upsert. *)
Definition admits_http (P : event -> bool) : Prop :=
  (forall u, P (EvHttpFetch u) = true) /\
  (forall u, P (EvHttpCanonical u) = true) /\
  P EvPersist = true.

End Ladder.

(* ===================================================================== *)
(** ** Concrete inputs                                                    *)
(* ===================================================================== *)

Module Inputs.
Import Py.
Import Scraper.

Definition search_page : string := "https://www.estately.com/az/phoenix".

(** The default thresholds of [collect_estately]. *)
Definition default_limits : limits :=
  {| min_price := 600000; min_beds := 3; min_sqft := 1000;
     require_distressed := false; require_no_hoa := false |}.

(** No threshold at all. *)
Definition no_limits : limits :=
  {| min_price := 0; min_beds := 0; min_sqft := 0;
     require_distressed := false; require_no_hoa := false |}.

Definition http_only : config :=
  {| playwright_available := false; mongo_available := false |}.

Definition with_browser : config :=
  {| playwright_available := true; mongo_available := false |}.

(** A resolver for the runs below: a rooted path is put on the site's
    origin, any other reference is kept. *)
Definition join_rooted (base href : string) : string :=
  if startswith href "/" then "https://www.estately.com" ++ href else href.

Definition blank_card : Parsing.card :=
  {| Parsing.c_address := None; Parsing.c_city := None;
     Parsing.c_state := None; Parsing.c_zip := None;
     Parsing.c_price_txt := None; Parsing.c_beds := None;
     Parsing.c_baths := None; Parsing.c_sqft := Ok None;
     Parsing.c_href := None; Parsing.c_jsonld := None;
     Parsing.c_text := "" |}.

(** A card with an address, three beds, 1200 sqft and a link, whose price
    could not be read. *)
Definition card_unknown_price : Parsing.card :=
  {| Parsing.c_address := Some "12 Elm St"; Parsing.c_city := None;
     Parsing.c_state := None; Parsing.c_zip := None;
     Parsing.c_price_txt := None; Parsing.c_beds := Some (Dec 3 0);
     Parsing.c_baths := None; Parsing.c_sqft := Ok (Some (Dec 1200 0));
     Parsing.c_href := Some "https://www.estately.com/listings/12";
     Parsing.c_jsonld := None;
     Parsing.c_text := "12 Elm St 3 beds 1,200 sqft" |}.

Definition row_unknown_price : dict :=
  [ ("address", PStr "12 Elm St"); ("city", PNone); ("state", PNone);
    ("zip", PNone); ("price", PNone); ("beds", PFloat (Dec 3 0));
    ("baths", PNone); ("sqft", PFloat (Dec 1200 0));
    ("href", PStr "https://www.estately.com/listings/12") ].

(** The markup says three beds, the structured data says four rooms and
    gives the floor size the markup lacks. *)
Definition card_beds_3_ld_4 : Parsing.card :=
  {| Parsing.c_address := Some "456 Oak Ave"; Parsing.c_city := None;
     Parsing.c_state := None; Parsing.c_zip := None;
     Parsing.c_price_txt := Some "$700,000"; Parsing.c_beds := Some (Dec 3 0);
     Parsing.c_baths := None; Parsing.c_sqft := Ok None;
     Parsing.c_href := Some "https://www.estately.com/listings/456";
     Parsing.c_jsonld :=
       Some (PDict [ ("@type", PStr "House");
                     ("address", PDict [("streetAddress", PStr "456 Oak Ave")]);
                     ("numberOfRooms", PInt 4);
                     ("floorSize", PDict [("value", PStr "1,200")]) ]);
     Parsing.c_text := "456 Oak Ave $700,000 3 beds" |}.

Definition numeric_fields : list string := ["price"; "beds"; "baths"; "sqft"].

(** A JSON node with a dollar price and a cents key of the same value. *)
Definition node_price_and_cents : dict :=
  [("price", PInt 650000); ("priceCents", PInt 650000)].

(** A candidate with a textual status and a boolean one. *)
Definition row_sold_and_active : dict :=
  [("status", PStr "sold"); ("isActive", PBool true)].

(** A card whose structured data gives the address as one text. *)
Definition card_ld_text_address : Parsing.card :=
  {| Parsing.c_address := Some "123 Main St"; Parsing.c_city := None;
     Parsing.c_state := None; Parsing.c_zip := None;
     Parsing.c_price_txt := Some "$650,000"; Parsing.c_beds := Some (Dec 3 0);
     Parsing.c_baths := None; Parsing.c_sqft := Ok (Some (Dec 1200 0));
     Parsing.c_href := Some "https://www.estately.com/listings/123";
     Parsing.c_jsonld :=
       Some (PDict [ ("@type", PStr "House");
                     ("address", PStr "123 Main St, Phoenix, AZ 85001") ]);
     Parsing.c_text := "123 Main St $650,000 3 beds 1,200 sqft" |}.

(** A JSON node whose [address] is a number. *)
Definition json_numeric_address : value :=
  PDict [("address", PInt 5); ("price", PInt 650000)].

(** A [/map/properties] item whose [address] is a text. *)
Definition json_map_text_address : value :=
  PList [PDict [("address", PStr "123 Main St"); ("price", PInt 650000)]].

(** The same listing as inline JSON and as a card. *)
Definition json_main_st : value :=
  PDict [ ("address", PDict [ ("streetAddress", PStr "1 Main St");
                              ("city", PStr "Phoenix"); ("state", PStr "AZ") ]);
          ("listPrice", PInt 700000) ].

Definition card_main_st : Parsing.card :=
  {| Parsing.c_address := Some "1 Main St"; Parsing.c_city := None;
     Parsing.c_state := None; Parsing.c_zip := None;
     Parsing.c_price_txt := Some "$700,000"; Parsing.c_beds := Some (Dec 3 0);
     Parsing.c_baths := None; Parsing.c_sqft := Ok (Some (Dec 1200 0));
     Parsing.c_href := None; Parsing.c_jsonld := None;
     Parsing.c_text := "1 Main St $700,000 3 beds 1,200 sqft" |}.

Definition page_main_st : html_doc :=
  {| h_scripts := [Some json_main_st]; h_cards := [card_main_st];
     h_next := None |}.

(** The site without a working browser navigation: every fetch gives the
    page above. *)
Definition world_main_st : world :=
  {| w_fetch := fun _ => Some page_main_st;
     w_canonical := fun u => u;
     w_goto := fun _ _ => NavFailed |}.

(** A site whose every page has the listing as inline JSON only, and a link
    to a next page. *)
Definition page_main_st_next : html_doc :=
  {| h_scripts := [Some json_main_st]; h_cards := [];
     h_next := Some "/az/phoenix?page=2" |}.

Definition world_main_st_next : world :=
  {| w_fetch := fun _ => Some page_main_st_next;
     w_canonical := fun u => u;
     w_goto := fun _ _ => NavFailed |}.

(** A JSON node with a city and a state, and no street address. *)
Definition json_city_only : value :=
  PDict [("city", PStr "Phoenix"); ("state", PStr "AZ"); ("price", PInt 700000)].

Definition row_city_only : dict :=
  [ ("address", PStr ""); ("city", PStr "Phoenix"); ("state", PStr "AZ");
    ("zip", PNone); ("price", PFloat (Dec 700000 0)); ("beds", PNone);
    ("baths", PNone); ("sqft", PNone); ("href", PNone) ].

End Inputs.

(* ===================================================================== *)
(** ** The JSON text of an inline script                                  *)
(* ===================================================================== *)

Module Inline.
Import Py.

Definition is_open (ch : ascii) : bool := Ascii.eqb ch "{" || Ascii.eqb ch "[".
Definition is_close (ch : ascii) : bool := Ascii.eqb ch "}" || Ascii.eqb ch "]".

(** The loop of [_mine_inline_scripts] over the characters of the
    candidate, from index [i] on with the stack as it stands: the index at
    which the loop breaks, if it does. *)
Fixpoint end_brace (candidate : string) (stack : list ascii) (i : nat)
    : option nat :=
  match candidate with
  | EmptyString => None
  | String ch rest =>
      if is_open ch then end_brace rest (ch :: stack) (S i)
      else if is_close ch then
        let stack := match stack with _ :: below => below | [] => [] end in
        match stack with
        | [] => Some i
        | _ :: _ => end_brace rest stack (S i)
        end
      else end_brace rest stack (S i)
  end.

(** [txt[txt.find("{"):]] for a text that has a brace. *)
Definition from_first_brace (txt : string) : string :=
  sdrop_while (fun c => negb (Ascii.eqb c "{")) txt.

(** The text handed to [json.loads]; [None] when the script is skipped
    for having no brace. *)
Definition json_candidate (txt : string) : option string :=
  if negb (contains "{" txt) then None
  else
    let candidate := from_first_brace txt in
    match end_brace candidate [] 0 with
    | Some e => Some (substring 0 (e + 1) candidate)
    | None => Some candidate
    end.

End Inline.

(* ===================================================================== *)
(** ** Notions used to state the properties                               *)
(* ===================================================================== *)

Module Notions.
Import Py.

(** The characters of a text. *)
Definition chars (s : string) : list ascii := list_ascii_of_string s.

(** The number of occurrences of a character in a text. *)
Definition occurrences (c : ascii) (s : string) : nat :=
  count_occ ascii_dec (chars s) c.

(** The characters [quote_plus] can produce: letters, digits, [_.-~], the
    plus sign and the percent sign. *)
Definition url_safe (c : ascii) : bool :=
  is_alnum c || existsb (Ascii.eqb c) ["_"; "."; "-"; "~"; "+"; "%"]%char.

(** A character of a slug: not white space, and not an upper-case letter. *)
Definition slug_char (c : ascii) : bool :=
  negb (is_space c) && Ascii.eqb (lower_ascii c) c.

(** A token whose first and last characters are not white space. *)
Definition solid_ends (tok : string) : bool :=
  match tok with String c _ => negb (is_space c) | EmptyString => false end &&
  match srev tok with String c _ => negb (is_space c) | EmptyString => false end.

Definition is_text (v : value) : bool :=
  match v with PStr _ => true | _ => false end.

Definition text_or_none (v : value) : bool :=
  match v with PNone | PStr _ => true | _ => false end.

Definition is_float (v : value) : bool :=
  match v with PFloat _ => true | _ => false end.

Definition float_or_none (v : value) : bool :=
  match v with PNone | PFloat _ => true | _ => false end.

Definition integer_or_none (v : value) : bool :=
  match v with PNone | PInt _ => true | _ => false end.

(** The shape of a row harvested from JSON. *)
Definition harvested_row (d : dict) : bool :=
  is_text (get d "address") && text_or_none (get d "city")
  && text_or_none (get d "state") && text_or_none (get d "zip")
  && is_float (get d "price") && float_or_none (get d "beds")
  && float_or_none (get d "baths") && integer_or_none (get d "sqft")
  && text_or_none (get d "href") && is_none (get d "_card_text").

(** [float(v)] for a number that [float] represents exactly: a boolean, a
    float, or an integer of magnitude at most 2^53.  (Beyond, [float]
    rounds the integer, and raises [OverflowError] past the largest
    float.) *)
Definition exact_float (v : value) : option dec :=
  match v with
  | PInt z => if Z.abs z <=? 2 ^ 53 then Some (dec_of_Z z) else None
  | _ => num_of v
  end.

(** A value that is not an integer beyond 2^53. *)
Definition in_float_range (v : value) : bool :=
  match v with
  | PInt z => Z.abs z <=? 2 ^ 53
  | _ => true
  end.

(** The floor size a structured-data block gives: the value of
    [floorSize], or of its [value] entry when it is an object. *)
Definition ld_sqft (ld : dict) : value :=
  let fs := get ld "floorSize" in
  match Parsing._qv_value fs, fs with
  | Some v, _ => PFloat v
  | None, PDict fsd => Parsing.of_num (Parsing._qv_value (get fsd "value"))
  | None, _ => PNone
  end.

(** The price a structured-data block gives: the [price] of its offer (the
    first one of a list), else its own [price]. *)
Definition ld_price (ld : dict) : value :=
  let p := match get ld "offers" with
           | PDict o => get o "price"
           | PList (PDict o :: _) => get o "price"
           | _ => PNone
           end in
  if is_none p then get ld "price" else p.

(** The calls that need no browser: the two HTTP calls and the upsert. *)
Definition http_call (e : Scraper.event) : bool :=
  match e with
  | Scraper.EvHttpCanonical _ | Scraper.EvHttpFetch _ | Scraper.EvPersist => true
  | _ => false
  end.

(** The calls made between the launch of the browser and its closing. *)
Definition session_call (e : Scraper.event) : bool :=
  match e with
  | Scraper.EvLaunch | Scraper.EvClose => false
  | _ => true
  end.

Definition is_goto (e : Scraper.event) : bool :=
  match e with Scraper.EvGoto _ _ => true | _ => false end.

(** The number of navigations in a sequence of calls. *)
Definition navigations (tr : list Scraper.event) : nat :=
  List.length (List.filter is_goto tr).

(** The calls other than a navigation. *)
Definition not_goto (e : Scraper.event) : bool := negb (is_goto e).

(** The computation makes at most [k] navigations. *)
Definition navs_le {A} (k : nat) (m : Scraper.M A) : Prop :=
  forall s, (navigations (Scraper.trace (fst (m s)))
             <= navigations (Scraper.trace s) + k)%nat.

(** A predicate that admits the calls made on a rendered page. *)
Definition admits_page (P : Scraper.event -> bool) : Prop :=
  P Scraper.EvDismissBanners = true /\ P Scraper.EvPrimeResults = true /\
  P Scraper.EvWait = true /\ P Scraper.EvWaitForListings = true /\
  P Scraper.EvScroll = true /\ P Scraper.EvContent = true /\
  P Scraper.EvGetAttribute = true.

(** The identity key of a card, as the loops compute it for a row. *)
Definition card_key (c : Scraper.PropertyCard) : Scraper.key :=
  (Scraper.address c, por (Scraper.listing_price c) (PInt 0)).

(** Each key of the list is found neither in [seen] nor among the keys
    before it, by the membership test of the loops. *)
Fixpoint fresh_keys (seen : list Scraper.key) (ks : list Scraper.key) : Prop :=
  match ks with
  | [] => True
  | k :: r => existsb (Scraper.key_eqb k) seen = false /\ fresh_keys (k :: seen) r
  end.

(** The key set that a value returned by a step carries, if any. *)
Definition ctl_seen (c : Scraper.control) : option (list Scraper.key) :=
  match c with
  | Scraper.CtlNext _ seen | Scraper.CtlBreak seen => Some seen
  | Scraper.CtlReturn => None
  end.

(** The computation appends cards with fresh keys, and the key set it
    returns is [seen] with these keys added. *)
Definition tracks {A} (proj : A -> option (list Scraper.key))
  (seen : list Scraper.key) (m : Scraper.M A) : Prop :=
  forall s, exists new,
    Scraper.results (fst (m s)) = (Scraper.results s ++ new)%list /\
    fresh_keys seen (List.map card_key new) /\
    forall a seen', snd (m s) = Ok a -> proj a = Some seen' ->
                    seen' = (rev (List.map card_key new) ++ seen)%list.

(** The list returned is the list of cards collected. *)
Definition returns_results (m : Scraper.M (list Scraper.PropertyCard)) : Prop :=
  forall s cards, snd (m s) = Ok cards -> cards = Scraper.results (fst (m s)).

(** The computation appends no card. *)
Definition quiet {A} (m : Scraper.M A) : Prop :=
  forall s, Scraper.results (fst (m s)) = Scraper.results s.

(** A field of the query that [build_search_url] adds on demand. *)
Definition optional_field (f : string) : Prop :=
  exists k, In k ["max_price"; "hoa"; "keywords"] /\
            String.prefix (k ++ "=") f = true.

(** One [key=value] pair of a query string, as [urlencode] writes it. *)
Definition query_piece (kv : string * value) : string :=
  Filters.quote_plus (fst kv) ++ "=" ++ Filters.quote_plus (str (snd kv)).

(** The number of opening, and of closing, braces and brackets of a text. *)
Definition opens (s : string) : nat :=
  List.length (List.filter Inline.is_open (chars s)).

Definition closes (s : string) : nat :=
  List.length (List.filter Inline.is_close (chars s)).

End Notions.

(* ===================================================================== *)
(** ** backend/estately/parsing.py: the number helper                     *)
(* ===================================================================== *)

Module Numbers.
Import Py.

(** [_first_number]: [_num_any] is the pattern of [_first_price] without the
    suffix group, so its group 1 is the first component of [price_search].
    The search is made outside the [try]: a truthy value that is not text
    raises [TypeError]. *)
Definition _first_number (s : value) : result (option dec) :=
  if negb (truthy s) then Ok None
  else
    match s with
    | PStr t =>
        match Parsing.price_search t with
        | None => Ok None
        | Some (g1, _) => Ok (py_float (remove_char "," g1))
        end
    | _ => Raise TypeError
    end.

End Numbers.

(* ===================================================================== *)
(** ** urllib.parse: reading a URL back                                   *)
(* ===================================================================== *)

Module Urllib.
Import Py.
Import Notions.

(** [urllib.parse.urlsplit(url).query], for a URL whose scheme and host
    have neither [?] nor [#] and which has no tab, CR or LF (the library
    removes these first): the fragment starts at the first [#], and the
    query is what follows the first [?] of what is before it. *)
Definition not_char (c : ascii) (x : ascii) : bool := negb (Ascii.eqb x c).

Definition url_query (url : string) : string :=
  match sdrop_while (not_char "?") (stake_while (not_char "#") url) with
  | String _ q => q
  | EmptyString => EmptyString
  end.

(** A text without [?] and without [#]. *)
Definition plain_path (s : string) : bool :=
  forallb (fun c => not_char "?" c && not_char "#" c) (chars s).
End Urllib.

(* ===================================================================== *)
(** ** backend/estately/scrape_all.py                                     *)
(* ===================================================================== *)

Module ScrapeAll.
Import Py.

(** The settings the module reads from the environment when it is loaded. *)
Record config : Type := {
  CITIES_CSV : string;
  MIN_POPULATION : Z;
  STATES_WHITELIST : option string   (* [os.getenv("SCRAPE_STATES")] *)
}.

Definition FALLBACK_LOCATIONS : list (string * string) :=
  [ ("Phoenix", "AZ"); ("Tucson", "AZ"); ("Los Angeles", "CA");
    ("San Diego", "CA"); ("Denver", "CO") ].

Definition US_STATE_ABBRS : list string :=
  [ "AL"; "AK"; "AZ"; "AR"; "CA"; "CO"; "CT"; "DE"; "FL"; "GA";
    "HI"; "ID"; "IL"; "IN"; "IA"; "KS"; "KY"; "LA"; "ME"; "MD";
    "MA"; "MI"; "MN"; "MS"; "MO"; "MT"; "NE"; "NV"; "NH"; "NJ";
    "NM"; "NY"; "NC"; "ND"; "OH"; "OK"; "OR"; "PA"; "RI"; "SC";
    "SD"; "TN"; "TX"; "UT"; "VT"; "VA"; "WA"; "WV"; "WI"; "WY" ].

(** [x in l] for a set or list of texts. *)
Definition mem (x : string) (l : list string) : bool := existsb (String.eqb x) l.

(** [s.replace(a, b)] for one-character [a] and [b]. *)
Definition replace_char (a b : ascii) (s : string) : string :=
  smap (fun c => if Ascii.eqb c a then b else c) s.

Definition _normalize_header (h : string) : string :=
  replace_char " " "_" (lower (strip h)).

(** What [csv.DictReader] gives for a file: the field names of its first
    line, and for each further line a dict from field names to cells, with
    [None] for a cell the line does not have. *)
Definition row : Type := list (string * option string).

Record csv_file : Type := {
  fieldnames : list string;
  rows : list row
}.

(** [row.get(k)] *)
Fixpoint row_get (r : row) (k : string) : option string :=
  match r with
  | [] => None
  | (k', v) :: t => if String.eqb k k' then v else row_get t k
  end.

(** [a or b] where [a] is a text or [None]. *)
Definition text_or (a : option string) (b : string) : string :=
  match a with
  | Some s => if non_empty s then s else b
  | None => b
  end.

Definition key_or (a b : option string) : option string :=
  match a with
  | Some s => if non_empty s then a else b
  | None => b
  end.

(** [not k] for a key that is a text or [None]. *)
Definition no_key (k : option string) : bool :=
  match k with
  | Some s => negb (non_empty s)
  | None => true
  end.

(** [d[k] = v] on a dict from texts to texts. *)
Fixpoint put (d : list (string * string)) (k v : string) : list (string * string) :=
  match d with
  | [] => [(k, v)]
  | (k', v') :: t =>
      if String.eqb k k' then (k', v) :: t else (k', v') :: put t k v
  end.

(** [{_normalize_header(k): k for k in fieldnames}] *)
Definition field_map (names : list string) : list (string * string) :=
  fold_left (fun d k => put d (_normalize_header k) k) names [].

(** What iterating a text gives: its characters, each a text. *)
Definition letters (t : string) : list string :=
  List.map (fun c => String c EmptyString) (list_ascii_of_string t).

(** [int(s)] for a text [s]; [None] stands for [ValueError], which is also
    what a text of more than 4300 digits gives. *)
Definition max_str_digits : nat := 4300.

Definition py_int (s : string) : option Z :=
  let '(sg, body) := read_sign (strip s) in
  let '(ds, rest) := digitpart body in
  if non_empty ds && negb (non_empty rest)
     && (String.length ds <=? max_str_digits)%nat
  then Some (sg * Z_of_digits ds) else None.

(** The set [wl] of line 63. *)
Definition whitelist_set (states_whitelist : list string) : list string :=
  List.map (fun s => upper (strip s))
    (List.filter (fun s => non_empty (strip s))
       (split_on "," (join "," states_whitelist))).

(** One turn of the loop over the rows: the pair appended to [results], or
    [None] when the row is skipped. *)
Definition row_location (city_key state_key : string) (pop_key : option string)
    (wl : option (list string)) (min_population : Z) (r : row)
    : option (string * string) :=
  let city := strip (text_or (row_get r city_key) "") in
  let state := upper (strip (text_or (row_get r state_key) "")) in
  if negb (non_empty city) || negb (mem state US_STATE_ABBRS) then None
  else if match wl with
          | Some (x :: w) => negb (mem state (x :: w))
          | _ => false
          end then None
  else
    match pop_key with
    | Some pk =>
        let pop_val :=
          match py_int (remove_char "," (text_or (row_get r pk) "0")) with
          | Some z => z
          | None => 0
          end in
        if pop_val <? min_population then None else Some (city, state)
    | None => Some (city, state)
    end.

Definition pair_eqb (a b : string * string) : bool :=
  String.eqb (fst a) (fst b) && String.eqb (snd a) (snd b).

(** One turn of the loop that removes duplicates, on [(seen, deduped)]. *)
Definition dedupe_step (st : list (string * string) * list (string * string))
    (p : string * string) : list (string * string) * list (string * string) :=
  if existsb (pair_eqb p) (fst st) then st
  else (p :: fst st, (snd st ++ [p])%list).

Definition dedupe (results : list (string * string)) : list (string * string) :=
  snd (fold_left dedupe_step results ([], [])).

(** [disk path] is the file at [path], when there is one. *)
Definition load_locations_from_csv (disk : string -> option csv_file)
    (path : string) (states_whitelist : option (list string))
    (min_population : Z) : result (list (string * string)) :=
  match disk path with
  | None => Ok []
  | Some f =>
      let wl :=
        match states_whitelist with
        | Some (x :: l) => Some (whitelist_set (x :: l))
        | _ => None
        end in
      let fm := field_map (fieldnames f) in
      let city_key := Filters.assoc "city" fm in
      let state_key := key_or (Filters.assoc "state_id" fm) (Filters.assoc "state" fm) in
      let pop_key := Filters.assoc "population" fm in
      match city_key, state_key with
      | Some ck, Some sk =>
          if no_key city_key || no_key state_key then Raise RuntimeError
          else
            Ok (dedupe
                  (flat_map
                     (fun r =>
                        match row_location ck sk pop_key wl min_population r with
                        | Some p => [p]
                        | None => []
                        end)
                     (rows f)))
      | _, _ => Raise RuntimeError
      end
  end.

(** [STATES_WHITELIST], a text, is passed where an iterable of texts is
    expected. *)
Definition iter_locations (cfg : config) (disk : string -> option csv_file)
    : result (list (string * string)) :=
  bind (load_locations_from_csv disk (CITIES_CSV cfg)
          (option_map letters (STATES_WHITELIST cfg)) (MIN_POPULATION cfg))
       (fun locs =>
          match locs with
          | _ :: _ => Ok locs
          | [] => Ok FALLBACK_LOCATIONS
          end).

(** The market text that [run_estately_scraper] passes to the scraper. *)
Definition location (city state : string) : string := city ++ ", " ++ state.

End ScrapeAll.

(* ===================================================================== *)
(** ** More concrete inputs                                               *)
(* ===================================================================== *)

Module Samples.
Import Py.
Import Scraper.

(** The default thresholds, with the distressed-only filter on. *)
Definition distressed_limits : limits :=
  {| min_price := 600000; min_beds := 3; min_sqft := 1000;
     require_distressed := true; require_no_hoa := false |}.

(** A buffered response whose body is the inline listing of
    [Inputs.json_main_st]. *)
Definition bucket_main_st : list blob :=
  [ {| b_url := "https://www.estately.com/api/listings";
       b_json := Some Inputs.json_main_st;
       b_walk := Some Inputs.json_main_st |} ].

(** A card whose markup gives a price and three beds, whose structured
    data gives four rooms, and which has no address anywhere. *)
Definition card_no_address : Parsing.card :=
  {| Parsing.c_address := None; Parsing.c_city := None;
     Parsing.c_state := None; Parsing.c_zip := None;
     Parsing.c_price_txt := Some "$700,000"; Parsing.c_beds := Some (Dec 3 0);
     Parsing.c_baths := None; Parsing.c_sqft := Ok None;
     Parsing.c_href := Some "https://www.estately.com/listings/700";
     Parsing.c_jsonld :=
       Some (PDict [("@type", PStr "House"); ("numberOfRooms", PInt 4)]);
     Parsing.c_text := "$700,000 3 beds" |}.

(** A card with an address and nothing else: no price, no link, no
    structured data. *)
Definition card_pine_rd : Parsing.card :=
  {| Parsing.c_address := Some "9 Pine Rd"; Parsing.c_city := None;
     Parsing.c_state := None; Parsing.c_zip := None;
     Parsing.c_price_txt := None; Parsing.c_beds := None;
     Parsing.c_baths := None; Parsing.c_sqft := Ok None;
     Parsing.c_href := None; Parsing.c_jsonld := None;
     Parsing.c_text := "9 Pine Rd" |}.

Definition page_pine_rd : html_doc :=
  {| h_scripts := []; h_cards := [card_pine_rd]; h_next := None |}.

Definition world_pine_rd : world :=
  {| w_fetch := fun _ => Some page_pine_rd;
     w_canonical := fun u => u;
     w_goto := fun _ _ => NavFailed |}.

(** An inline JSON node whose address is a blank. *)
Definition json_blank_address : value :=
  PDict [("address", PStr " "); ("price", PInt 700000)].

Definition page_blank_address : html_doc :=
  {| h_scripts := [Some json_blank_address]; h_cards := []; h_next := None |}.

Definition world_blank_address : world :=
  {| w_fetch := fun _ => Some page_blank_address;
     w_canonical := fun u => u;
     w_goto := fun _ _ => NavFailed |}.

(** A page that has its listing as a card only, on a site whose browser
    navigation fails. *)
Definition page_dom_only : html_doc :=
  {| h_scripts := []; h_cards := [Inputs.card_main_st]; h_next := None |}.

Definition world_dom_only : world :=
  {| w_fetch := fun _ => Some page_dom_only;
     w_canonical := fun u => u;
     w_goto := fun _ _ => NavFailed |}.

(** A site that answers neither the browser nor the HTTP client. *)
Definition world_offline : world :=
  {| w_fetch := fun _ => None;
     w_canonical := fun u => u;
     w_goto := fun _ _ => NavFailed |}.

(** The search URL of Phoenix under the default thresholds. *)
Definition phoenix_url : string :=
  "https://www.estately.com/az/phoenix?min_price=600000&min_beds=3&min_sqft=1000&property_type=house&status=active&sort=newest".

(** A site whose every page renders with the same listing in two cards
    and as inline JSON, and with a link to a next page. *)
Definition page_twice : html_doc :=
  {| h_scripts := [Some Inputs.json_main_st];
     h_cards := [Inputs.card_main_st; Inputs.card_main_st];
     h_next := Some "/az/phoenix?page=2" |}.

Definition world_twice : world :=
  {| w_fetch := fun _ => Some page_twice;
     w_canonical := fun u => u;
     w_goto := fun _ _ =>
       NavOk {| p_html := page_twice; p_net := []; p_next_attr := None |} |}.

(** A list of cities with a repeated city, a padded name, a territory, a
    small town and a city whose name has a comma. *)
Definition cities_csv : ScrapeAll.csv_file :=
  {| ScrapeAll.fieldnames := ["City"; "State ID"; "Population"];
     ScrapeAll.rows :=
       [ [("City", Some "Phoenix"); ("State ID", Some "az");
          ("Population", Some "1,626,078")];
         [("City", Some " Tucson "); ("State ID", Some "AZ");
          ("Population", Some "545975")];
         [("City", Some "Phoenix"); ("State ID", Some "AZ");
          ("Population", Some "1626078")];
         [("City", Some "San Juan"); ("State ID", Some "PR");
          ("Population", Some "320000")];
         [("City", Some "Tiny"); ("State ID", Some "CA");
          ("Population", Some "12")];
         [("City", Some "Winston, Salem"); ("State ID", Some "NC");
          ("Population", Some "250000")] ] |}.

Definition disk_cities (path : string) : option ScrapeAll.csv_file :=
  if String.eqb path "backend/data/us_cities.csv" then Some cities_csv else None.

(** The default settings. *)
Definition config_default : ScrapeAll.config :=
  {| ScrapeAll.CITIES_CSV := "backend/data/us_cities.csv";
     ScrapeAll.MIN_POPULATION := 20000;
     ScrapeAll.STATES_WHITELIST := None |}.

(** The default settings with [SCRAPE_STATES=AZ,CA]. *)
Definition config_az_ca : ScrapeAll.config :=
  {| ScrapeAll.CITIES_CSV := "backend/data/us_cities.csv";
     ScrapeAll.MIN_POPULATION := 20000;
     ScrapeAll.STATES_WHITELIST := Some "AZ,CA" |}.

End Samples.

(* ===================================================================== *)
(** ** Properties                                                         *)
(* ===================================================================== *)

Import Py.
Import Notions.

(** *** Dictionaries *)

Lemma get_set_same (d : dict) (k : string) (v : value) :
  get (set d k v) k = v.
Proof.
  unfold get. induction d as [|[k' v'] r IH]; simpl.
  - rewrite String.eqb_refl. reflexivity.
  - destruct (String.eqb k k') eqn:E; simpl; rewrite E; auto.
Qed.

Lemma get_set_other (d : dict) (k k' : string) (v : value) :
  String.eqb k' k = false -> get (set d k v) k' = get d k'.
Proof.
  intros N. unfold get. induction d as [|[k0 v0] r IH]; simpl.
  - rewrite N. reflexivity.
  - destruct (String.eqb k k0) eqn:E; simpl.
    + apply String.eqb_eq in E. subst k0. rewrite N. reflexivity.
    + destruct (String.eqb k' k0); auto.
Qed.

Lemma dec_eqb_refl (d : dec) : dec_eqb d d = true.
Proof. unfold dec_eqb, dec_align. apply Z.eqb_refl. Qed.

(** *** Text lemmas *)

Lemma prefix_app (p a b : string) :
  String.prefix p a = true -> String.prefix p (a ++ b) = true.
Proof.
  revert a. induction p as [|c p IH]; intros a H;
    [destruct (a ++ b); reflexivity|].
  destruct a as [|x a]; simpl in H; [discriminate|].
  simpl. destruct (ascii_dec c x); [auto|discriminate].
Qed.

Lemma contains_app_l (tok a b : string) :
  contains tok a = true -> contains tok (a ++ b) = true.
Proof.
  induction a as [|x a IH]; intros H.
  - simpl in H. rewrite orb_false_r in H.
    destruct tok; [destruct b; reflexivity | simpl in H; discriminate].
  - change (contains tok (String x a))
      with (String.prefix tok (String x a) || contains tok a) in H.
    change (contains tok (String x a ++ b))
      with (String.prefix tok (String x a ++ b) || contains tok (a ++ b)).
    apply orb_true_iff in H. apply orb_true_iff. destruct H as [H|H].
    + left. apply prefix_app. exact H.
    + right. apply IH. exact H.
Qed.

Lemma contains_cons (tok : string) (c : ascii) (s : string) :
  contains tok s = true -> contains tok (String c s) = true.
Proof.
  intros H.
  change (contains tok (String c s))
    with (String.prefix tok (String c s) || contains tok s).
  rewrite H. apply orb_true_r.
Qed.

Lemma contains_drop_while (p : ascii -> bool) (tok s : string) :
  contains tok (sdrop_while p s) = true -> contains tok s = true.
Proof.
  induction s as [|c s IH]; intros H; [exact H|].
  simpl in H. destruct (p c); [|exact H].
  apply contains_cons. apply IH. exact H.
Qed.

Lemma append_assoc (a b c : string) : (a ++ b) ++ c = a ++ (b ++ c).
Proof. induction a as [|x a IH]; simpl; [|rewrite IH]; reflexivity. Qed.

Lemma srev_onto_app (s acc : string) : srev_onto s acc = srev s ++ acc.
Proof.
  unfold srev. revert acc. induction s as [|c s IH]; intros acc; [reflexivity|].
  simpl. rewrite IH. rewrite (IH (String c EmptyString)).
  rewrite append_assoc. reflexivity.
Qed.

Lemma append_empty_r (s : string) : s ++ "" = s.
Proof. induction s as [|c s IH]; simpl; [|rewrite IH]; reflexivity. Qed.

Lemma srev_app (a b : string) : srev (a ++ b) = srev b ++ srev a.
Proof.
  induction a as [|c a IH]; simpl.
  - rewrite append_empty_r. reflexivity.
  - unfold srev. simpl. rewrite !(srev_onto_app _ (String c EmptyString)).
    fold (srev (a ++ b)). rewrite IH. fold (srev a).
    rewrite append_assoc. reflexivity.
Qed.

Lemma srev_involutive (s : string) : srev (srev s) = s.
Proof.
  induction s as [|c s IH]; [reflexivity|].
  unfold srev at 2. simpl. rewrite srev_onto_app, srev_app, IH. reflexivity.
Qed.

Lemma take_drop_while (p : ascii -> bool) (s : string) :
  stake_while p s ++ sdrop_while p s = s.
Proof.
  induction s as [|c s IH]; [reflexivity|].
  simpl. destruct (p c); simpl; [rewrite IH|]; reflexivity.
Qed.

(** [rstrip] keeps a prefix of the text. *)
Lemma rstrip_prefix (s : string) : exists b, s = rstrip s ++ b.
Proof.
  unfold rstrip. exists (srev (stake_while is_space (srev s))).
  rewrite <- srev_app, take_drop_while, srev_involutive. reflexivity.
Qed.

Lemma contains_strip (tok s : string) :
  contains tok (strip s) = true -> contains tok s = true.
Proof.
  unfold strip, lstrip. intros H.
  apply (contains_drop_while is_space).
  destruct (rstrip_prefix (sdrop_while is_space s)) as [b Hb].
  rewrite Hb. apply contains_app_l. exact H.
Qed.

Lemma any_in_strip (toks : list string) (s : string) :
  any_in toks s = false -> any_in toks (strip s) = false.
Proof.
  unfold any_in. intros H.
  destruct (existsb _ toks) eqn:E in |- *; [|reflexivity].
  apply existsb_exists in E. destruct E as [tok [Hin Hc]].
  apply contains_strip in Hc.
  assert (existsb (fun tok => contains tok s) toks = true) as H'
    by (apply existsb_exists; exists tok; split; assumption).
  rewrite H' in H. discriminate.
Qed.

(** *** Numeric coercion *)

Lemma coerce_float_number (x : value) (d : dec) :
  num_of x = Some d -> Scraper._coerce_float x = Some d.
Proof. destruct x; simpl; intros H; try discriminate; exact H. Qed.

Lemma passes_min_unknown (val : value) (minimum : Z) :
  Scraper._coerce_float val = None -> Scraper._passes_min val minimum = true.
Proof. unfold Scraper._passes_min. intros ->. reflexivity. Qed.

Lemma passes_mins_unknown (lim : Scraper.limits) (d : dict) :
  Scraper._coerce_float (get d "price") = None ->
  Scraper._coerce_float (get d "beds") = None ->
  Scraper._coerce_float (get d "sqft") = None ->
  Scraper.passes_mins lim d = true.
Proof.
  intros Hp Hb Hs. unfold Scraper.passes_mins.
  rewrite !passes_min_unknown by assumption. reflexivity.
Qed.

(** C1 (as the code has it).  [_passes_min] keeps a row whose value is
    unknown, and the loops of [_collect_http_only] use it; the main card
    loop of [collect_estately] tests [(data.get("price") or 0) < min_price]
    instead, so the card with an address, a link, three beds, 1200 sqft and
    no readable price is kept by the HTTP-only card loop and dropped by the
    main card loop under the default thresholds. *)
Theorem C1_unknown_price_dropped_by_main_loop :
  forall (urljoin : string -> string -> string) (w : Scraper.world),
    Parsing.parse_card urljoin Inputs.card_unknown_price
      = Ok Inputs.row_unknown_price /\
    Scraper._passes_min (get Inputs.row_unknown_price "price") 600000 = true /\
    Scraper.passes_mins Inputs.default_limits Inputs.row_unknown_price = true /\
    Scraper.below_mins Inputs.default_limits Inputs.row_unknown_price = Ok true /\
    Scraper.dom_step urljoin Inputs.default_limits Inputs.search_page
      Inputs.card_unknown_price [] Scraper.empty_run
      = (Scraper.empty_run, Ok []) /\
    List.length
      (Scraper.results
         (fst (Scraper.http_dom_step urljoin w Inputs.default_limits
                 Inputs.search_page Inputs.card_unknown_price []
                 Scraper.empty_run))) = 1%nat.
Proof.
  intros urljoin w. repeat split; reflexivity.
Qed.

Lemma exact_float_num (x : value) (d : dec) :
  exact_float x = Some d -> num_of x = Some d.
Proof.
  unfold exact_float. destruct x; cbv beta iota; try (intros H; exact H).
  destruct (Z.abs z <=? 2 ^ 53); [intros H; exact H | discriminate].
Qed.

Lemma first_price_text_only (x : value) :
  (forall t, x <> PStr t) -> Parsing._first_price x = None.
Proof.
  intros H. unfold Parsing._first_price.
  destruct x; try (destruct (negb (truthy _)); reflexivity).
  exfalso. apply (H s). reflexivity.
Qed.

(** C5 (as stated) fails: [_coerce_float] has no suffix scaling and reads
    "2.5k" as 2.5, and [_first_price] gives no number for a numeric input. *)
Lemma C5_counterexample :
  Scraper._coerce_float (PStr "2.5k") = Some (Dec 25 (-1)) /\
  dec_eqb (Dec 25 (-1)) (dec_of_Z 2500) = false /\
  Parsing._first_price (PInt 1234000) = None.
Proof. repeat split; reflexivity. Qed.

(** C5 (amended).  [_coerce_float] returns a number that [float] represents
    exactly (a boolean, a float, an integer of magnitude at most 2^53) as
    that number, and a float, such as its own result, as it is; it reads
    "$1,234,000" as 1234000 and "2.5k" as 2.5.  [_first_price] reads
    "$1,234,000" as 1234000 and "2.5k" as 2500, and gives no number for an
    input that is not text. *)
Theorem C5_coercion_by_function :
  (forall x d, exact_float x = Some d -> Scraper._coerce_float x = Some d) /\
  (forall d, Scraper._coerce_float (PFloat d) = Some d) /\
  Scraper._coerce_float (PStr "$1,234,000") = Some (dec_of_Z 1234000) /\
  Scraper._coerce_float (PStr "2.5k") = Some (Dec 25 (-1)) /\
  Parsing._first_price (PStr "$1,234,000") = Some (dec_of_Z 1234000) /\
  Parsing._first_price (PStr "2.5k") = Some (Dec 25 2) /\
  dec_eqb (Dec 25 2) (dec_of_Z 2500) = true /\
  (forall x, (forall t, x <> PStr t) -> Parsing._first_price x = None).
Proof.
  split.
  { intros x d H. apply coerce_float_number. apply exact_float_num. exact H. }
  split; [intros d; reflexivity|].
  repeat (split; [reflexivity|]).
  exact first_price_text_only.
Qed.

Lemma C5_coercion_by_function_witness :
  exact_float (PInt 1234000) = Some (dec_of_Z 1234000) /\
  Scraper._coerce_float (PInt 1234000) = Some (dec_of_Z 1234000) /\
  Parsing._first_price (PList [PStr "2.5k"]) = None.
Proof.
  split; [reflexivity|]. split.
  - apply (proj1 C5_coercion_by_function (PInt 1234000) (dec_of_Z 1234000)).
    reflexivity.
  - apply (proj2 (proj2 (proj2 (proj2 (proj2 (proj2 (proj2
             C5_coercion_by_function))))))).
    intros t. discriminate.
Defined.

(** *** The validity gate *)

(** C2 (as the code has it).  Rows that fail the gate are emitted.  In
    HTTP-only mode a card with an address and neither price nor link, which
    [parse_card] marks weak and [should_keep] drops, gives a record under
    the default thresholds: no loop reads the mark or calls [should_keep].
    After a failed navigation an inline JSON node whose address is a blank
    gives a record with the empty address, which the inline loop of
    [_collect_http_only] drops through [_has_min_address]: the loops of the
    browser path lack that gate.  And with the thresholds at zero the main
    card loop emits the empty record that [parse_card] returns for a card
    without address, price and link. *)
Theorem C2_rows_failing_the_gate_are_emitted :
  (exists row c,
      Parsing.parse_card Inputs.join_rooted Samples.card_pine_rd = Ok row /\
      truthy (por (get row "price") (get row "href")) = false /\
      get row "_weak" = PBool true /\
      Parsing.should_keep row = false /\
      snd (Scraper.run_collect Inputs.join_rooted Samples.world_pine_rd
             Inputs.default_limits Inputs.http_only "Phoenix, AZ" 1) = Ok [c] /\
      Scraper.address c = PStr "9 Pine Rd" /\
      Scraper.listing_price c = PNone) /\
  (exists c,
      snd (Scraper.run_collect Inputs.join_rooted Samples.world_blank_address
             Inputs.default_limits Inputs.with_browser "Phoenix, AZ" 1) = Ok [c] /\
      Scraper.address c = PStr "" /\
      Scraper.listing_price c = PFloat (Dec 700000 0)) /\
  snd (Scraper.run_collect Inputs.join_rooted Samples.world_blank_address
         Inputs.default_limits Inputs.http_only "Phoenix, AZ" 1) = Ok [] /\
  Parsing.parse_card Inputs.join_rooted Inputs.blank_card = Ok [] /\
  Scraper.results
    (fst (Scraper.dom_step Inputs.join_rooted Inputs.no_limits Inputs.search_page
            Inputs.blank_card [] Scraper.empty_run))
    = [Scraper.make_card [] Inputs.search_page] /\
  Scraper.address (Scraper.make_card [] Inputs.search_page) = PStr "".
Proof.
  split; [|split; [|split; [|split; [|split]]]].
  - eexists. eexists. split; [reflexivity|].
    split; [reflexivity|]. split; [reflexivity|]. split; [reflexivity|].
    split; [vm_compute; reflexivity|]. split; reflexivity.
  - eexists. split; [vm_compute; reflexivity|]. split; reflexivity.
  - vm_compute. reflexivity.
  - reflexivity.
  - reflexivity.
  - reflexivity.
Qed.

Lemma should_keep_sound (row : dict) :
  Parsing.should_keep row = true ->
  truthy (get row "address") = true /\
  truthy (por (get row "price") (get row "href")) = true /\
  truthy (get row "_weak") = false.
Proof.
  unfold Parsing.should_keep. intros H.
  destruct (negb (truthy (PDict row))); [discriminate|].
  destruct (truthy (get row "address")); [|discriminate].
  destruct (truthy (por _ _)); [|discriminate].
  destruct (truthy (get row "_weak")); [discriminate|].
  repeat split.
Qed.

(** *** Deduplication *)

(** A key already seen is skipped without a trace. *)
Lemma dedupe_emit_seen (d d_doc : dict) (url : string) (seen : list Scraper.key)
  (s : Scraper.run) :
  Scraper.seen_mem (Scraper.row_key d) seen = Ok true ->
  Scraper.dedupe_emit d d_doc url seen s = (s, Ok seen).
Proof.
  intros H. unfold Scraper.dedupe_emit, Scraper.bindM, Scraper.lift.
  rewrite H. reflexivity.
Qed.

(** A new key is recorded, and the card carries it. *)
Lemma dedupe_emit_fresh (d d_doc : dict) (url : string) (seen : list Scraper.key)
  (s : Scraper.run) (doc : dict) :
  Scraper.seen_mem (Scraper.row_key d) seen = Ok false ->
  Scraper._normalize_property_from_dict
    d_doc (por (get d_doc "href") (PStr url)) = Ok doc ->
  snd (Scraper.dedupe_emit d d_doc url seen s) = Ok (Scraper.row_key d :: seen) /\
  Scraper.results (fst (Scraper.dedupe_emit d d_doc url seen s))
    = (Scraper.results s ++ [Scraper.make_card d url])%list /\
  (Scraper.address (Scraper.make_card d url),
   por (Scraper.listing_price (Scraper.make_card d url)) (PInt 0))
    = Scraper.row_key d.
Proof.
  intros H N. unfold Scraper.dedupe_emit, Scraper.bindM, Scraper.lift.
  rewrite H. cbn [Scraper.push_card]. rewrite N. repeat split.
Qed.

(** C3 (as the code has it).  Without a browser, a page that has the same
    listing as inline JSON and as a card yields two records with the same
    address and price, since [_collect_http_only] keeps one set of keys per
    strategy; and two pages that have the same listing yield it twice, since
    the sets are made anew for every page. *)
Theorem C3_http_only_emits_a_key_twice :
  forall (urljoin : string -> string -> string),
    (exists c1 c2,
        snd (Scraper.run_collect urljoin Inputs.world_main_st Inputs.default_limits
               Inputs.http_only "Phoenix, AZ" 1) = Ok [c1; c2] /\
        Scraper.address c1 = PStr "1 Main St" /\
        Scraper.address c2 = PStr "1 Main St" /\
        Scraper.listing_price c1 = PFloat (Dec 700000 0) /\
        Scraper.listing_price c2 = PFloat (Dec 700000 0)) /\
    (exists c1 c2,
        snd (Scraper.run_collect urljoin Inputs.world_main_st_next
               Inputs.default_limits Inputs.http_only "Phoenix, AZ" 2)
          = Ok [c1; c2] /\
        Scraper.address c1 = PStr "1 Main St" /\
        Scraper.address c2 = PStr "1 Main St" /\
        Scraper.listing_price c1 = PFloat (Dec 700000 0) /\
        Scraper.listing_price c2 = PFloat (Dec 700000 0)).
Proof.
  intros urljoin. split; eexists; eexists;
    (split; [vm_compute; reflexivity|]); repeat split; reflexivity.
Qed.

(** *** Extractors and exceptions *)

(** C4 (as the code has it).  [parse_card] raises [AttributeError] on a
    card whose structured data gives the address as a text (the method
    [get] is called on it), and the main card loop lets the exception
    through; the JSON walker raises on a node whose address is a number,
    and the [/map/properties] parser on an item whose address is a text. *)
Theorem C4_extractors_raise_on_unexpected_shapes :
  forall (urljoin : string -> string -> string),
    Parsing.parse_card urljoin Inputs.card_ld_text_address = Raise AttributeError /\
    Scraper.dom_step urljoin Inputs.default_limits Inputs.search_page
      Inputs.card_ld_text_address [] Scraper.empty_run
      = (Scraper.empty_run, Raise AttributeError) /\
    Scraper._extract_listings_from_json_blob (Some Inputs.json_numeric_address)
      = Raise AttributeError /\
    Scraper._extract_estately_map_properties
      "https://www.estately.com/map/properties" (Some Inputs.json_map_text_address)
      = Raise AttributeError.
Proof. intros urljoin. repeat split; reflexivity. Qed.

(** *** Precedence of the markup over the structured data *)

Lemma get_setdefault_other (d : dict) (k k' : string) (v : value) :
  String.eqb k' k = false -> get (setdefault d k v) k' = get d k'.
Proof.
  intros N. unfold setdefault. destruct (has_key d k); [reflexivity|].
  apply get_set_other. exact N.
Qed.

Ltac other_keys :=
  repeat (rewrite get_set_other by assumption).

Lemma backfill_address_get (out ld o : dict) (f : string) :
  Parsing.backfill_address out ld = Ok o ->
  String.eqb f "address" = false -> String.eqb f "city" = false ->
  String.eqb f "state" = false -> String.eqb f "zip" = false ->
  get o f = get out f.
Proof.
  unfold Parsing.backfill_address. intros H Ha Hc Hs Hz.
  destruct (vget _ "streetAddress") as [street|]; [|discriminate].
  destruct (vget _ "addressLocality") as [city_ld|]; [|discriminate].
  destruct (vget _ "addressRegion") as [state_ld|]; [|discriminate].
  destruct (vget _ "postalCode") as [zip_ld|]; [|discriminate].
  cbn [bind] in H.
  assert (E : forall o1, get o1 f = get out f ->
     Ok (let o2 := if truthy city_ld
                   then set o1 "city" (por (get o1 "city") city_ld) else o1 in
         let o3 := if truthy state_ld
                   then set o2 "state" (por (get o2 "state") state_ld) else o2 in
         let o4 := if truthy zip_ld
                   then set o3 "zip" (por (get o3 "zip") zip_ld) else o3 in
         o4) = Ok o -> get o f = get out f).
  { intros o1 H1 H2. injection H2 as <-. cbv zeta.
    destruct (truthy city_ld), (truthy state_ld), (truthy zip_ld);
      other_keys; exact H1. }
  destruct (truthy street).
  - destruct (negb (truthy (get out "address"))).
    + cbn [bind] in H. apply (E _ (get_set_other _ _ _ _ Ha) H).
    + destruct (Parsing.not_in_text _ _) as [b|]; [|discriminate].
      cbn [bind] in H. destruct b.
      * apply (E _ (get_set_other _ _ _ _ Ha) H).
      * apply (E _ eq_refl H).
  - cbn [bind] in H. apply (E _ eq_refl H).
Qed.

Lemma backfill_href_get (urljoin : string -> string -> string)
  (out ld : dict) (f : string) :
  String.eqb f "href" = false ->
  get (Parsing.backfill_href urljoin out ld) f = get out f.
Proof.
  intros N. unfold Parsing.backfill_href.
  destruct (negb _); [|reflexivity].
  destruct (get ld "url"); try reflexivity. apply get_set_other. exact N.
Qed.

(** A field that is known is not touched by a conditional fill. *)
Lemma fill_if_none_get (o : dict) (k f : string) (v : value) :
  is_none (get o f) = false ->
  get (if is_none (get o k) then set o k v else o) f = get o f.
Proof.
  intros H. destruct (is_none (get o k)) eqn:E; [|reflexivity].
  destruct (String.eqb f k) eqn:N.
  - apply String.eqb_eq in N. subst k. rewrite E in H. discriminate.
  - apply get_set_other. exact N.
Qed.

Lemma backfill_numbers_kept (out ld : dict) (f : string) :
  is_none (get out f) = false ->
  get (Parsing.backfill_numbers out ld) f = get out f.
Proof.
  intros H. unfold Parsing.backfill_numbers. cbv zeta.
  set (o1 := if is_none (get out "beds") then _ else out).
  assert (H1 : get o1 f = get out f) by (apply fill_if_none_get; exact H).
  set (o2 := if is_none (get o1 "baths") then _ else o1).
  assert (H2 : get o2 f = get out f).
  { unfold o2. rewrite fill_if_none_get; [exact H1 | rewrite H1; exact H]. }
  destruct (is_none (get o2 "sqft")) eqn:E; [|exact H2].
  assert (N : String.eqb f "sqft" = false).
  { destruct (String.eqb f "sqft") eqn:N; [|reflexivity].
    apply String.eqb_eq in N. subst f. rewrite <- H2 in H. rewrite E in H.
    discriminate. }
  destruct (get ld "floorSize");
    try (rewrite get_set_other by exact N; exact H2).
  match goal with |- get (if ?b then _ else _) f = _ => destruct b end;
    repeat rewrite get_set_other by exact N; exact H2.
Qed.

Lemma backfill_price_kept (out ld o : dict) (f : string) :
  Parsing.backfill_price out ld = Ok o ->
  is_none (get out f) = false ->
  get o f = get out f.
Proof.
  unfold Parsing.backfill_price. intros H Hf.
  destruct (is_none (get out "price")) eqn:E.
  - assert (N : String.eqb f "price" = false).
    { destruct (String.eqb f "price") eqn:N; [|reflexivity].
      apply String.eqb_eq in N. subst f. rewrite E in Hf. discriminate. }
    destruct (match get ld "offers" with PDict _ => _ | _ => _ end)
      as [price_ld|]; [|discriminate].
    cbn [bind] in H. injection H as <-. apply get_set_other. exact N.
  - injection H as <-. reflexivity.
Qed.

Lemma backfill_numbers_other (out ld : dict) (f : string) :
  String.eqb f "beds" = false -> String.eqb f "baths" = false ->
  String.eqb f "sqft" = false ->
  get (Parsing.backfill_numbers out ld) f = get out f.
Proof.
  intros Hb Ha Hs. unfold Parsing.backfill_numbers. cbv zeta.
  set (o1 := if is_none (get out "beds") then _ else out).
  assert (H1 : get o1 f = get out f).
  { unfold o1. destruct (is_none (get out "beds")); [|reflexivity].
    apply get_set_other. exact Hb. }
  set (o2 := if is_none (get o1 "baths") then _ else o1).
  assert (H2 : get o2 f = get out f).
  { unfold o2. destruct (is_none (get o1 "baths")); [|exact H1].
    rewrite get_set_other by exact Ha. exact H1. }
  destruct (is_none (get o2 "sqft")); [|exact H2].
  destruct (get ld "floorSize");
    try (rewrite get_set_other by exact Hs; exact H2).
  match goal with |- get (if ?b then _ else _) f = _ => destruct b end;
    repeat rewrite get_set_other by exact Hs; exact H2.
Qed.

Lemma backfill_price_other (out ld o : dict) (f : string) :
  Parsing.backfill_price out ld = Ok o ->
  String.eqb f "price" = false ->
  get o f = get out f.
Proof.
  unfold Parsing.backfill_price. intros H N.
  destruct (is_none (get out "price")).
  - destruct (match get ld "offers" with PDict _ => _ | _ => _ end)
      as [price_ld|]; [|discriminate].
    cbn [bind] in H. injection H as <-. apply get_set_other. exact N.
  - injection H as <-. reflexivity.
Qed.

(** The numeric fields of the record are those of the dictionary before
    the validity test, when the record is not empty. *)
Lemma parse_card_final (o out : dict) (f : string) :
  (if negb (truthy (get o "address")) then Ok []
   else if negb (truthy (por (get o "price") (get o "href")))
        then Ok (setdefault o "_weak" (PBool true))
        else Ok o) = Ok out ->
  out <> [] ->
  String.eqb f "_weak" = false ->
  get out f = get o f.
Proof.
  intros H Hne Kw. destruct (negb (truthy (get o "address"))).
  - injection H as <-. contradiction.
  - destruct (negb _); injection H as <-; [|reflexivity].
    apply get_setdefault_other. exact Kw.
Qed.

Lemma backfill_numbers_beds (out ld : dict) :
  get out "beds" = PNone ->
  get (Parsing.backfill_numbers out ld) "beds"
  = Parsing.of_num (Parsing._qv_value (get ld "numberOfRooms")).
Proof.
  intros H. unfold Parsing.backfill_numbers. cbv zeta. rewrite H.
  change (is_none PNone) with true. cbv iota.
  set (o1 := set out "beds" _).
  assert (H1 : get o1 "beds"
               = Parsing.of_num (Parsing._qv_value (get ld "numberOfRooms")))
    by apply get_set_same.
  set (o2 := if is_none (get o1 "baths") then _ else o1).
  assert (H2 : get o2 "beds" = get o1 "beds").
  { unfold o2. destruct (is_none (get o1 "baths")); [|reflexivity].
    apply get_set_other. reflexivity. }
  rewrite <- H1, <- H2.
  destruct (is_none (get o2 "sqft")); [|reflexivity].
  destruct (get ld "floorSize");
    try (apply get_set_other; reflexivity).
  match goal with |- get (if ?b then _ else _) _ = _ => destruct b end;
    repeat rewrite get_set_other by reflexivity; reflexivity.
Qed.

Lemma backfill_numbers_baths (out ld : dict) :
  get out "baths" = PNone ->
  get (Parsing.backfill_numbers out ld) "baths"
  = Parsing.of_num (Parsing._qv_value (get ld "numberOfBathroomsTotal")).
Proof.
  intros H. unfold Parsing.backfill_numbers. cbv zeta.
  set (o1 := if is_none (get out "beds") then _ else out).
  assert (H1 : get o1 "baths" = PNone).
  { unfold o1. destruct (is_none (get out "beds")); [|exact H].
    rewrite get_set_other by reflexivity. exact H. }
  rewrite H1. change (is_none PNone) with true. cbv iota.
  set (o2 := set o1 "baths" _).
  assert (H2 : get o2 "baths"
               = Parsing.of_num (Parsing._qv_value (get ld "numberOfBathroomsTotal")))
    by apply get_set_same.
  rewrite <- H2.
  destruct (is_none (get o2 "sqft")); [|reflexivity].
  destruct (get ld "floorSize");
    try (apply get_set_other; reflexivity).
  match goal with |- get (if ?b then _ else _) _ = _ => destruct b end;
    repeat rewrite get_set_other by reflexivity; reflexivity.
Qed.

Lemma backfill_numbers_sqft (out ld : dict) :
  get out "sqft" = PNone ->
  get (Parsing.backfill_numbers out ld) "sqft" = ld_sqft ld.
Proof.
  intros H. unfold Parsing.backfill_numbers, ld_sqft. cbv zeta.
  set (o1 := if is_none (get out "beds") then _ else out).
  assert (H1 : get o1 "sqft" = PNone).
  { unfold o1. destruct (is_none (get out "beds")); [|exact H].
    rewrite get_set_other by reflexivity. exact H. }
  set (o2 := if is_none (get o1 "baths") then _ else o1).
  assert (H2 : get o2 "sqft" = PNone).
  { unfold o2. destruct (is_none (get o1 "baths")); [|exact H1].
    rewrite get_set_other by reflexivity. exact H1. }
  rewrite H2. change (is_none PNone) with true. cbv iota.
  destruct (get ld "floorSize") as [| | | | | |fsd];
    try (rewrite get_set_same;
         match goal with |- Parsing.of_num ?q = _ => destruct q end; reflexivity).
  rewrite get_set_same.
  destruct (Parsing._qv_value (PDict fsd)) as [v|]; cbn [Parsing.of_num is_none].
  - apply get_set_same.
  - apply get_set_same.
Qed.

Lemma backfill_price_fill (out ld o : dict) :
  Parsing.backfill_price out ld = Ok o ->
  get out "price" = PNone ->
  get o "price" = por (Parsing.of_num (Parsing._qv_value (ld_price ld))) PNone.
Proof.
  unfold Parsing.backfill_price, ld_price. intros H Hp. rewrite Hp in H.
  change (is_none PNone) with true in H. cbv iota in H.
  destruct (get ld "offers") as [| | | | |l|o'].
  - cbn [bind] in H. injection H as <-. apply get_set_same.
  - cbn [bind] in H. injection H as <-. apply get_set_same.
  - cbn [bind] in H. injection H as <-. apply get_set_same.
  - cbn [bind] in H. injection H as <-. apply get_set_same.
  - cbn [bind] in H. injection H as <-. apply get_set_same.
  - destruct l as [|x l].
    + cbn [bind] in H. injection H as <-. apply get_set_same.
    + destruct x; try discriminate H.
      cbn [vget bind] in H. injection H as <-. apply get_set_same.
  - cbn [bind] in H. injection H as <-. apply get_set_same.
Qed.

(** C6 (as stated) fails for a card without address: the markup gives three
    beds and a price, the structured data four rooms, and the record is
    empty. *)
Lemma C6_counterexample :
  get (Parsing.dom_fields Samples.card_no_address) "beds" = PFloat (Dec 3 0) /\
  get (Parsing.dom_fields Samples.card_no_address) "price"
    = PFloat (Dec 700000 0) /\
  Parsing.parse_card Inputs.join_rooted Samples.card_no_address = Ok [] /\
  get [] "beds" = PNone.
Proof. repeat split; reflexivity. Qed.

(** C6 (amended).  In a record returned by [parse_card] that is not empty,
    each of [price], [beds], [baths] and [sqft] that the markup gave keeps
    the markup's value; without a structured-data block every one of them
    is the markup's; and with a block, a field the markup did not give is
    the block's: [numberOfRooms] for the beds, [numberOfBathroomsTotal] for
    the baths, [floorSize] for the sqft and the price of the offer (else of
    the block) for the price. *)
Theorem C6_markup_numbers_kept :
  forall (urljoin : string -> string -> string) (c : Parsing.card) (out : dict),
    Parsing.parse_card urljoin c = Ok out ->
    out <> [] ->
    (forall f, In f Inputs.numeric_fields ->
               is_none (get (Parsing.dom_fields c) f) = false ->
               get out f = get (Parsing.dom_fields c) f) /\
    (Parsing._jsonld_from_card c = None ->
     forall f, In f Inputs.numeric_fields ->
               get out f = get (Parsing.dom_fields c) f) /\
    (forall ld, Parsing._jsonld_from_card c = Some ld ->
       (get (Parsing.dom_fields c) "beds" = PNone ->
        get out "beds"
        = Parsing.of_num (Parsing._qv_value (get ld "numberOfRooms"))) /\
       (get (Parsing.dom_fields c) "baths" = PNone ->
        get out "baths"
        = Parsing.of_num (Parsing._qv_value (get ld "numberOfBathroomsTotal"))) /\
       (get (Parsing.dom_fields c) "sqft" = PNone ->
        get out "sqft" = ld_sqft ld) /\
       (get (Parsing.dom_fields c) "price" = PNone ->
        get out "price"
        = por (Parsing.of_num (Parsing._qv_value (ld_price ld))) PNone)).
Proof.
  intros urljoin c out Hp Hne.
  assert (Hkeys : forall f, In f Inputs.numeric_fields ->
            String.eqb f "address" = false /\ String.eqb f "city" = false /\
            String.eqb f "state" = false /\ String.eqb f "zip" = false /\
            String.eqb f "href" = false /\ String.eqb f "_weak" = false).
  { intros f Hin. simpl in Hin.
    repeat (destruct Hin as [<-|Hin]; [repeat split; reflexivity|]).
    destruct Hin. }
  unfold Parsing.parse_card in Hp.
  destruct (Parsing.c_sqft c) as [sq|]; [|discriminate].
  cbn [bind] in Hp.
  destruct (Parsing._jsonld_from_card c) as [ld|] eqn:Hld.
  - destruct (Parsing.backfill_address (Parsing.dom_fields c) ld) as [o1|] eqn:H1;
      [|discriminate].
    cbn [bind] in Hp.
    destruct (Parsing.backfill_price _ ld) as [o4|] eqn:H4; [|discriminate].
    cbn [bind] in Hp.
    set (o2 := Parsing.backfill_href urljoin o1 ld) in *.
    assert (E2 : forall f, String.eqb f "address" = false ->
                           String.eqb f "city" = false ->
                           String.eqb f "state" = false ->
                           String.eqb f "zip" = false ->
                           String.eqb f "href" = false ->
                           get o2 f = get (Parsing.dom_fields c) f).
    { intros f Ka Kc Ks Kz Kh. unfold o2.
      rewrite backfill_href_get by exact Kh.
      apply (backfill_address_get _ _ _ _ H1); assumption. }
    split; [|split].
    + intros f Hin Hk. destruct (Hkeys f Hin) as (Ka & Kc & Ks & Kz & Kh & Kw).
      rewrite (parse_card_final _ _ f Hp Hne Kw).
      assert (E3 : get (Parsing.backfill_numbers o2 ld) f
                   = get (Parsing.dom_fields c) f).
      { rewrite backfill_numbers_kept; [apply E2; assumption|].
        rewrite E2 by assumption. exact Hk. }
      rewrite (backfill_price_kept _ _ _ _ H4); [exact E3 | rewrite E3; exact Hk].
    + discriminate.
    + intros ld' Eld. injection Eld as <-.
      split; [|split; [|split]]; intros Hn.
      * rewrite (parse_card_final _ _ "beds" Hp Hne eq_refl).
        rewrite (backfill_price_other _ _ _ _ H4) by reflexivity.
        apply backfill_numbers_beds. rewrite E2 by reflexivity. exact Hn.
      * rewrite (parse_card_final _ _ "baths" Hp Hne eq_refl).
        rewrite (backfill_price_other _ _ _ _ H4) by reflexivity.
        apply backfill_numbers_baths. rewrite E2 by reflexivity. exact Hn.
      * rewrite (parse_card_final _ _ "sqft" Hp Hne eq_refl).
        rewrite (backfill_price_other _ _ _ _ H4) by reflexivity.
        apply backfill_numbers_sqft. rewrite E2 by reflexivity. exact Hn.
      * rewrite (parse_card_final _ _ "price" Hp Hne eq_refl).
        apply (backfill_price_fill _ _ _ H4).
        rewrite backfill_numbers_other by reflexivity.
        rewrite E2 by reflexivity. exact Hn.
  - cbn [bind] in Hp. split; [|split].
    + intros f Hin _. destruct (Hkeys f Hin) as (_ & _ & _ & _ & _ & Kw).
      exact (parse_card_final _ _ f Hp Hne Kw).
    + intros _ f Hin. destruct (Hkeys f Hin) as (_ & _ & _ & _ & _ & Kw).
      exact (parse_card_final _ _ f Hp Hne Kw).
    + discriminate.
Qed.

Lemma C6_markup_numbers_kept_witness :
  exists out,
    Parsing.parse_card Inputs.join_rooted Inputs.card_beds_3_ld_4 = Ok out /\
    get out "beds" = PFloat (Dec 3 0) /\
    get out "sqft" = PFloat (Dec 1200 0).
Proof.
  eexists. split; [reflexivity|].
  destruct (C6_markup_numbers_kept Inputs.join_rooted Inputs.card_beds_3_ld_4
              _ eq_refl ltac:(discriminate)) as (Known & _ & Filled).
  split.
  - apply (Known "beds"); [simpl; auto | reflexivity].
  - destruct (Filled _ eq_refl) as (_ & _ & Hs & _).
    rewrite (Hs eq_refl). reflexivity.
Defined.

(** *** Status *)

Lemma first_status_absent (d : dict) (keys : list string) :
  (forall k, In k keys -> get d k = PNone) ->
  Scraper.first_status d keys = None.
Proof.
  induction keys as [|k r IH]; intros H; [reflexivity|].
  simpl. rewrite (H k (or_introl eq_refl)). simpl. rewrite andb_false_r.
  apply IH. intros k' Hk'. apply H. right. exact Hk'.
Qed.

Lemma first_truthy_absent (d : dict) (keys : list string) :
  (forall k, In k keys -> truthy (get d k) = false) ->
  Scraper.first_truthy d keys = None.
Proof.
  induction keys as [|k r IH]; intros H; [reflexivity|].
  simpl. rewrite (H k (or_introl eq_refl)).
  apply IH. intros k' Hk'. apply H. right. exact Hk'.
Qed.

(** The blob tested when there is no status field is the text, stripped. *)
Lemma blob_without_status (text : string) :
  strip (join " " [""; lower text]) = strip (lower text).
Proof. reflexivity. Qed.

(** C7 (as stated) fails on its second half: with a textual [status] and a
    boolean [isActive], the text decides. *)
Lemma C7_counterexample :
  In "isActive" Scraper.status_fields /\
  lookup "isActive" Inputs.row_sold_and_active = Some (PBool true) /\
  snd (Scraper._extract_status Inputs.row_sold_and_active "") = false.
Proof.
  repeat split; try reflexivity.
  simpl. tauto.
Qed.

(** C7 (amended).  A candidate without status field whose text has no
    negative and no positive token is classified active by
    [_extract_status], and a candidate without status field is classified
    active by [_looks_active_for_sale]; when the first status field that is
    present and not [None], in the order of the list, is a boolean, that
    boolean is the classification whatever the text says. *)
Theorem C7_status_default_and_boolean :
  (forall d text,
      (forall k, In k Scraper.status_fields -> get d k = PNone) ->
      any_in Scraper.NEG_STATUS (lower text) = false ->
      any_in Scraper.POS_STATUS_TOKENS (lower text) = false ->
      snd (Scraper._extract_status d text) = true) /\
  (forall d,
      (forall k, In k Scraper.looks_fields -> truthy (get d k) = false) ->
      Scraper._looks_active_for_sale d = true) /\
  (forall d text b,
      Scraper.first_status d Scraper.status_fields = Some (PBool b) ->
      snd (Scraper._extract_status d text) = b).
Proof.
  split; [|split].
  - intros d text Hno Hneg _. unfold Scraper._extract_status.
    rewrite (first_status_absent d _ Hno). cbv zeta. cbv beta iota.
    rewrite blob_without_status.
    rewrite (any_in_strip Scraper.NEG_STATUS (lower text) Hneg). cbn [snd].
    match goal with |- (if ?c then true else true) = true => destruct c end;
      reflexivity.
  - intros d Hno. unfold Scraper._looks_active_for_sale.
    rewrite (first_truthy_absent d _ Hno). reflexivity.
  - intros d text b H. unfold Scraper._extract_status. rewrite H. reflexivity.
Qed.

Lemma C7_status_default_and_boolean_witness :
  snd (Scraper._extract_status [("address", PStr "12 Elm St")]
         "12 Elm St 3 beds 1,200 sqft") = true /\
  snd (Scraper._extract_status [("isActive", PBool false)] "for sale") = false.
Proof.
  split.
  - apply (proj1 C7_status_default_and_boolean).
    + intros k Hk. simpl in Hk.
      repeat (destruct Hk as [<-|Hk]; [reflexivity|]). destruct Hk.
    + reflexivity.
    + reflexivity.
  - apply (proj2 (proj2 C7_status_default_and_boolean)). reflexivity.
Defined.

(** *** The price of a JSON node *)

(** C8 (as stated) fails on its second half: a price read from the dollar
    key [price] is divided by 100 when a cents key holds an equal value. *)
Lemma C8_counterexample :
  Scraper.gets Inputs.node_price_and_cents Scraper.price_keys
    = get Inputs.node_price_and_cents "price" /\
  truthy (get Inputs.node_price_and_cents "price") = true /\
  Scraper._coerce_float (get Inputs.node_price_and_cents "price")
    = Some (dec_of_Z 650000) /\
  exists p, Scraper._price_from_any Inputs.node_price_and_cents = Ok (Some p) /\
            dec_eqb p (dec_of_Z 650000) = false.
Proof.
  repeat split; try reflexivity.
  eexists; split; reflexivity.
Qed.

Lemma py_eq_int_refl (z : Z) : py_eq (PInt z) (PInt z) = true.
Proof. simpl. apply dec_eqb_refl. Qed.

Lemma has_key_lookup (d : dict) (k : string) (v : value) :
  lookup k d = Some v -> has_key d k = true /\ get d k = v.
Proof. unfold has_key, get. intros ->. split; reflexivity. Qed.

Lemma coerce_float_as_float (v : value) (p : dec) :
  num_of v = Some p -> Scraper._coerce_float (PFloat p) = Scraper._coerce_float v.
Proof. intros H. rewrite (coerce_float_number v p H). reflexivity. Qed.

Lemma exact_float_number (v : value) (p : dec) :
  exact_float v = Some p -> is_number v = true.
Proof.
  unfold exact_float. destruct v; cbv beta iota; intros H;
    try discriminate H; reflexivity.
Qed.

(** C8 (amended).  In [_price_from_any], a price supplied by a cents key
    holding an integer is that integer divided by 100, for an integer of any
    magnitude up to 2^53 and not only under 100 000; a price is returned
    coerced and undivided when no cents key of the node holds a value equal
    to it.  In the [/map/properties] parser a numeric [list_price_cents]
    divided by 100 is the price, else a numeric [price_cents] divided by
    100, else the coerced value of the first price key, undivided.  An
    integer beyond 2^53, which [float] rounds or refuses, is left out
    throughout. *)
Theorem C8_cents_and_dollars :
  (forall d k z,
      In k Scraper.cents_keys ->
      lookup k d = Some (PInt z) ->
      Scraper.gets d Scraper.price_keys = PInt z ->
      Z.abs z <= 2 ^ 53 ->
      Scraper._price_from_any d = Ok (Some (Dec z (-2)))) /\
  (forall d,
      is_none (Scraper.gets d Scraper.price_keys) = false ->
      in_float_range (Scraper.gets d Scraper.price_keys) = true ->
      (forall k, In k Scraper.cents_keys ->
                 has_key d k && py_eq (get d k) (Scraper.gets d Scraper.price_keys)
                 = false) ->
      Scraper._price_from_any d
      = Ok (Scraper._coerce_float (Scraper.gets d Scraper.price_keys))) /\
  (forall it v p,
      lookup "list_price_cents" it = Some v ->
      exact_float v = Some p ->
      Scraper.map_price it = Some (dec_scale10 p (-2))) /\
  (forall it v p,
      has_key it "list_price_cents" && is_number (get it "list_price_cents")
        = false ->
      lookup "price_cents" it = Some v ->
      exact_float v = Some p ->
      Scraper.map_price it = Some (dec_scale10 p (-2))) /\
  (forall it,
      has_key it "list_price_cents" && is_number (get it "list_price_cents")
        = false ->
      has_key it "price_cents" && is_number (get it "price_cents") = false ->
      in_float_range (Scraper.gets it Scraper.map_price_keys) = true ->
      Scraper.map_price it
      = Scraper._coerce_float (Scraper.gets it Scraper.map_price_keys)).
Proof.
  split; [|split; [|split; [|split]]].
  - intros d k z Hin Hk Hraw _. unfold Scraper._price_from_any.
    rewrite Hraw. simpl is_none. cbv iota.
    destruct (has_key_lookup d k (PInt z) Hk) as [Hh Hg].
    assert (E : existsb (fun k0 => has_key d k0 && py_eq (get d k0) (PInt z))
                        Scraper.cents_keys = true).
    { apply existsb_exists. exists k. split; [exact Hin|].
      rewrite Hh, Hg, py_eq_int_refl. reflexivity. }
    rewrite E. reflexivity.
  - intros d Hraw _ Hno. unfold Scraper._price_from_any. rewrite Hraw.
    assert (E : existsb (fun k => has_key d k
                                  && py_eq (get d k) (Scraper.gets d Scraper.price_keys))
                        Scraper.cents_keys = false).
    { destruct (existsb _ _) eqn:E; [|reflexivity].
      apply existsb_exists in E. destruct E as [k [Hin Hk]].
      rewrite (Hno k Hin) in Hk. discriminate. }
    rewrite E. reflexivity.
  - intros it v p Hk Hv. unfold Scraper.map_price.
    destruct (has_key_lookup it _ _ Hk) as [Hh Hg].
    rewrite Hh, Hg, (exact_float_number v p Hv), (exact_float_num v p Hv).
    reflexivity.
  - intros it v p Hn Hk Hv. unfold Scraper.map_price.
    destruct (has_key_lookup it _ _ Hk) as [Hh Hg].
    rewrite Hn, Hh, Hg, (exact_float_number v p Hv), (exact_float_num v p Hv).
    reflexivity.
  - intros it Hn1 Hn2 _. unfold Scraper.map_price.
    rewrite Hn1, Hn2.
    destruct (num_of (Scraper.gets it Scraper.map_price_keys)) as [p|] eqn:Hp;
      [|reflexivity].
    destruct (_ && _ && _); [|reflexivity].
    apply coerce_float_as_float. exact Hp.
Qed.

Lemma C8_cents_and_dollars_witness :
  Scraper._price_from_any [("priceCents", PInt 65000)] = Ok (Some (Dec 65000 (-2))) /\
  Scraper.map_price [("price", PInt 650000); ("price_cents", PFloat (Dec 65000000 0))]
    = Some (Dec 65000000 (-2)) /\
  Scraper.map_price [("price", PInt 65000)] = Some (Dec 65000 0).
Proof.
  split; [|split].
  - apply (proj1 C8_cents_and_dollars [("priceCents", PInt 65000)] "priceCents" 65000).
    + simpl. auto.
    + reflexivity.
    + reflexivity.
    + vm_compute. discriminate.
  - apply (proj1 (proj2 (proj2 (proj2 C8_cents_and_dollars)))
             [("price", PInt 650000); ("price_cents", PFloat (Dec 65000000 0))]
             (PFloat (Dec 65000000 0)) (Dec 65000000 0));
      reflexivity.
  - rewrite (proj2 (proj2 (proj2 (proj2 C8_cents_and_dollars)))
               [("price", PInt 65000)] eq_refl eq_refl eq_refl).
    reflexivity.
Defined.

(** *** The calls made by a run *)

Section Calls.
Import Scraper.
Import Ladder.

Lemma adds_nothing {A} (P : event -> bool) (m : M A) :
  (forall s, trace (fst (m s)) = trace s) -> adds P m.
Proof.
  intros H s. exists []. rewrite app_nil_r. split; [apply H | constructor].
Qed.

Lemma adds_ret {A} P (a : A) : adds P (ret a).
Proof. apply adds_nothing. reflexivity. Qed.

Lemma adds_lift {A} P (r : result A) : adds P (lift r).
Proof. apply adds_nothing. reflexivity. Qed.

Lemma adds_get_run P : adds P get_run.
Proof. apply adds_nothing. reflexivity. Qed.

Lemma adds_push_card P c : adds P (push_card c).
Proof. apply adds_nothing. reflexivity. Qed.

Lemma adds_push_doc P d : adds P (push_doc d).
Proof. apply adds_nothing. reflexivity. Qed.

Lemma adds_push_net P l : adds P (push_net l).
Proof. apply adds_nothing. reflexivity. Qed.

Lemma adds_emit P e : P e = true -> adds P (emit e).
Proof.
  intros H s. exists [e]. split; [reflexivity|]. constructor; [exact H|constructor].
Qed.

Lemma adds_bind {A B} P (m : M A) (k : A -> M B) :
  adds P m -> (forall a, adds P (k a)) -> adds P (bindM m k).
Proof.
  intros Hm Hk s. unfold bindM.
  destruct (Hm s) as [ev1 [H1 F1]].
  destruct (m s) as [s' [a|e]]; simpl in H1.
  - destruct (Hk a s') as [ev2 [H2 F2]].
    exists (ev1 ++ ev2)%list. split.
    + rewrite H2, H1, app_assoc. reflexivity.
    + apply Forall_app. split; assumption.
  - exists ev1. split; assumption.
Qed.

Lemma adds_catch {A} P (m h : M A) : adds P m -> adds P h -> adds P (catch m h).
Proof.
  intros Hm Hh s. unfold catch.
  destruct (Hm s) as [ev1 [H1 F1]].
  destruct (m s) as [s' [a|e]]; simpl in H1.
  - exists ev1. split; assumption.
  - destruct (Hh s') as [ev2 [H2 F2]].
    exists (ev1 ++ ev2)%list. split.
    + rewrite H2, H1, app_assoc. reflexivity.
    + apply Forall_app. split; assumption.
Qed.

Lemma adds_for_each {I A} P (step : I -> A -> M A) (items : list I) :
  (forall x a, adds P (step x a)) -> forall a, adds P (for_each step items a).
Proof.
  intros Hs. induction items as [|x r IH]; intros a; simpl.
  - apply adds_ret.
  - apply adds_bind; [apply Hs | exact IH].
Qed.

(** One step of the analysis of a computation built from the combinators. *)
Ltac adds_step :=
  match goal with
  | |- adds _ (bindM _ _) => apply adds_bind; [|intros]
  | |- adds _ (ret _) => apply adds_ret
  | |- adds _ (lift _) => apply adds_lift
  | |- adds _ get_run => apply adds_get_run
  | |- adds _ (push_card _) => apply adds_push_card
  | |- adds _ (push_doc _) => apply adds_push_doc
  | |- adds _ (push_net _) => apply adds_push_net
  | |- adds _ (emit _) => apply adds_emit; reflexivity
  | |- adds _ (catch _ _) => apply adds_catch
  | |- adds _ (for_each _ _ _) => apply adds_for_each; intros
  | |- adds _ (if ?b then _ else _) => destruct b
  | |- adds _ (match ?x with _ => _ end) => destruct x
  end.

Ltac adds_auto := repeat (assumption || adds_step).

Variable urljoin : string -> string -> string.
Variable w : world.
Variable lim : limits.

(** **** The loops over rows make no call *)

Lemma adds_dedupe_emit P d d' url seen : adds P (dedupe_emit d d' url seen).
Proof. unfold dedupe_emit. adds_auto. Qed.

Lemma adds_http_inline_step P url d seen : adds P (http_inline_step lim url d seen).
Proof. unfold http_inline_step. adds_auto; apply adds_dedupe_emit. Qed.

Lemma adds_nav_fallback_step P url d seen :
  adds P (nav_fallback_step lim url d seen).
Proof. unfold nav_fallback_step. adds_auto; apply adds_dedupe_emit. Qed.

Lemma adds_inline_step P url d seen : adds P (inline_step lim url d seen).
Proof. unfold inline_step. adds_auto; apply adds_dedupe_emit. Qed.

Lemma adds_net_step P url d seen : adds P (net_step lim url d seen).
Proof. unfold net_step. adds_auto; apply adds_dedupe_emit. Qed.

Lemma adds_dom_step P url c seen : adds P (dom_step urljoin lim url c seen).
Proof. unfold dom_step. adds_auto; apply adds_dedupe_emit. Qed.

Lemma adds_final_fallback P url seen : adds P (final_fallback lim url seen).
Proof.
  unfold final_fallback.
  apply adds_bind; [apply adds_get_run|]. intros s.
  destruct (_ && _); [|apply adds_ret].
  apply adds_bind; [apply adds_lift|]. intros harvested.
  apply adds_bind; [|intros; apply adds_ret].
  apply adds_for_each. intros. apply adds_inline_step.
Qed.

Lemma adds_current_results P : adds P current_results.
Proof. unfold current_results. adds_auto. Qed.

(** **** The HTTP path makes HTTP calls only *)

Lemma adds_harvest_from_detail P url :
  admits_http P -> adds P (_harvest_from_detail w lim url).
Proof.
  intros (Hf & _ & _). unfold _harvest_from_detail.
  apply adds_bind; [apply adds_emit, Hf|]. intros _. adds_auto.
Qed.

Lemma adds_enrich P url data : admits_http P -> adds P (enrich urljoin w lim url data).
Proof.
  intros HP. unfold enrich.
  apply adds_bind; [apply adds_lift|]. intros data'.
  apply adds_bind; [apply adds_lift|]. intros ok.
  destruct (_ && _); [|apply adds_ret].
  apply adds_catch; [|apply adds_ret].
  apply adds_bind; [apply adds_harvest_from_detail, HP|]. intros d. apply adds_ret.
Qed.

Lemma adds_http_dom_step P url c seen :
  admits_http P -> adds P (http_dom_step urljoin w lim url c seen).
Proof.
  intros HP. unfold http_dom_step.
  destruct (Parsing.parse_card urljoin c); [|apply adds_ret].
  apply adds_bind; [apply adds_enrich, HP|]. intros data.
  unfold http_dom_gates. adds_auto; apply adds_dedupe_emit.
Qed.

Lemma adds_fallback_dom_step P url c seen :
  admits_http P -> adds P (fallback_dom_step urljoin w lim url c seen).
Proof.
  intros HP. unfold fallback_dom_step.
  destruct (Parsing.parse_card urljoin c); [|apply adds_ret].
  apply adds_bind; [apply adds_enrich, HP|]. intros data.
  adds_auto; apply adds_dedupe_emit.
Qed.

Lemma adds_persist P cfg : admits_http P -> adds P (persist cfg).
Proof.
  intros (_ & _ & Hp). unfold persist.
  apply adds_bind; [apply adds_get_run|]. intros s.
  destruct (_ && _); [apply adds_emit, Hp | apply adds_ret].
Qed.

Lemma adds_collect_http_only P url :
  admits_http P -> adds P (_collect_http_only urljoin w lim url).
Proof.
  intros HP. pose proof HP as (Hf & Hc & _). unfold _collect_http_only.
  apply adds_bind; [apply adds_emit, Hc|]. intros _.
  apply adds_bind; [apply adds_emit, Hf|]. intros _.
  destruct (w_fetch w _); [|apply adds_ret].
  apply adds_bind.
  { apply adds_for_each. intros. apply adds_http_inline_step. }
  intros _. apply adds_bind; [|intros; apply adds_ret].
  apply adds_catch; [|apply adds_ret].
  apply adds_bind; [|intros; apply adds_ret].
  apply adds_for_each. intros. apply adds_http_dom_step, HP.
Qed.

Lemma adds_call_collect_http_only P url :
  admits_http P -> adds P (call_collect_http_only urljoin w lim url).
Proof.
  intros HP s. unfold call_collect_http_only.
  destruct (adds_collect_http_only P url HP
              {| results := []; mongo_docs := []; net_bucket := net_bucket s;
                 trace := trace s |}) as [ev [H F]].
  destruct (_collect_http_only _ _ _ _ _) as [s' [next|e]];
    exists ev; split; assumption.
Qed.

Lemma adds_http_only_pages P n :
  admits_http P -> forall url, adds P (http_only_pages urljoin w lim n url).
Proof.
  intros HP. induction n as [|k IH]; intros url; simpl.
  - apply adds_ret.
  - apply adds_bind; [apply adds_call_collect_http_only, HP|].
    intros [next|]; [|apply adds_ret].
    destruct (non_empty next); [apply IH | apply adds_ret].
Qed.

Lemma calm_admits_http : admits_http calm.
Proof. repeat split. Qed.

Lemma off_browser_admits_http : admits_http off_browser.
Proof. repeat split. Qed.

Lemma off_browser_calm (l : list event) :
  Forall (fun e => off_browser e = true) l -> Forall (fun e => calm e = true) l.
Proof.
  intros H. eapply Forall_impl; [|exact H].
  intros e. destruct e; simpl; intros E; (reflexivity || discriminate).
Qed.

Lemma off_browser_false (l : list event) :
  Forall (fun e => off_browser e = true) l ->
  Forall (fun e => browser_call e = false) l.
Proof.
  intros H. eapply Forall_impl; [|exact H].
  intros e. unfold off_browser. destruct (browser_call e); simpl; congruence.
Qed.

(** **** A turn on a rendered page makes no failed navigation *)

Lemma adds_inline_and_fallback p url seen :
  adds calm (inline_and_fallback urljoin w lim p url seen).
Proof.
  unfold inline_and_fallback.
  apply adds_bind; [apply adds_get_run|]. intros s.
  destruct (_ && _); [|apply adds_ret].
  apply adds_bind.
  { apply adds_for_each. intros. apply adds_inline_step. }
  intros seen'. apply adds_bind; [|intros; apply adds_ret].
  apply adds_catch; [|apply adds_ret].
  apply adds_bind; [|intros; apply adds_ret].
  apply adds_for_each. intros.
  apply adds_fallback_dom_step, calm_admits_http.
Qed.

Lemma adds_dom_and_advance p url seen :
  adds calm (dom_and_advance urljoin lim p url seen).
Proof.
  unfold dom_and_advance.
  apply adds_bind; [apply adds_emit; reflexivity|]. intros _.
  apply adds_bind.
  { apply adds_for_each. intros. apply adds_dom_step. }
  intros seen'.
  apply adds_bind; [apply adds_emit; reflexivity|]. intros _.
  adds_auto.
Qed.

Lemma adds_rendered_turn p url seen :
  adds calm (rendered_turn urljoin w lim p url seen).
Proof.
  assert (Tail : forall seen',
             adds calm
               (bindM (inline_and_fallback urljoin w lim p url seen')
                      (fun seen'' => dom_and_advance urljoin lim p url seen''))).
  { intros seen'. apply adds_bind; [apply adds_inline_and_fallback|].
    intros. apply adds_dom_and_advance. }
  unfold rendered_turn.
  do 8 (apply adds_bind; [adds_step|]; intros _).
  apply adds_bind; [apply adds_get_run|]. intros s.
  destruct (_ && _); [|apply Tail].
  apply adds_bind; [apply adds_lift|]. intros harvested.
  destruct (negb (is_nil harvested)); [|apply Tail].
  apply adds_bind.
  { apply adds_for_each. intros. apply adds_net_step. }
  intros seen'. apply adds_bind; [apply adds_get_run|]. intros s'.
  destruct (negb (is_nil (results s'))); [|apply Tail].
  apply adds_bind; [apply adds_emit; reflexivity|]. intros _.
  destruct (h_next (p_html p)) as [h|]; [destruct (non_empty h)|]; apply adds_ret.
Qed.

(** **** After a failed navigation *)

(** What follows the HTTP fetch makes no call on the browser, and ends the
    function: it returns or raises. *)
Lemma nav_failure_calls cfg url s :
  exists q,
    trace (fst (nav_failure w lim cfg url s))
      = (trace s ++ EvHttpFetch url :: q)%list /\
    Forall (fun e => off_browser e = true) q /\
    (snd (nav_failure w lim cfg url s) = Ok CtlReturn \/
     exists e, snd (nav_failure w lim cfg url s) = Raise e).
Proof.
  set (s1 := {| results := results s; mongo_docs := mongo_docs s;
                net_bucket := net_bucket s;
                trace := (trace s ++ [EvHttpFetch url])%list |}).
  set (after := fun html : html_doc =>
         bindM (for_each (nav_fallback_step lim url)
                  (_mine_inline_scripts (h_scripts html)) [])
               (fun _ => bindM (persist cfg) (fun _ => ret CtlReturn))).
  assert (Eq : nav_failure w lim cfg url s
               = match w_fetch w url with
                 | None => (s1, Raise HTTPError)
                 | Some html => after html s1
                 end).
  { unfold nav_failure, bindM at 1. cbn [emit]. fold s1.
    destruct (w_fetch w url); reflexivity. }
  rewrite Eq. clear Eq.
  assert (T1 : forall ev, (trace s1 ++ ev = trace s ++ EvHttpFetch url :: ev)%list).
  { intros ev. unfold s1. cbn [trace]. rewrite <- app_assoc. reflexivity. }
  destruct (w_fetch w url) as [html|].
  - assert (A : adds off_browser (after html)).
    { apply adds_bind.
      { apply adds_for_each. intros. apply adds_nav_fallback_step. }
      intros _. apply adds_bind; [apply adds_persist, off_browser_admits_http|].
      intros. apply adds_ret. }
    destruct (A s1) as [q [H F]]. exists q.
    split; [rewrite H; apply T1|]. split; [exact F|].
    unfold after, bindM.
    destruct (for_each (nav_fallback_step lim url)
                (_mine_inline_scripts (h_scripts html)) [] s1) as [s2 [x|e]];
      [|right; eexists; reflexivity].
    destruct (persist cfg s2) as [s3 [y|e]]; [left|right; eexists]; reflexivity.
  - exists []. split; [reflexivity|]. split; [constructor|].
    right. eexists. reflexivity.
Qed.

(** *** De-escalation *)

Lemma deescalated_calm (l l2 : list event) :
  Forall (fun e => calm e = true) l ->
  deescalated l2 -> deescalated (l ++ l2).
Proof.
  induction 1 as [|e l He Hl IH]; intros H2; [exact H2|].
  destruct e as [| | |u [|]| | | | | | | | | | |]; simpl in *;
    try discriminate; auto.
Qed.

Lemma settled_nil : settled [].
Proof.
  intros tail H. rewrite <- (app_nil_r ([] ++ tail)).
  apply deescalated_calm; [apply off_browser_calm, H | exact I].
Qed.

Lemma settled_calm (l ev : list event) :
  Forall (fun e => calm e = true) l -> settled ev -> settled (l ++ ev).
Proof.
  intros Hl Hev tail Ht. rewrite <- app_assoc.
  apply deescalated_calm; [exact Hl | apply Hev, Ht].
Qed.

Lemma settled_failed_turn (url : string) (q : list event) :
  Forall (fun e => off_browser e = true) q ->
  settled (EvGoto url false :: EvHttpFetch url :: q).
Proof.
  intros Hq tail Ht. simpl. exists (q ++ tail)%list.
  split; [reflexivity|]. apply off_browser_false.
  apply Forall_app. split; assumption.
Qed.

(** The calls of one turn of the page loop: either no failed navigation, or
    a failed navigation, the HTTP fetch and calls off the browser, and then
    the loop is left. *)
Lemma page_turn_calls cfg idx url seen s :
  exists ev,
    trace (fst (page_turn urljoin w lim cfg idx url seen s)) = (trace s ++ ev)%list /\
    settled ev /\
    (Forall (fun e => calm e = true) ev \/
     snd (page_turn urljoin w lim cfg idx url seen s) = Ok CtlReturn \/
     exists e, snd (page_turn urljoin w lim cfg idx url seen s) = Raise e).
Proof.
  unfold page_turn. destruct (w_goto w idx url) as [|p].
  - unfold bindM at 1. cbn [emit].
    set (s1 := {| results := results s; mongo_docs := mongo_docs s;
                  net_bucket := net_bucket s;
                  trace := (trace s ++ [EvGoto url false])%list |}).
    destruct (nav_failure_calls cfg url s1) as (q & H & F & R).
    exists (EvGoto url false :: EvHttpFetch url :: q). split; [|split].
    + rewrite H. unfold s1. cbn [trace]. rewrite <- app_assoc. reflexivity.
    + apply settled_failed_turn, F.
    + right. unfold bindM, emit in R |- *. fold s1. exact R.
  - assert (A : adds calm (bindM (emit (EvGoto url true))
                                 (fun _ => rendered_turn urljoin w lim p url seen))).
    { apply adds_bind; [apply adds_emit; reflexivity|]. intros _.
      apply adds_rendered_turn. }
    destruct (A s) as [ev [H F]]. exists ev. split; [exact H|]. split.
    + rewrite <- (app_nil_r ev). apply settled_calm; [exact F | apply settled_nil].
    + left. exact F.
Qed.

(** The calls of the page loop. *)
Lemma page_loop_calls cfg n :
  forall idx url seen s,
  exists ev,
    trace (fst (page_loop urljoin w lim cfg n idx url seen s))
      = (trace s ++ ev)%list /\
    settled ev.
Proof.
  induction n as [|k IH]; intros idx url seen s.
  - exists []. rewrite app_nil_r. split; [reflexivity | apply settled_nil].
  - simpl. unfold bindM at 1.
    destruct (page_turn_calls cfg idx url seen s) as (ev1 & Ht & Hs & Hcase).
    destruct (page_turn urljoin w lim cfg idx url seen s) as [s1 r1].
    cbn [fst snd] in Ht, Hcase.
    destruct r1 as [[url' seen'|seen'|]|e];
      try (exists ev1; split; [exact Ht | exact Hs]).
    destruct Hcase as [Hc | [Hr | [e Hr]]]; try discriminate.
    destruct (IH (S idx) url' seen' s1) as [ev2 [He Hs2]].
    exists (ev1 ++ ev2)%list. split.
    + rewrite He, Ht, app_assoc. reflexivity.
    + apply settled_calm; assumption.
Qed.

(** The calls of a whole run keep the ladder de-escalated. *)
Lemma collect_estately_deescalated cfg market n :
  deescalated (fst (run_collect urljoin w lim cfg market n)).
Proof.
  unfold run_collect.
  destruct (collect_estately urljoin w lim cfg market n empty_run) as [sf rf] eqn:E.
  cbn [fst]. unfold collect_estately, bindM at 1, lift in E.
  destruct (search_url lim market) as [url|e].
  - destruct (negb (playwright_available cfg)).
    + assert (A : adds calm
                    (bindM (http_only_pages urljoin w lim n url)
                           (fun _ => bindM (persist cfg) (fun _ => current_results)))).
      { apply adds_bind; [apply adds_http_only_pages, calm_admits_http|].
        intros _. apply adds_bind; [apply adds_persist, calm_admits_http|].
        intros _. apply adds_current_results. }
      destruct (A empty_run) as [ev [H F]]. rewrite E in H. cbn [fst] in H.
      rewrite H. simpl. rewrite <- (app_nil_r ev).
      apply deescalated_calm; [exact F | exact I].
    + unfold bindM at 1 in E. cbn [emit] in E. unfold finally in E.
      unfold bindM at 1 in E. cbn [emit] in E.
      unfold bindM at 1 in E. cbn [emit] in E.
      unfold bindM at 1 in E.
      match type of E with
      | context [page_loop urljoin w lim cfg n 0 url [] ?s0] =>
          destruct (page_loop_calls cfg n 0%nat url [] s0) as [ev [Hl Hs]];
          destruct (page_loop urljoin w lim cfg n 0 url [] s0) as [s1 r1]
      end.
      cbn [fst trace empty_run app] in Hl.
      assert (Tail : forall (m : M (list PropertyCard)) s2 r2,
                 adds off_browser m -> m s1 = (s2, r2) ->
                 deescalated (trace s2 ++ [EvClose])).
      { intros m s2 r2 Hm Em. destruct (Hm s1) as [ev2 [H2 F2]].
        rewrite Em in H2. cbn [fst] in H2. rewrite H2, Hl.
        rewrite <- !app_assoc. simpl.
        apply Hs. apply Forall_app. split; [exact F2|].
        constructor; [reflexivity | constructor]. }
      destruct r1 as [[[url' seen]|]|e].
      * match type of E with
        | (let '(s', r) := ?m s1 in _) = _ =>
            destruct (m s1) as [s2 r2] eqn:Em; injection E as <- <-;
            cbn [fst emit trace];
            apply (Tail m s2 r2); [|exact Em]
        end.
        apply adds_bind; [apply adds_final_fallback|]. intros _.
        apply adds_bind; [apply adds_persist, off_browser_admits_http|].
        intros _. apply adds_current_results.
      * match type of E with
        | (let '(s', r) := ?m s1 in _) = _ =>
            destruct (m s1) as [s2 r2] eqn:Em; injection E as <- <-;
            cbn [fst emit trace];
            apply (Tail m s2 r2); [|exact Em]
        end.
        apply adds_current_results.
      * injection E as <- <-. cbn [fst emit trace]. rewrite Hl. simpl.
        apply Hs. constructor; [reflexivity | constructor].
  - injection E as <- <-. exact I.
Qed.

End Calls.

Lemma deescalated_split (pre post : list Scraper.event) (u : string) :
  Ladder.deescalated (pre ++ Scraper.EvGoto u false :: post) ->
  exists rest,
    post = Scraper.EvHttpFetch u :: rest /\
    Forall (fun e => Ladder.browser_call e = false) rest.
Proof.
  intros H. induction pre as [|e pre IH].
  - exact H.
  - destruct e as [| | |u' [|]| | | | | | | | | | |]; simpl in H;
      try (apply IH; exact H).
    destruct H as [rest' [E F]]. exfalso.
    destruct pre as [|e' pre']; simpl in E; [discriminate|].
    injection E as _ <-.
    apply Forall_app in F. destruct F as [_ F].
    inversion F as [|x l Hx Hl]. discriminate.
Qed.



(** C9 (as the code has it).  After a failed navigation the run does not
    fall back to the HTTP-only harvest: it fetches the page over HTTP, reads
    the inline scripts only, and returns.  On a site whose page has its
    listing as a card and whose browser navigation fails, the run with the
    browser makes one navigation and one fetch and returns nothing, where
    the HTTP-only run of the same site returns the card; and when the fetch
    fails too the run raises, where the HTTP-only run returns the empty
    list. *)
Theorem C9_failed_navigation_reads_inline_scripts_only :
  Scraper.run_collect Inputs.join_rooted Samples.world_dom_only
    Inputs.default_limits Inputs.with_browser "Phoenix, AZ" 2
  = ([Scraper.EvLaunch; Scraper.EvNewPage; Scraper.EvHook;
      Scraper.EvGoto Samples.phoenix_url false;
      Scraper.EvHttpFetch Samples.phoenix_url; Scraper.EvClose], Ok []) /\
  (exists c,
      snd (Scraper.run_collect Inputs.join_rooted Samples.world_dom_only
             Inputs.default_limits Inputs.http_only "Phoenix, AZ" 2) = Ok [c] /\
      Scraper.address c = PStr "1 Main St" /\
      Scraper.listing_price c = PFloat (Dec 700000 0)) /\
  snd (Scraper.run_collect Inputs.join_rooted Samples.world_offline
         Inputs.default_limits Inputs.with_browser "Phoenix, AZ" 2)
    = Raise HTTPError /\
  snd (Scraper.run_collect Inputs.join_rooted Samples.world_offline
         Inputs.default_limits Inputs.http_only "Phoenix, AZ" 2) = Ok [].
Proof.
  split; [vm_compute; reflexivity|].
  split; [eexists; split; [vm_compute; reflexivity|]; split; reflexivity|].
  split; vm_compute; reflexivity.
Qed.

(** *** The search URL *)

Lemma quote_plus_digits (d : Decimal.uint) :
  Filters.quote_plus (NilEmpty.string_of_uint d) = NilEmpty.string_of_uint d.
Proof. induction d; simpl; try rewrite IHd; reflexivity. Qed.

(** A decimal numeral is left as it is by [quote_plus]. *)
Lemma quote_plus_str_of_Z (z : Z) :
  Filters.quote_plus (str_of_Z z) = str_of_Z z.
Proof.
  unfold str_of_Z, NilZero.string_of_int, NilZero.string_of_uint.
  destruct (Z.to_int z) as [d|d]; destruct d; simpl;
    try rewrite quote_plus_digits; reflexivity.
Qed.

(* ===================================================================== *)
(** ** Further properties of the code                                     *)
(* ===================================================================== *)


(** *** Characters of a text *)

Lemma chars_app (a b : string) : chars (a ++ b) = (chars a ++ chars b)%list.
Proof. unfold chars. induction a as [|c a IH]; simpl; [|rewrite IH]; reflexivity. Qed.

Lemma occurrences_app (c : ascii) (a b : string) :
  occurrences c (a ++ b) = (occurrences c a + occurrences c b)%nat.
Proof. unfold occurrences. rewrite chars_app. apply count_occ_app. Qed.

Lemma length_smap (f : ascii -> ascii) (s : string) :
  String.length (smap f s) = String.length s.
Proof. induction s as [|c s IH]; simpl; [|rewrite IH]; reflexivity. Qed.

Lemma lower_ascii_idem (c : ascii) : lower_ascii (lower_ascii c) = lower_ascii c.
Proof. destruct c as [[] [] [] [] [] [] [] []]; reflexivity. Qed.

Lemma lower_idem (s : string) : lower (lower s) = lower s.
Proof.
  unfold lower. induction s as [|c s IH]; simpl;
    [|rewrite IH, lower_ascii_idem]; reflexivity.
Qed.

Lemma chars_srev_onto (Q : ascii -> Prop) (s acc : string) :
  Forall Q (chars s) -> Forall Q (chars acc) -> Forall Q (chars (srev_onto s acc)).
Proof.
  revert acc. induction s as [|c s IH]; intros acc Hs Ha; [exact Ha|].
  simpl. inversion Hs as [|x l Hc Hl]. subst.
  apply IH; [exact Hl|]. constructor; assumption.
Qed.

Lemma chars_srev (Q : ascii -> Prop) (s : string) :
  Forall Q (chars s) -> Forall Q (chars (srev s)).
Proof. intros H. apply chars_srev_onto; [exact H | constructor]. Qed.

Lemma chars_drop_while (Q : ascii -> Prop) (p : ascii -> bool) (s : string) :
  Forall Q (chars s) -> Forall Q (chars (sdrop_while p s)).
Proof.
  induction s as [|c s IH]; intros H; [exact H|].
  simpl. destruct (p c); [|exact H].
  inversion H; subst. apply IH. assumption.
Qed.

Lemma chars_strip (Q : ascii -> Prop) (s : string) :
  Forall Q (chars s) -> Forall Q (chars (strip s)).
Proof.
  intros H. unfold strip, rstrip, lstrip.
  apply chars_srev, chars_drop_while, chars_srev, chars_drop_while, H.
Qed.

Lemma chars_smap (Q : ascii -> Prop) (f : ascii -> ascii) (s : string) :
  (forall c, Q (f c)) -> Forall Q (chars (smap f s)).
Proof.
  intros H. induction s as [|c s IH]; simpl; constructor; [apply H | exact IH].
Qed.

(** *** Markets *)

Lemma split_on_length (c : ascii) (s : string) :
  List.length (split_on c s) = S (occurrences c s).
Proof.
  unfold occurrences, chars. induction s as [|x s IH]; [reflexivity|].
  simpl. destruct (ascii_dec x c) as [->|N].
  - rewrite Ascii.eqb_refl. simpl. rewrite IH. reflexivity.
  - apply Ascii.eqb_neq in N. rewrite N.
    destruct (split_on c s); simpl in *; [discriminate | exact IH].
Qed.

Lemma assoc_values (P : string -> Prop) (l : list (string * string))
  (k v : string) :
  Forall (fun kv => P (snd kv)) l -> Filters.assoc k l = Some v -> P v.
Proof.
  induction 1 as [|[k' v'] r Hh Hr IH]; simpl; [discriminate|].
  destruct (String.eqb k k'); [|exact IH].
  intros E. injection E as <-. exact Hh.
Qed.

Lemma state_codes :
  Forall (fun kv => String.length (snd kv) = 2%nat /\ lower (snd kv) = snd kv)
         Filters.STATE_TO_ABBR.
Proof. repeat constructor. Qed.

Lemma parse_market_code (market st city : string) :
  Filters.parse_market market = Ok (st, city) ->
  String.length st = 2%nat /\ lower st = st.
Proof.
  unfold Filters.parse_market.
  destruct (List.map strip (split_on "," market)) as [|a [|b [|x r]]];
    try discriminate.
  destruct (Nat.eqb (String.length (strip b)) 2) eqn:E.
  - intros H. injection H as <- _. apply Nat.eqb_eq in E. split.
    + unfold lower. rewrite length_smap. exact E.
    + apply lower_idem.
  - destruct (Filters.assoc _ _) as [v|] eqn:A; [|discriminate].
    destruct (non_empty v); [|discriminate].
    intros H. injection H as <- _.
    exact (assoc_values (fun v => String.length v = 2%nat /\ lower v = v)
             _ _ _ state_codes A).
Qed.

Lemma parse_market_commas (market : string) (r : string * string) :
  Filters.parse_market market = Ok r -> occurrences "," market = 1%nat.
Proof.
  unfold Filters.parse_market. intros H.
  assert (L : List.length (List.map strip (split_on "," market)) = 2%nat).
  { destruct (List.map strip (split_on "," market)) as [|a [|b [|x l]]];
      try discriminate. reflexivity. }
  rewrite length_map, split_on_length in L. injection L as L. exact L.
Qed.

(** X1.  The state code of an accepted market has two characters and no
    upper-case letter, whether it was given as a code or looked up from the
    state's name. *)
Theorem X1_market_state_code_is_two_lower_case_characters :
  forall (market st city : string),
    Filters.parse_market market = Ok (st, city) ->
    String.length st = 2%nat /\ lower st = st.
Proof. exact parse_market_code. Qed.

Lemma X1_market_state_code_is_two_lower_case_characters_witness :
  Filters.parse_market "Paradise Valley, Arizona" = Ok ("az", "paradise-valley") /\
  String.length "az" = 2%nat /\ lower "az" = "az".
Proof.
  split; [reflexivity|].
  apply (X1_market_state_code_is_two_lower_case_characters
           "Paradise Valley, Arizona" "az" "paradise-valley").
  reflexivity.
Defined.

(** X2.  A market is accepted only when it has exactly one comma: a text
    without a comma, or with two or more, makes [parse_market] raise
    [ValueError]. *)
Theorem X2_market_without_exactly_one_comma_is_refused :
  forall (market : string),
    occurrences "," market <> 1%nat ->
    Filters.parse_market market = Raise ValueError.
Proof.
  intros market H.
  destruct (Filters.parse_market market) as [r|e] eqn:E.
  - exfalso. apply H. exact (parse_market_commas market r E).
  - revert E. unfold Filters.parse_market.
    destruct (List.map strip (split_on "," market)) as [|a [|b [|x l]]];
      try (intros E; injection E as <-; reflexivity).
    destruct (Nat.eqb _ 2); [discriminate|].
    destruct (Filters.assoc _ _) as [v|]; [destruct (non_empty v)|];
      try discriminate; intros E; injection E as <-; reflexivity.
Qed.

Lemma X2_market_without_exactly_one_comma_is_refused_witness :
  occurrences "," "Washington, D.C., DC" = 2%nat /\
  Filters.parse_market "Washington, D.C., DC" = Raise ValueError.
Proof.
  split; [reflexivity|].
  apply X2_market_without_exactly_one_comma_is_refused.
  vm_compute. discriminate.
Defined.

(** *** The query string *)

Lemma quote_char_safe (c : ascii) :
  Forall (fun x => url_safe x = true) (chars (Filters.quote_char c)).
Proof.
  apply Forall_forall. apply forallb_forall.
  destruct c as [[] [] [] [] [] [] [] []]; vm_compute; reflexivity.
Qed.

Lemma quote_plus_safe (s : string) :
  Forall (fun x => url_safe x = true) (chars (Filters.quote_plus s)).
Proof.
  induction s as [|c s IH]; simpl; [constructor|].
  rewrite chars_app. apply Forall_app. split; [apply quote_char_safe | exact IH].
Qed.

Lemma occurrences_unsafe (c : ascii) (s : string) :
  url_safe c = false ->
  Forall (fun x => url_safe x = true) (chars s) ->
  occurrences c s = 0%nat.
Proof.
  intros Hc Hs. unfold occurrences. apply count_occ_not_In. intros Hin.
  rewrite Forall_forall in Hs. rewrite (Hs c Hin) in Hc. discriminate.
Qed.

Lemma join_occurrences (c : ascii) (sep : string) (n : nat) (l : list string) :
  Forall (fun x => occurrences c x = n) l ->
  occurrences c (join sep l)
  = (List.length l * n + (List.length l - 1) * occurrences c sep)%nat.
Proof.
  unfold join. induction 1 as [|x r Hx Hr IH]; [reflexivity|].
  destruct r as [|y r].
  - simpl. rewrite Hx. lia.
  - change (String.concat sep (x :: y :: r))
      with (x ++ sep ++ String.concat sep (y :: r)).
    rewrite !occurrences_app, IH, Hx. cbn [List.length Nat.sub].
    rewrite !Nat.sub_0_r, !Nat.mul_succ_l. lia.
Qed.

Lemma join_chars (Q : ascii -> Prop) (sep : string) (l : list string) :
  Forall Q (chars sep) ->
  Forall (fun x => Forall Q (chars x)) l ->
  Forall Q (chars (join sep l)).
Proof.
  intros Hsep. unfold join. induction 1 as [|x r Hx Hr IH]; [constructor|].
  destruct r as [|y r]; [exact Hx|].
  change (String.concat sep (x :: y :: r))
    with (x ++ sep ++ String.concat sep (y :: r)).
  rewrite !chars_app.
  apply Forall_app; split; [exact Hx|].
  apply Forall_app; split; [exact Hsep | exact IH].
Qed.

(** X3.  Whatever the keys and the values of the parameters are, the query
    string built by [urlencode] has one [=] per parameter and one [&]
    between two parameters, and nothing but these and the characters that
    [quote_plus] lets through: a value cannot add, split or end a
    parameter. *)
Theorem X3_query_string_has_one_pair_per_parameter :
  forall (params : dict),
    occurrences "=" (Filters.urlencode params) = List.length params /\
    occurrences "&" (Filters.urlencode params) = (List.length params - 1)%nat /\
    Forall (fun c => url_safe c = true \/ c = "="%char \/ c = "&"%char)
           (chars (Filters.urlencode params)).
Proof.
  intros params.
  assert (E : Filters.urlencode params = join "&" (List.map query_piece params))
    by reflexivity.
  rewrite E. clear E.
  assert (Heq : Forall (fun x => occurrences "=" x = 1%nat)
                       (List.map query_piece params)).
  { apply Forall_forall. intros x Hx. apply in_map_iff in Hx.
    destruct Hx as [kv [<- _]]. unfold query_piece.
    rewrite !occurrences_app.
    rewrite (occurrences_unsafe "=" (Filters.quote_plus (fst kv)))
      by (reflexivity || apply quote_plus_safe).
    rewrite (occurrences_unsafe "=" (Filters.quote_plus (str (snd kv))))
      by (reflexivity || apply quote_plus_safe).
    reflexivity. }
  assert (Hamp : Forall (fun x => occurrences "&" x = 0%nat)
                        (List.map query_piece params)).
  { apply Forall_forall. intros x Hx. apply in_map_iff in Hx.
    destruct Hx as [kv [<- _]]. unfold query_piece.
    rewrite !occurrences_app.
    rewrite (occurrences_unsafe "&" (Filters.quote_plus (fst kv)))
      by (reflexivity || apply quote_plus_safe).
    rewrite (occurrences_unsafe "&" (Filters.quote_plus (str (snd kv))))
      by (reflexivity || apply quote_plus_safe).
    reflexivity. }
  split; [|split].
  - rewrite (join_occurrences _ _ _ _ Heq), length_map.
    change (occurrences "=" "&") with 0%nat. lia.
  - rewrite (join_occurrences _ _ _ _ Hamp), length_map.
    change (occurrences "&" "&") with 1%nat. lia.
  - apply join_chars; [constructor; [right; right; reflexivity | constructor]|].
    apply Forall_forall. intros x Hx. apply in_map_iff in Hx.
    destruct Hx as [kv [<- _]]. unfold query_piece.
    rewrite !chars_app.
    apply Forall_app; split; [|apply Forall_app; split].
    + eapply Forall_impl; [|apply quote_plus_safe]. intros; auto.
    + constructor; [right; left; reflexivity | constructor].
    + eapply Forall_impl; [|apply quote_plus_safe]. intros; auto.
Qed.

(** *** Slugs *)

Lemma words_aux_chars (Q : ascii -> Prop) (s : string) :
  forall cur,
    (forall c, In c (chars s) -> is_space c = false -> Q c) ->
    Forall Q (chars cur) ->
    Forall (fun w => Forall Q (chars w)) (words_aux s cur).
Proof.
  unfold chars. induction s as [|x s IH]; intros cur Hs Hc; simpl.
  - destruct (String.eqb cur ""); constructor;
      [apply chars_srev; exact Hc | constructor].
  - assert (Hs' : forall c, In c (list_ascii_of_string s) ->
                            is_space c = false -> Q c)
      by (intros c Hin; apply Hs; right; exact Hin).
    destruct (is_space x) eqn:E.
    + destruct (String.eqb cur "").
      * apply IH; [exact Hs' | constructor].
      * constructor; [apply chars_srev; exact Hc|].
        apply IH; [exact Hs' | constructor].
    + apply IH; [exact Hs'|].
      simpl. constructor; [apply Hs; [left; reflexivity | exact E] | exact Hc].
Qed.

Lemma slug_chars (s : string) :
  Forall (fun c => slug_char c = true) (chars (Filters._slug s)).
Proof.
  unfold Filters._slug. apply join_chars; [constructor; [reflexivity | constructor]|].
  apply words_aux_chars; [|constructor].
  intros c Hin Hsp.
  assert (L : Forall (fun c => lower_ascii c = c) (chars (lower (strip s))))
    by (apply chars_smap, lower_ascii_idem).
  rewrite Forall_forall in L. unfold slug_char.
  rewrite Hsp, (L c Hin), Ascii.eqb_refl. reflexivity.
Qed.

Lemma drop_while_fixed (p : ascii -> bool) (s : string) :
  Forall (fun c => p c = false) (chars s) -> sdrop_while p s = s.
Proof.
  destruct s as [|c s]; [reflexivity|].
  intros H. inversion H as [|x l Hc Hl]. subst. simpl. rewrite Hc. reflexivity.
Qed.

Lemma strip_fixed (s : string) :
  Forall (fun c => is_space c = false) (chars s) -> strip s = s.
Proof.
  intros H. unfold strip, lstrip, rstrip.
  rewrite (drop_while_fixed _ s H).
  rewrite drop_while_fixed by (apply chars_srev; exact H).
  apply srev_involutive.
Qed.

Lemma lower_fixed (s : string) :
  Forall (fun c => lower_ascii c = c) (chars s) -> lower s = s.
Proof.
  unfold lower, chars. induction s as [|c s IH]; intros H; [reflexivity|].
  inversion H as [|x l Hc Hl]. subst. simpl. rewrite Hc, (IH Hl). reflexivity.
Qed.

(** The words of a text without white space: the text itself. *)
Lemma words_aux_solid (t : string) :
  Forall (fun c => is_space c = false) (chars t) ->
  forall cur,
    words_aux t cur
    = match cur, t with
      | EmptyString, EmptyString => []
      | _, _ => [srev cur ++ t]
      end.
Proof.
  unfold chars. induction t as [|x t IH]; intros H cur.
  - simpl. destruct cur; [reflexivity|].
    simpl. rewrite append_empty_r. reflexivity.
  - inversion H as [|y l Hx Hl]. subst. simpl. rewrite Hx.
    rewrite (IH Hl).
    assert (E : srev (String x cur) ++ t = srev cur ++ String x t).
    { unfold srev at 1. simpl. rewrite srev_onto_app, append_assoc. reflexivity. }
    rewrite E. destruct cur; reflexivity.
Qed.

Lemma slug_char_split (c : ascii) :
  slug_char c = true -> is_space c = false /\ lower_ascii c = c.
Proof.
  unfold slug_char. intros H. apply andb_true_iff in H. destruct H as [H1 H2].
  split; [destruct (is_space c); [discriminate|reflexivity]|].
  apply Ascii.eqb_eq. exact H2.
Qed.

Lemma slug_of_slug (t : string) :
  Forall (fun c => slug_char c = true) (chars t) -> Filters._slug t = t.
Proof.
  intros H.
  assert (Hs : Forall (fun c => is_space c = false) (chars t))
    by (eapply Forall_impl; [|exact H]; intros c Hc; apply slug_char_split, Hc).
  assert (Hl : Forall (fun c => lower_ascii c = c) (chars t))
    by (eapply Forall_impl; [|exact H]; intros c Hc; apply slug_char_split, Hc).
  unfold Filters._slug. rewrite (strip_fixed t Hs), (lower_fixed t Hl).
  unfold words. rewrite (words_aux_solid t Hs).
  destruct t; reflexivity.
Qed.

(** X4.  A slug has no white space and no upper-case letter, and slugging
    it again changes nothing. *)
Theorem X4_slug_is_stable :
  forall (s : string),
    Forall (fun c => slug_char c = true) (chars (Filters._slug s)) /\
    Filters._slug (Filters._slug s) = Filters._slug s.
Proof.
  intros s. split; [apply slug_chars|]. apply slug_of_slug, slug_chars.
Qed.

(** *** Thresholds *)

Lemma dec_leb_lower (m m' : Z) (v : dec) :
  m' <= m -> dec_leb (dec_of_Z m) v = true -> dec_leb (dec_of_Z m') v = true.
Proof.
  unfold dec_leb, dec_align, dec_of_Z. cbn [dec_m dec_e]. intros Hm H.
  apply Z.leb_le in H. apply Z.leb_le.
  apply Z.le_trans with (2 := H).
  apply Z.mul_le_mono_nonneg_r; [apply Z.pow_nonneg; lia | exact Hm].
Qed.

Lemma passes_min_lower (val : value) (m m' : Z) :
  m' <= m -> Scraper._passes_min val m = true -> Scraper._passes_min val m' = true.
Proof.
  unfold Scraper._passes_min. destruct (Scraper._coerce_float val); [|reflexivity].
  apply dec_leb_lower.
Qed.

(** X5.  The minimum filter is monotone: a row that passes the thresholds
    of [_passes_min] still passes when any of them is lowered. *)
Theorem X5_lower_thresholds_keep_more :
  forall (lim lim' : Scraper.limits) (d : dict),
    Scraper.min_price lim' <= Scraper.min_price lim ->
    Scraper.min_beds lim' <= Scraper.min_beds lim ->
    Scraper.min_sqft lim' <= Scraper.min_sqft lim ->
    Scraper.passes_mins lim d = true ->
    Scraper.passes_mins lim' d = true.
Proof.
  intros lim lim' d Hp Hb Hs. unfold Scraper.passes_mins. intros H.
  apply andb_true_iff in H. destruct H as [H H3].
  apply andb_true_iff in H. destruct H as [H1 H2].
  rewrite (passes_min_lower _ _ _ Hp H1), (passes_min_lower _ _ _ Hb H2),
          (passes_min_lower _ _ _ Hs H3).
  reflexivity.
Qed.

Lemma X5_lower_thresholds_keep_more_witness :
  Scraper.passes_mins Inputs.default_limits Inputs.row_city_only = true /\
  Scraper.passes_mins Inputs.no_limits Inputs.row_city_only = true.
Proof.
  split; [reflexivity|].
  apply (X5_lower_thresholds_keep_more Inputs.default_limits Inputs.no_limits);
    [simpl; lia | simpl; lia | simpl; lia | reflexivity].
Defined.

(** *** Reading numbers in text *)

Lemma digitpart_eq (c : ascii) (r : string) :
  digitpart (String c r)
  = if is_digit c then
      match r with
      | String u r' =>
          if Ascii.eqb u "_" then
            match r' with
            | String c2 _ =>
                if is_digit c2
                then let '(ds, rest) := digitpart r' in (String c ds, rest)
                else (String c EmptyString, r)
            | EmptyString => (String c EmptyString, r)
            end
          else let '(ds, rest) := digitpart r in (String c ds, rest)
      | EmptyString => (String c EmptyString, EmptyString)
      end
    else (EmptyString, String c r).
Proof. reflexivity. Qed.

Lemma digitpart_digits_upto (n : nat) :
  forall s, (String.length s <= n)%nat ->
    Forall (fun c => is_digit c = true) (chars (fst (digitpart s))).
Proof.
  induction n as [|n IH]; intros s L.
  - destruct s; [constructor | simpl in L; lia].
  - destruct s as [|c r]; [constructor|].
    rewrite digitpart_eq. destruct (is_digit c) eqn:E; [|constructor].
    destruct r as [|u r']; [repeat constructor; exact E|].
    destruct (Ascii.eqb u "_").
    + destruct r' as [|c2 r'']; [repeat constructor; exact E|].
      destruct (is_digit c2); [|repeat constructor; exact E].
      assert (H : Forall (fun c => is_digit c = true)
                         (chars (fst (digitpart (String c2 r''))))).
      { apply IH. simpl in L |- *. lia. }
      destruct (digitpart (String c2 r'')) as [ds rest].
      constructor; [exact E | exact H].
    + assert (H : Forall (fun c => is_digit c = true)
                         (chars (fst (digitpart (String u r'))))).
      { apply IH. simpl in L |- *. lia. }
      destruct (digitpart (String u r')) as [ds rest].
      constructor; [exact E | exact H].
Qed.

Lemma digitpart_digits (s : string) :
  Forall (fun c => is_digit c = true) (chars (fst (digitpart s))).
Proof. apply (digitpart_digits_upto (String.length s)). lia. Qed.

Lemma digit_val_nonneg (c : ascii) : is_digit c = true -> 0 <= digit_val c.
Proof.
  unfold is_digit, digit_val. cbv zeta. intros H. apply andb_true_iff in H.
  destruct H as [H _]. apply N.leb_le in H.
  revert H. generalize (N_of_ascii c). intros n H. lia.
Qed.

Lemma Z_of_digits_acc_nonneg (s : string) :
  Forall (fun c => is_digit c = true) (chars s) ->
  forall acc, 0 <= acc -> 0 <= Z_of_digits_acc s acc.
Proof.
  unfold chars. induction s as [|c s IH]; intros H acc Ha; [exact Ha|].
  inversion H as [|x l Hc Hl]. subst. cbn [Z_of_digits_acc]. apply (IH Hl).
  pose proof (digit_val_nonneg c Hc). lia.
Qed.

Lemma Z_of_digits_nonneg (s : string) :
  Forall (fun c => is_digit c = true) (chars s) -> 0 <= Z_of_digits s.
Proof. intros H. apply Z_of_digits_acc_nonneg; [exact H | lia]. Qed.

(** A text read by [float] without a minus sign in front is not negative. *)
Lemma py_float_unsigned (s : string) (d : dec) :
  fst (read_sign (strip s)) = 1 -> py_float s = Some d -> 0 <= dec_m d.
Proof.
  unfold py_float. destruct (read_sign (strip s)) as [sg body]. cbn [fst].
  intros ->.
  pose proof (digitpart_digits body) as Hip.
  destruct (digitpart body) as [ip r1]. cbn [fst] in Hip.
  assert (Hfp : forall fp r2,
            match r1 with
            | String c r => if Ascii.eqb c "." then digitpart r else (EmptyString, r1)
            | EmptyString => (EmptyString, r1)
            end = (fp, r2) ->
            Forall (fun c => is_digit c = true) (chars fp)).
  { intros fp r2 E. destruct r1 as [|c r].
    - injection E as <- _. constructor.
    - destruct (Ascii.eqb c ".").
      + pose proof (digitpart_digits r) as H. rewrite E in H. exact H.
      + injection E as <- _. constructor. }
  destruct (match r1 with String _ _ => _ | EmptyString => _ end) as [fp r2].
  specialize (Hfp fp r2 eq_refl).
  destruct (non_empty ip || non_empty fp); [|discriminate].
  destruct (read_exponent r2) as [x|]; [|discriminate].
  intros E. injection E as <-. cbn [dec_m].
  assert (N : 0 <= Z_of_digits (ip ++ fp)).
  { apply Z_of_digits_nonneg. rewrite chars_app. apply Forall_app.
    split; assumption. }
  destruct (Z_of_digits (ip ++ fp)); exact N.
Qed.

Lemma chars_sfilter (p : ascii -> bool) (s : string) :
  Forall (fun c => p c = true) (chars (sfilter p s)).
Proof.
  unfold chars. induction s as [|c s IH]; simpl; [constructor|].
  destruct (p c) eqn:E; [constructor; assumption | exact IH].
Qed.

Lemma chars_take_while (p : ascii -> bool) (s : string) :
  Forall (fun c => p c = true) (chars (stake_while p s)).
Proof.
  unfold chars. induction s as [|c s IH]; simpl; [constructor|].
  destruct (p c) eqn:E; [constructor; assumption | constructor].
Qed.

Lemma digit_or_dot_plain (c : ascii) :
  Scraper.is_digit_or_dot c = true ->
  is_space c = false /\ Ascii.eqb c "+" = false /\ Ascii.eqb c "-" = false /\
  Ascii.eqb c "_" = false.
Proof.
  destruct c as [[] [] [] [] [] [] [] []]; vm_compute; intros H;
    try discriminate H; repeat split.
Qed.

Lemma digit_plain (c : ascii) :
  is_digit c = true -> Scraper.is_digit_or_dot c = true.
Proof. unfold Scraper.is_digit_or_dot. intros ->. reflexivity. Qed.

Lemma read_sign_plain (c : ascii) (r : string) :
  Scraper.is_digit_or_dot c = true -> read_sign (String c r) = (1, String c r).
Proof.
  intros H. apply digit_or_dot_plain in H. destruct H as (_ & Hp & Hm & _).
  simpl. rewrite Hp, Hm. reflexivity.
Qed.

Lemma plain_no_space (s : string) :
  Forall (fun c => Scraper.is_digit_or_dot c = true) (chars s) ->
  Forall (fun c => is_space c = false) (chars s).
Proof.
  intros H. eapply Forall_impl; [|exact H].
  intros c Hc. apply digit_or_dot_plain, Hc.
Qed.

(** A text made of digits and dots is read by [float] as it stands: there
    is nothing to strip and no sign. *)
Lemma py_float_plain_nonneg (s : string) (d : dec) :
  Forall (fun c => Scraper.is_digit_or_dot c = true) (chars s) ->
  py_float s = Some d -> 0 <= dec_m d.
Proof.
  intros H. apply py_float_unsigned.
  rewrite (strip_fixed s (plain_no_space s H)).
  destruct s as [|c r]; [reflexivity|].
  inversion H as [|x l Hc Hl]. subst.
  rewrite (read_sign_plain c r Hc). reflexivity.
Qed.

Lemma coerce_text_nonneg (x : value) (d : dec) :
  is_number x = false -> Scraper._coerce_float x = Some d -> 0 <= dec_m d.
Proof.
  intros Hx. unfold Scraper._coerce_float.
  destruct x; try discriminate Hx; cbv iota beta; try discriminate;
    match goal with
    | |- context [non_empty ?s] => destruct (non_empty s); [|discriminate]
    end;
    apply py_float_plain_nonneg, chars_sfilter.
Qed.

Lemma sfilter_app (p : ascii -> bool) (a b : string) :
  sfilter p (a ++ b) = sfilter p a ++ sfilter p b.
Proof.
  induction a as [|c a IH]; [reflexivity|].
  simpl. destruct (p c); simpl; rewrite IH; reflexivity.
Qed.

Lemma sfilter_fixed (p : ascii -> bool) (s : string) :
  Forall (fun c => p c = true) (chars s) -> sfilter p s = s.
Proof.
  unfold chars. induction s as [|c s IH]; intros H; [reflexivity|].
  inversion H as [|x l Hc Hl]. subst. simpl. rewrite Hc, (IH Hl). reflexivity.
Qed.

Lemma chars_sfilter_keeps (Q : ascii -> Prop) (p : ascii -> bool) (s : string) :
  Forall Q (chars s) -> Forall Q (chars (sfilter p s)).
Proof.
  unfold chars. induction s as [|c s IH]; intros H; [constructor|].
  inversion H as [|x l Hc Hl]. subst. simpl.
  destruct (p c); [constructor; [exact Hc | exact (IH Hl)] | exact (IH Hl)].
Qed.

Lemma drop_while_head (p : ascii -> bool) (s : string) (c : ascii) (r : string) :
  sdrop_while p s = String c r -> p c = false.
Proof.
  induction s as [|x s IH]; [discriminate|].
  simpl. destruct (p x) eqn:E; [exact IH|].
  intros H. injection H as <- _. exact E.
Qed.

Lemma drop_while_all (p : ascii -> bool) (s : string) :
  sdrop_while p s = "" <-> Forall (fun c => p c = true) (chars s).
Proof.
  unfold chars. induction s as [|x s IH]; simpl.
  - split; [constructor | reflexivity].
  - destruct (p x) eqn:E.
    + rewrite IH. split; intros H; [constructor; assumption|].
      inversion H; assumption.
    + split; [discriminate|]. intros H. inversion H as [|y l Hx Hl]. subst.
      rewrite Hx in E. discriminate.
Qed.

Lemma digitpart_solid (ds rest : string) :
  Forall (fun c => is_digit c = true) (chars ds) ->
  rest = "" \/ (exists r, rest = String "." r) ->
  digitpart (ds ++ rest) = (ds, rest).
Proof.
  unfold chars. induction ds as [|c ds IH]; intros H Hr.
  - destruct Hr as [->|[r ->]]; reflexivity.
  - inversion H as [|x l Hc Hl]. subst.
    change (String c ds ++ rest) with (String c (ds ++ rest)).
    rewrite digitpart_eq, Hc.
    pose proof (IH Hl Hr) as E.
    destruct ds as [|u ds'].
    + destruct Hr as [->|[r ->]]; reflexivity.
    + inversion Hl as [|y l' Hu Hl']. subst.
      change (String u ds' ++ rest) with (String u (ds' ++ rest)) in E |- *.
      cbv iota.
      destruct (digit_or_dot_plain u (digit_plain u Hu)) as (_ & _ & _ & Hus).
      rewrite Hus, E. reflexivity.
Qed.

(** [float] reads every text of the shape [digits] or [digits.digits], and
    the number read is not negative. *)
Lemma py_float_decimal (c : ascii) (g frac : string) :
  Forall (fun c => is_digit c = true) (chars (String c g)) ->
  frac = "" \/ (exists F, frac = String "." F /\
                          Forall (fun c => is_digit c = true) (chars F)) ->
  exists v, py_float (String c g ++ frac) = Some v /\ 0 <= dec_m v.
Proof.
  intros Hg Hf.
  assert (Hall : Forall (fun c => Scraper.is_digit_or_dot c = true)
                        (chars (String c g ++ frac))).
  { rewrite chars_app. apply Forall_app. split.
    - eapply Forall_impl; [|exact Hg]. intros a. apply digit_plain.
    - destruct Hf as [->|[F [-> HF]]]; [constructor|].
      constructor; [reflexivity|].
      eapply Forall_impl; [|exact HF]. intros a. apply digit_plain. }
  assert (Ex : exists v, py_float (String c g ++ frac) = Some v).
  { unfold py_float.
    rewrite (strip_fixed _ (plain_no_space _ Hall)).
    change (String c g ++ frac) with (String c (g ++ frac)) at 1.
    rewrite read_sign_plain
      by (inversion Hg; subst; apply digit_plain; assumption).
    change (String c (g ++ frac)) with (String c g ++ frac).
    rewrite (digitpart_solid (String c g) frac Hg)
      by (destruct Hf as [->|[F [-> _]]]; [left | right; eexists]; reflexivity).
    destruct Hf as [->|[F [-> HF]]].
    - eexists. reflexivity.
    - pose proof (digitpart_solid F "" HF (or_introl eq_refl)) as E.
      rewrite append_empty_r in E.
      change (if Ascii.eqb "." "." then digitpart F else ("", String "." F))
        with (digitpart F).
      rewrite E. eexists. reflexivity. }
  destruct Ex as [v Hv]. exists v. split; [exact Hv|].
  exact (py_float_plain_nonneg _ _ Hall Hv).
Qed.

Lemma group_char_not_comma (c : ascii) :
  Parsing.is_group_char c = true -> negb (Ascii.eqb c ",") = true ->
  is_digit c = true.
Proof.
  unfold Parsing.is_group_char. destruct (is_digit c); [reflexivity|].
  simpl. destruct (Ascii.eqb c ","); discriminate.
Qed.

Lemma digit_not_comma (c : ascii) :
  is_digit c = true -> negb (Ascii.eqb c ",") = true.
Proof.
  destruct c as [[] [] [] [] [] [] [] []]; vm_compute; intros H;
    (discriminate H || reflexivity).
Qed.

Lemma price_search_none (t : string) :
  Parsing.price_search t = None <->
  Forall (fun c => is_digit c = false) (chars t).
Proof.
  unfold Parsing.price_search.
  pose proof (drop_while_all (fun c => negb (is_digit c)) t) as D.
  destruct (sdrop_while (fun c => negb (is_digit c)) t) as [|c0 r0].
  - split; [intros _|reflexivity].
    eapply Forall_impl; [|apply D; reflexivity].
    intros a Ha. cbv beta in Ha. destruct (is_digit a); [discriminate|reflexivity].
  - split.
    + destruct (match sdrop_while Parsing.is_group_char (String c0 r0) with
                | EmptyString => _ | String _ _ => _ end); discriminate.
    + intros H. exfalso.
      assert (E : String c0 r0 = "") ; [|discriminate].
      apply D. eapply Forall_impl; [|exact H].
      intros a Ha. rewrite Ha. reflexivity.
Qed.

(** The number matched by the pattern of [_first_price] is always read by
    [float]. *)
Lemma price_search_found (t g1 : string) (g2 : option ascii) :
  Parsing.price_search t = Some (g1, g2) ->
  exists v, py_float (remove_char "," g1) = Some v /\ 0 <= dec_m v.
Proof.
  unfold Parsing.price_search.
  destruct (sdrop_while (fun c => negb (is_digit c)) t) as [|c0 r0] eqn:Et;
    [discriminate|].
  assert (Hc0 : is_digit c0 = true).
  { apply drop_while_head in Et. destruct (is_digit c0); [reflexivity|discriminate]. }
  cbv zeta.
  destruct (match sdrop_while Parsing.is_group_char (String c0 r0) with
            | EmptyString => _ | String _ _ => _ end) as [frac r2] eqn:EM.
  intros E. injection E as <- _.
  assert (Hf : frac = "" \/
               (exists F, frac = String "." F /\
                          Forall (fun c => is_digit c = true) (chars F))).
  { destruct (sdrop_while Parsing.is_group_char (String c0 r0)) as [|c r].
    - injection EM as <- _. left. reflexivity.
    - destruct (Ascii.eqb c "." && non_empty (stake_while is_digit r)).
      + injection EM as <- _. right. eexists. split; [reflexivity|].
        apply chars_take_while.
      + injection EM as <- _. left. reflexivity. }
  assert (Hrun : stake_while Parsing.is_group_char (String c0 r0)
                 = String c0 (stake_while Parsing.is_group_char r0)).
  { simpl. unfold Parsing.is_group_char at 1. rewrite Hc0. reflexivity. }
  change (if Parsing.is_group_char c0
          then String c0 (stake_while Parsing.is_group_char r0) else "")
    with (stake_while Parsing.is_group_char (String c0 r0)).
  rewrite Hrun. unfold remove_char. rewrite sfilter_app.
  assert (Hfrac : sfilter (fun x => negb (Ascii.eqb x ",")) frac = frac).
  { destruct Hf as [->|[F [-> HF]]]; [reflexivity|].
    apply sfilter_fixed. constructor; [reflexivity|].
    eapply Forall_impl; [|exact HF]. intros a. apply digit_not_comma. }
  rewrite Hfrac.
  cbn [sfilter]. rewrite (digit_not_comma c0 Hc0).
  apply py_float_decimal; [|exact Hf].
  constructor; [exact Hc0|].
  assert (B : Forall (fun c => Parsing.is_group_char c = true /\
                               negb (Ascii.eqb c ",") = true)
                (chars (sfilter (fun x => negb (Ascii.eqb x ","))
                          (stake_while Parsing.is_group_char r0)))).
  { apply Forall_forall. intros a Ha. split.
    - revert a Ha. apply Forall_forall. apply chars_sfilter_keeps.
      apply chars_take_while.
    - revert a Ha. apply Forall_forall.
      apply (chars_sfilter (fun x => negb (Ascii.eqb x ","))). }
  eapply Forall_impl; [|exact B].
  intros a [H1 H2]. apply group_char_not_comma; assumption.
Qed.

Lemma first_price_text (t : string) :
  (Parsing._first_price (PStr t) = None <->
   Forall (fun c => is_digit c = false) (chars t)) /\
  (forall d, Parsing._first_price (PStr t) = Some d -> 0 <= dec_m d).
Proof.
  unfold Parsing._first_price.
  destruct t as [|c t].
  - split; [split; [constructor | reflexivity] | discriminate].
  - change (negb (truthy (PStr (String c t)))) with false. cbv iota.
    pose proof (price_search_none (String c t)) as N.
    destruct (Parsing.price_search (String c t)) as [[g1 g2]|] eqn:E.
    + destruct (price_search_found _ _ _ E) as [v [Hv Hnn]]. rewrite Hv.
      split.
      * split.
        -- repeat match goal with
                  | |- context [if ?b then _ else _] => destruct b
                  end; discriminate.
        -- intros H. apply N in H. discriminate.
      * intros d.
        repeat match goal with
               | |- context [if ?b then _ else _] => destruct b
               end; intros H; injection H as <-; exact Hnn.
    + split; [|discriminate].
      split; [intros _; apply N; reflexivity | reflexivity].
Qed.







(** *** Substrings *)

Lemma prefix_split (p s : string) :
  String.prefix p s = true <-> exists b, s = p ++ b.
Proof.
  revert s. induction p as [|c p IH]; intros s.
  - split; [intros _; exists s; reflexivity | intros _; destruct s; reflexivity].
  - destruct s as [|x s]; simpl.
    + split; [discriminate | intros [b H]; discriminate].
    + destruct (ascii_dec c x) as [->|N].
      * rewrite IH. split; intros [b H]; exists b;
          [rewrite H; reflexivity | injection H as H; exact H].
      * split; [discriminate|]. intros [b H]. injection H as H _.
        exfalso. apply N. symmetry. exact H.
Qed.

Lemma contains_unfold (tok s : string) :
  contains tok s
  = String.prefix tok s ||
    match s with EmptyString => false | String _ r => contains tok r end.
Proof. destruct s; reflexivity. Qed.

Lemma contains_split (tok s : string) :
  contains tok s = true <-> exists a b, s = a ++ tok ++ b.
Proof.
  split.
  - induction s as [|x s IH]; rewrite contains_unfold; intros H;
      apply orb_true_iff in H; destruct H as [H|H].
    + apply prefix_split in H. destruct H as [b H]. exists "", b. exact H.
    + discriminate.
    + apply prefix_split in H. destruct H as [b H]. exists "", b. exact H.
    + destruct (IH H) as [a [b E]]. exists (String x a), b. rewrite E. reflexivity.
  - intros [a [b ->]]. induction a as [|x a IH].
    + rewrite contains_unfold. apply orb_true_iff. left.
      apply prefix_split. exists b. reflexivity.
    + apply contains_cons. exact IH.
Qed.

Lemma drop_while_app_stop (p : ascii -> bool) (x : string) (c : ascii) (y : string) :
  p c = false ->
  sdrop_while p (x ++ String c y) = sdrop_while p x ++ String c y.
Proof.
  intros H. induction x as [|a x IH]; simpl; [rewrite H; reflexivity|].
  destruct (p a); [exact IH | reflexivity].
Qed.

(** Stripping a text keeps a token whose first and last characters are not
    white space. *)
Lemma strip_keeps_token (tok a b : string) :
  solid_ends tok = true ->
  exists a' b', strip (a ++ tok ++ b) = a' ++ tok ++ b'.
Proof.
  unfold solid_ends. intros H. apply andb_true_iff in H. destruct H as [H1 H2].
  destruct tok as [|c t]; [discriminate|].
  destruct (srev (String c t)) as [|c' t'] eqn:Er; [discriminate|].
  apply negb_true_iff in H1, H2.
  unfold strip, lstrip, rstrip.
  change (String c t ++ b) with (String c (t ++ b)).
  rewrite (drop_while_app_stop _ a c (t ++ b) H1).
  set (a1 := sdrop_while is_space a).
  change (String c (t ++ b)) with (String c t ++ b).
  rewrite srev_app, srev_app, Er.
  rewrite append_assoc.
  change (String c' t' ++ srev a1) with (String c' (t' ++ srev a1)).
  rewrite (drop_while_app_stop _ (srev b) c' (t' ++ srev a1) H2).
  change (String c' (t' ++ srev a1)) with (String c' t' ++ srev a1).
  rewrite <- Er. rewrite srev_app, srev_app, !srev_involutive.
  exists a1, (srev (sdrop_while is_space (srev b))).
  rewrite append_assoc. reflexivity.
Qed.

Lemma contains_strip_solid (tok s : string) :
  solid_ends tok = true -> contains tok s = true -> contains tok (strip s) = true.
Proof.
  intros Hs H. apply contains_split in H. destruct H as [a [b ->]].
  apply contains_split. apply strip_keeps_token. exact Hs.
Qed.

Lemma contains_app_r (tok a b : string) :
  contains tok b = true -> contains tok (a ++ b) = true.
Proof.
  intros H. induction a as [|x a IH]; [exact H|].
  simpl. apply contains_cons. exact IH.
Qed.

Lemma neg_status_solid : forallb solid_ends Scraper.NEG_STATUS = true.
Proof. reflexivity. Qed.

Lemma negative_token_inactive (d : dict) (text tok : string) :
  In tok Scraper.NEG_STATUS ->
  (forall b, Scraper.first_status d Scraper.status_fields <> Some (PBool b)) ->
  (contains tok (lower text) = true ->
   snd (Scraper._extract_status d text) = false) /\
  (forall r, Scraper.first_status d Scraper.status_fields = Some r ->
             contains tok (lower (strip (str r))) = true ->
             snd (Scraper._extract_status d text) = false).
Proof.
  intros Hin Hb.
  assert (Hs : solid_ends tok = true).
  { pose proof neg_status_solid as F. rewrite forallb_forall in F.
    apply F. exact Hin. }
  assert (A : forall s, contains tok (s ++ " " ++ lower text) = true ->
                        any_in Scraper.NEG_STATUS
                          (strip (join " " [s; lower text])) = true).
  { intros s Hc. unfold any_in. apply existsb_exists. exists tok.
    split; [exact Hin|].
    apply contains_strip_solid; [exact Hs | exact Hc]. }
  split.
  - intros Hc.
    assert (A' : forall s, any_in Scraper.NEG_STATUS
                             (strip (join " " [s; lower text])) = true).
    { intros s. apply A. apply contains_app_r.
      apply (contains_app_r tok " "). exact Hc. }
    unfold Scraper._extract_status.
    destruct (Scraper.first_status d Scraper.status_fields) as [r|].
    + destruct r; cbn [snd]; try (rewrite A'; reflexivity).
      exfalso. apply (Hb b). reflexivity.
    + cbn [snd]. rewrite A'. reflexivity.
  - intros r Hr Hc. unfold Scraper._extract_status. rewrite Hr.
    assert (A' : any_in Scraper.NEG_STATUS
                   (strip (join " " [lower (strip (str r)); lower text])) = true).
    { apply A. apply contains_app_l. exact Hc. }
    destruct r; cbn [snd]; try (rewrite A'; reflexivity).
    exfalso. apply (Hb b). exact Hr.
Qed.



(** *** The weak mark *)

Lemma should_keep_eq (row : dict) :
  Parsing.should_keep row
  = truthy (get row "address")
    && truthy (por (get row "price") (get row "href"))
    && negb (truthy (get row "_weak")).
Proof.
  unfold Parsing.should_keep. destruct row as [|kv row]; [reflexivity|].
  change (negb (truthy (PDict (kv :: row)))) with false. cbv iota.
  destruct (truthy (get (kv :: row) "address")); [|reflexivity].
  destruct (truthy (por _ _)); [|reflexivity].
  destruct (truthy (get (kv :: row) "_weak")); reflexivity.
Qed.

(** The weak mark of [parse_card] is set exactly on the rows that
    [should_keep] drops for want of a price and a link. *)
Lemma parse_card_kept (urljoin : string -> string -> string)
  (c : Parsing.card) (out : dict) :
  Parsing.parse_card urljoin c = Ok out ->
  (out = [] \/ truthy (get out "address") = true) /\
  Parsing.should_keep out
  = truthy (get out "address")
    && truthy (por (get out "price") (get out "href")).
Proof.
  intros Hp.
  assert (Hfinal : forall o,
             get o "_weak" = PNone ->
             (if negb (truthy (get o "address")) then Ok []
              else if negb (truthy (por (get o "price") (get o "href")))
                   then Ok (setdefault o "_weak" (PBool true))
                   else Ok o) = Ok out ->
             (out = [] \/ truthy (get out "address") = true) /\
             Parsing.should_keep out
             = truthy (get out "address")
               && truthy (por (get out "price") (get out "href"))).
  { intros o Hw H. rewrite should_keep_eq.
    destruct (truthy (get o "address")) eqn:Ea; cbn [negb] in H.
    - destruct (truthy (por (get o "price") (get o "href"))) eqn:Ep;
        cbn [negb] in H; injection H as <-.
      + rewrite Ea, Ep, Hw. split; [right|]; reflexivity.
      + rewrite !get_setdefault_other by reflexivity.
        rewrite Ea, Ep. split; [right|]; reflexivity.
    - injection H as <-. split; [left|]; reflexivity. }
  unfold Parsing.parse_card in Hp.
  destruct (Parsing.c_sqft c) as [sq|]; [|discriminate].
  cbn [bind] in Hp.
  destruct (Parsing._jsonld_from_card c) as [ld|].
  - destruct (Parsing.backfill_address (Parsing.dom_fields c) ld) as [o1|] eqn:H1;
      [|discriminate].
    cbn [bind] in Hp.
    destruct (Parsing.backfill_price _ ld) as [o4|] eqn:H4; [|discriminate].
    cbn [bind] in Hp.
    apply (Hfinal o4); [|exact Hp].
    rewrite (backfill_price_other _ _ _ _ H4) by reflexivity.
    rewrite backfill_numbers_other by reflexivity.
    rewrite backfill_href_get by reflexivity.
    rewrite (backfill_address_get _ _ _ _ H1) by reflexivity.
    reflexivity.
  - cbn [bind] in Hp. apply (Hfinal (Parsing.dom_fields c)); [reflexivity|exact Hp].
Qed.



Section Rows.
Import Scraper.

(** *** Rows harvested from JSON *)

Lemma str_or_none_shape (v : value) : text_or_none (str_or_none v) = true.
Proof. unfold str_or_none. destruct (is_none v); reflexivity. Qed.

Lemma of_num_shape (o : option dec) : float_or_none (Scraper.of_num o) = true.
Proof. destruct o; reflexivity. Qed.

Lemma int_or_none_shape (v : value) : integer_or_none (int_or_none v) = true.
Proof. unfold int_or_none. destruct (_coerce_float v); reflexivity. Qed.

Lemma row_shape (street : string) (c s z b ba sq h : value) (p : dec) :
  text_or_none c = true -> text_or_none s = true -> text_or_none z = true ->
  float_or_none b = true -> float_or_none ba = true ->
  integer_or_none sq = true -> text_or_none h = true ->
  harvested_row [ ("address", PStr street); ("city", c); ("state", s);
                  ("zip", z); ("price", PFloat p); ("beds", b); ("baths", ba);
                  ("sqft", sq); ("href", h) ] = true.
Proof.
  intros Hc Hs Hz Hb Hba Hsq Hh. unfold harvested_row, get. simpl.
  rewrite Hc, Hs, Hz, Hb, Hba, Hsq, Hh. reflexivity.
Qed.

Lemma fold_result_inv {A S : Type} (Inv : S -> Prop)
  (step : A -> S -> result S) (l : list A) :
  (forall x st st', step x st = Ok st' -> Inv st -> Inv st') ->
  forall s s', fold_result step l s = Ok s' -> Inv s -> Inv s'.
Proof.
  intros Hstep. induction l as [|x r IH]; intros s s' H Hs; simpl in H.
  - injection H as <-. exact Hs.
  - destruct (step x s) as [s1|e] eqn:E; [|discriminate].
    cbn [bind] in H. apply (IH s1 s' H). apply (Hstep x s s1 E Hs).
Qed.

Lemma blob_step_shape (node : dict) (st st' : list blob_key * list dict) :
  blob_step node st = Ok st' ->
  Forall (fun d => harvested_row d = true) (snd st) ->
  Forall (fun d => harvested_row d = true) (snd st').
Proof.
  unfold blob_step. destruct st as [seen_keys out]. cbn [snd].
  destruct (_price_from_any node) as [price|]; [|discriminate].
  cbn [bind].
  destruct (_addr_from_any node) as [addr|];
    [|intros H; injection H as <-; auto].
  destruct price as [price|]; [|intros H; injection H as <-; auto].
  destruct (negb (_looks_active_for_sale node));
    [intros H; injection H as <-; auto|].
  destruct (text_field (get addr "address")) as [street|]; [|discriminate].
  cbn [bind].
  destruct (negb (hashable _)); [discriminate|].
  destruct (existsb _ seen_keys); intros H; injection H as <-; cbn [snd]; auto.
  intros Hout. apply Forall_app. split; [exact Hout|].
  constructor; [|constructor].
  apply row_shape;
    first [apply str_or_none_shape | apply of_num_shape | apply int_or_none_shape].
Qed.

Lemma walker_rows_shape (parsed : option value) (rows : list dict) :
  _extract_listings_from_json_blob parsed = Ok rows ->
  Forall (fun d => harvested_row d = true) rows.
Proof.
  unfold _extract_listings_from_json_blob. destruct parsed as [data|].
  - destruct (fold_result blob_step (_flatten_dicts data) ([], [])) as [st|] eqn:E;
      [|discriminate].
    cbn [bind]. intros H. injection H as <-.
    apply (fold_result_inv
             (fun st => Forall (fun d => harvested_row d = true) (snd st))
             blob_step (_flatten_dicts data) blob_step_shape _ _ E).
    constructor.
  - intros H. injection H as <-. constructor.
Qed.

Lemma map_step_shape (it : value) (out out' : list dict) :
  map_step it out = Ok out' ->
  Forall (fun d => harvested_row d = true) out ->
  Forall (fun d => harvested_row d = true) out'.
Proof.
  unfold map_step. destruct it as [| | | | | |it];
    try (intros H; injection H as <-; auto).
  destruct (vget (por (get it "address") (PDict [])) "street"); [|discriminate].
  cbn [bind].
  destruct (vget (por (get it "address") (PDict [])) "address"); [|discriminate].
  cbn [bind].
  destruct (vget (por (get it "address") (PDict [])) "city"); [|discriminate].
  cbn [bind].
  destruct (vget (por (get it "address") (PDict [])) "state"); [|discriminate].
  cbn [bind].
  destruct (vget (por (get it "address") (PDict [])) "zip"); [|discriminate].
  cbn [bind].
  destruct (vget (por (get it "address") (PDict [])) "zipcode"); [|discriminate].
  cbn [bind].
  destruct (vget (por (get it "address") (PDict [])) "postalCode"); [|discriminate].
  cbn [bind].
  destruct (negb (snd (_extract_status it ""))); [intros H; injection H as <-; auto|].
  destruct (negb _); [intros H; injection H as <-; auto|].
  destruct (map_price it) as [p|]; [|intros H; injection H as <-; auto].
  destruct (text_field _) as [street_txt|]; [|discriminate].
  cbn [bind]. intros H. injection H as <-.
  intros Hout. apply Forall_app. split; [exact Hout|].
  constructor; [|constructor].
  apply row_shape;
    first [apply str_or_none_shape | apply of_num_shape | apply int_or_none_shape].
Qed.

Lemma map_rows_shape (url : string) (parsed : option value) (rows : list dict) :
  _extract_estately_map_properties url parsed = Ok rows ->
  Forall (fun d => harvested_row d = true) rows.
Proof.
  unfold _extract_estately_map_properties.
  destruct (negb (contains "/map/properties" url));
    [intros H; injection H as <-; constructor|].
  destruct parsed as [[| | | | |data|]|];
    try (intros H; injection H as <-; constructor).
  intros H.
  apply (fold_result_inv (fun out => Forall (fun d => harvested_row d = true) out)
           map_step data map_step_shape _ _ H).
  constructor.
Qed.

Lemma mined_rows_shape (scripts : list (option value)) :
  Forall (fun d => harvested_row d = true) (_mine_inline_scripts scripts).
Proof.
  unfold _mine_inline_scripts. apply Forall_flat_map. apply Forall_forall.
  intros data _.
  destruct (_extract_listings_from_json_blob (redumped data)) as [rows|] eqn:E.
  - exact (walker_rows_shape _ _ E).
  - constructor.
Qed.

(** *** The loops over harvested rows do not raise *)

Lemma shape_fields (d : dict) :
  harvested_row d = true ->
  (exists a, get d "address" = PStr a) /\
  text_or_none (get d "city") = true /\ text_or_none (get d "state") = true /\
  (exists p, get d "price" = PFloat p) /\
  get d "_card_text" = PNone.
Proof.
  unfold harvested_row. intros H.
  repeat (apply andb_true_iff in H; destruct H as [H ?]).
  repeat split; try assumption.
  - destruct (get d "address"); try discriminate. eexists. reflexivity.
  - destruct (get d "price"); try discriminate. eexists. reflexivity.
  - destruct (get d "_card_text"); try discriminate. reflexivity.
Qed.

Lemma text_field_ok (v : value) :
  text_or_none v = true -> exists t, text_field v = Ok t.
Proof.
  destruct v; try discriminate; intros _; unfold text_field, por.
  - eexists. reflexivity.
  - destruct (truthy (PStr s)); eexists; reflexivity.
Qed.

Lemma normalize_ok (d : dict) (src : value) :
  harvested_row d = true ->
  exists doc, _normalize_property_from_dict d src = Ok doc.
Proof.
  intros H. destruct (shape_fields d H) as ([a Ha] & Hc & Hs & _ & Ht).
  unfold _normalize_property_from_dict.
  destruct (text_field_ok (get d "address")) as [ta Eta];
    [rewrite Ha; reflexivity|].
  destruct (text_field_ok _ Hc) as [tc Etc].
  destruct (text_field_ok _ Hs) as [ts Ets].
  rewrite Eta, Etc, Ets. cbn [bind]. rewrite Ht.
  change (por PNone (PStr "")) with (PStr ""). cbn [bind].
  destruct (_extract_status d "") as [st act]. eexists. reflexivity.
Qed.

Lemma seen_mem_ok (d : dict) (seen : list key) :
  harvested_row d = true -> exists b, seen_mem (row_key d) seen = Ok b.
Proof.
  intros H. destruct (shape_fields d H) as ([a Ha] & _ & _ & [p Hp] & _).
  unfold seen_mem, row_key. cbn [fst snd]. rewrite Ha, Hp.
  assert (H1 : hashable (por (PStr a) (PStr "")) = true)
    by (unfold por; destruct (truthy (PStr a)); reflexivity).
  assert (H2 : hashable (por (PFloat p) (PInt 0)) = true)
    by (unfold por; destruct (truthy (PFloat p)); reflexivity).
  rewrite H1, H2. eexists. reflexivity.
Qed.

Lemma dedupe_emit_ok (d : dict) (url : string) (seen : list key) (s : run) :
  harvested_row d = true ->
  exists seen', snd (dedupe_emit d d url seen s) = Ok seen'.
Proof.
  intros H. unfold dedupe_emit, bindM, lift.
  destruct (seen_mem_ok d seen H) as [dup ->].
  destruct dup; [eexists; reflexivity|].
  cbn [push_card].
  destruct (normalize_ok d (por (get d "href") (PStr url)) H) as [doc ->].
  eexists. reflexivity.
Qed.

Lemma card_text_ok (d : dict) :
  harvested_row d = true -> card_text_of d = Ok "".
Proof.
  intros H. destruct (shape_fields d H) as (_ & _ & _ & _ & Ht).
  unfold card_text_of. rewrite Ht. reflexivity.
Qed.

Lemma has_min_address_ok (d : dict) :
  harvested_row d = true -> exists b, _has_min_address d = Ok b.
Proof.
  intros H. destruct (shape_fields d H) as ([a Ha] & Hc & Hs & _ & _).
  unfold _has_min_address.
  destruct (text_field_ok (get d "address")) as [ta ->];
    [rewrite Ha; reflexivity|].
  destruct (text_field_ok _ Hc) as [tc ->].
  destruct (text_field_ok _ Hs) as [ts ->].
  eexists. reflexivity.
Qed.

Lemma below_min_price_ok (d : dict) (m : Z) :
  harvested_row d = true -> exists b, below_min (get d "price") m = Ok b.
Proof.
  intros H. destruct (shape_fields d H) as (_ & _ & _ & [p Hp] & _).
  rewrite Hp. unfold below_min, por, lt_int.
  destruct (truthy (PFloat p)); eexists; reflexivity.
Qed.

Section RowLoops.
Variable lim : limits.
Variable url : string.

Lemma inline_step_ok (d : dict) (seen : list key) (s : run) :
  harvested_row d = true ->
  exists seen', snd (inline_step lim url d seen s) = Ok seen'.
Proof.
  intros H. unfold inline_step.
  destruct (negb (passes_mins lim d)); [eexists; reflexivity|].
  destruct (negb (snd (_extract_status d ""))); [eexists; reflexivity|].
  apply dedupe_emit_ok. exact H.
Qed.

Lemma nav_fallback_step_ok (d : dict) (seen : list key) (s : run) :
  harvested_row d = true ->
  exists seen', snd (nav_fallback_step lim url d seen s) = Ok seen'.
Proof.
  intros H. unfold nav_fallback_step.
  destruct (negb (passes_mins lim d)); [eexists; reflexivity|].
  unfold bindM, lift. rewrite (card_text_ok d H).
  destruct (negb (snd (_extract_status d ""))); [eexists; reflexivity|].
  apply dedupe_emit_ok. exact H.
Qed.

Lemma http_inline_step_ok (d : dict) (seen : list key) (s : run) :
  harvested_row d = true ->
  exists seen', snd (http_inline_step lim url d seen s) = Ok seen'.
Proof.
  intros H. unfold http_inline_step.
  destruct (negb (passes_mins lim d)); [eexists; reflexivity|].
  unfold bindM at 1, lift at 1.
  destruct (has_min_address_ok d H) as [ok ->].
  destruct (negb ok); [eexists; reflexivity|].
  unfold bindM, lift. rewrite (card_text_ok d H).
  destruct (negb (snd (_extract_status d ""))); [eexists; reflexivity|].
  apply dedupe_emit_ok. exact H.
Qed.

Lemma net_step_ok (d : dict) (seen : list key) (s : run) :
  harvested_row d = true ->
  exists seen', snd (net_step lim url d seen s) = Ok seen'.
Proof.
  intros H. unfold net_step. unfold bindM, lift.
  destruct (below_min_price_ok d (min_price lim) H) as [low ->].
  destruct low; [eexists; reflexivity|].
  destruct (negb (_passes_min (get d "beds") (min_beds lim)));
    [eexists; reflexivity|].
  destruct (negb (_passes_min (get d "sqft") (min_sqft lim)));
    [eexists; reflexivity|].
  destruct (text_filtered lim ""); [eexists; reflexivity|].
  destruct (negb (snd (_extract_status d ""))); [eexists; reflexivity|].
  apply dedupe_emit_ok. exact H.
Qed.

End RowLoops.

Lemma for_each_ok {I A : Type} (P : I -> Prop) (step : I -> A -> M A)
  (items : list I) :
  (forall x a s, P x -> exists a', snd (step x a s) = Ok a') ->
  Forall P items ->
  forall a s, exists a', snd (for_each step items a s) = Ok a'.
Proof.
  intros Hstep. induction 1 as [|x r Hx Hr IH]; intros a s.
  - eexists. reflexivity.
  - cbn [for_each]. unfold bindM.
    destruct (Hstep x a s Hx) as [a1 E].
    destruct (step x a s) as [s1 r1]. cbn [snd] in E. subst r1.
    apply IH.
Qed.

Lemma harvest_step_shape (b : blob) (acc acc' : list dict) :
  harvest_step b acc = Ok acc' ->
  Forall (fun d => harvested_row d = true) acc ->
  Forall (fun d => harvested_row d = true) acc'.
Proof.
  unfold harvest_step.
  destruct (_extract_estately_map_properties (b_url b) (b_json b)) as [h1|] eqn:E1;
    [|discriminate].
  cbn [bind]. destruct h1 as [|x h1].
  - destruct (_extract_listings_from_json_blob (b_walk b)) as [h2|] eqn:E2;
      [|discriminate].
    cbn [bind]. intros H. injection H as <-. intros Ha.
    apply Forall_app. split; [exact Ha | exact (walker_rows_shape _ _ E2)].
  - intros H. injection H as <-. intros Ha.
    apply Forall_app. split; [exact Ha | exact (map_rows_shape _ _ _ E1)].
Qed.

Lemma harvest_net_shape (bucket : list blob) (rows : list dict) :
  harvest_net bucket = Ok rows ->
  Forall (fun d => harvested_row d = true) rows.
Proof.
  unfold harvest_net. intros H.
  apply (fold_result_inv (fun acc => Forall (fun d => harvested_row d = true) acc)
           harvest_step bucket harvest_step_shape _ _ H).
  constructor.
Qed.

Lemma text_filtered_empty (lim : limits) :
  require_distressed lim = true -> text_filtered lim "" = true.
Proof.
  intros H. unfold text_filtered. rewrite H. apply orb_true_iff. right. reflexivity.
Qed.

Lemma net_step_distressed (lim : limits) (url : string) (d : dict)
  (seen : list key) (s : run) :
  require_distressed lim = true -> harvested_row d = true ->
  net_step lim url d seen s = (s, Ok seen).
Proof.
  intros Hd H. unfold net_step. unfold bindM, lift.
  destruct (below_min_price_ok d (min_price lim) H) as [low ->].
  destruct low; [reflexivity|].
  destruct (negb (_passes_min (get d "beds") (min_beds lim))); [reflexivity|].
  destruct (negb (_passes_min (get d "sqft") (min_sqft lim))); [reflexivity|].
  rewrite (text_filtered_empty lim Hd). reflexivity.
Qed.

Lemma net_loop_distressed (lim : limits) (url : string) (rows : list dict) :
  require_distressed lim = true ->
  Forall (fun d => harvested_row d = true) rows ->
  forall seen s, for_each (net_step lim url) rows seen s = (s, Ok seen).
Proof.
  intros Hd. induction 1 as [|d r Hx Hr IH]; intros seen s; [reflexivity|].
  cbn [for_each]. unfold bindM. rewrite (net_step_distressed lim url d seen s Hd Hx).
  apply IH.
Qed.

End Rows.






(** *** The query of the search URL *)

Lemma take_while_all (p : ascii -> bool) (s : string) :
  Forall (fun c => p c = true) (chars s) -> stake_while p s = s.
Proof.
  unfold chars. induction s as [|c s IH]; intros H; [reflexivity|].
  inversion H as [|x l Hc Hl]. subst. simpl. rewrite Hc, (IH Hl). reflexivity.
Qed.

Lemma occurrences_cons (c x : ascii) (s : string) :
  occurrences c (String x s)
  = ((if Ascii.eqb x c then 1 else 0) + occurrences c s)%nat.
Proof.
  unfold occurrences, chars. simpl.
  destruct (ascii_dec x c) as [->|N].
  - rewrite Ascii.eqb_refl. reflexivity.
  - apply Ascii.eqb_neq in N. rewrite N. reflexivity.
Qed.

Lemma split_on_plain (c : ascii) (x : string) :
  occurrences c x = 0%nat -> split_on c x = [x].
Proof.
  induction x as [|a x IH]; intros H; [reflexivity|].
  rewrite occurrences_cons in H. simpl.
  destruct (Ascii.eqb a c); [discriminate|].
  rewrite (IH H). reflexivity.
Qed.

Lemma split_on_app (c : ascii) (x rest : string) :
  occurrences c x = 0%nat ->
  split_on c (x ++ String c rest) = x :: split_on c rest.
Proof.
  induction x as [|a x IH]; intros H.
  - simpl. rewrite Ascii.eqb_refl. reflexivity.
  - rewrite occurrences_cons in H. simpl.
    destruct (Ascii.eqb a c); [discriminate|].
    rewrite (IH H). reflexivity.
Qed.

Lemma split_join (c : ascii) (l : list string) :
  l <> [] ->
  Forall (fun x => occurrences c x = 0%nat) l ->
  split_on c (join (String c EmptyString) l) = l.
Proof.
  intros Hne H. unfold join. induction H as [|x r Hx Hr IH]; [contradiction|].
  destruct r as [|y r].
  - simpl. apply split_on_plain. exact Hx.
  - change (String.concat (String c EmptyString) (x :: y :: r))
      with (x ++ String c (String.concat (String c EmptyString) (y :: r))).
    rewrite (split_on_app c x _ Hx). rewrite IH by discriminate. reflexivity.
Qed.

Lemma query_piece_no_amp (kv : string * value) :
  occurrences "&" (query_piece kv) = 0%nat.
Proof.
  unfold query_piece. rewrite !occurrences_app.
  rewrite (occurrences_unsafe "&" (Filters.quote_plus (fst kv)))
    by (reflexivity || apply quote_plus_safe).
  rewrite (occurrences_unsafe "&" (Filters.quote_plus (str (snd kv))))
    by (reflexivity || apply quote_plus_safe).
  reflexivity.
Qed.

Lemma urlencode_fields (params : dict) :
  params <> [] ->
  split_on "&" (Filters.urlencode params) = List.map query_piece params.
Proof.
  intros Hne.
  change (Filters.urlencode params) with (join "&" (List.map query_piece params)).
  apply split_join.
  - destruct params; [contradiction | discriminate].
  - apply Forall_forall. intros x Hx. apply in_map_iff in Hx.
    destruct Hx as [kv [<- _]]. apply query_piece_no_amp.
Qed.

Lemma urlencode_alphabet (params : dict) :
  Forall (fun c => url_safe c = true \/ c = "="%char \/ c = "&"%char)
         (chars (Filters.urlencode params)).
Proof.
  change (Filters.urlencode params) with (join "&" (List.map query_piece params)).
  apply join_chars; [constructor; [right; right; reflexivity | constructor]|].
  apply Forall_forall. intros x Hx. apply in_map_iff in Hx.
  destruct Hx as [kv [<- _]]. unfold query_piece.
  rewrite !chars_app.
  apply Forall_app; split; [|apply Forall_app; split].
  + eapply Forall_impl; [|apply quote_plus_safe]. intros; auto.
  + constructor; [right; left; reflexivity | constructor].
  + eapply Forall_impl; [|apply quote_plus_safe]. intros; auto.
Qed.

Lemma url_query_of (base q : string) :
  Urllib.plain_path base = true ->
  Forall (fun c => Urllib.not_char "#" c = true) (chars q) ->
  Urllib.url_query (base ++ "?" ++ q) = q.
Proof.
  unfold Urllib.plain_path. intros Hb Hq.
  rewrite forallb_forall in Hb.
  assert (B1 : Forall (fun c => Urllib.not_char "?" c = true) (chars base)).
  { apply Forall_forall. intros c Hc. specialize (Hb c Hc).
    apply andb_true_iff in Hb. apply Hb. }
  assert (B2 : Forall (fun c => Urllib.not_char "#" c = true) (chars base)).
  { apply Forall_forall. intros c Hc. specialize (Hb c Hc).
    apply andb_true_iff in Hb. apply Hb. }
  unfold Urllib.url_query.
  rewrite take_while_all.
  - change ("?" ++ q) with (String "?" q).
    rewrite (drop_while_app_stop _ base "?" q eq_refl).
    assert (E : sdrop_while (Urllib.not_char "?") base = "")
      by (apply drop_while_all; exact B1).
    rewrite E. reflexivity.
  - rewrite !chars_app. apply Forall_app. split; [exact B2|].
    apply Forall_app. split; [|exact Hq].
    constructor; [reflexivity | constructor].
Qed.

Lemma urlencode_no_hash (params : dict) :
  Forall (fun c => Urllib.not_char "#" c = true)
         (chars (Filters.urlencode params)).
Proof.
  eapply Forall_impl; [|apply urlencode_alphabet].
  intros c [H|[->| ->]]; [|reflexivity|reflexivity].
  destruct (Ascii.eqb c "#") eqn:E.
  - apply Ascii.eqb_eq in E. subst c. discriminate H.
  - unfold Urllib.not_char. rewrite E. reflexivity.
Qed.

Lemma plain_path_app (a b : string) :
  Urllib.plain_path a = true -> Urllib.plain_path b = true ->
  Urllib.plain_path (a ++ b) = true.
Proof.
  unfold Urllib.plain_path. intros Ha Hb. rewrite chars_app, forallb_app, Ha, Hb.
  reflexivity.
Qed.

(** C10 (as stated) fails for an accepted market whose city has a [#] or a
    [?]: the city slug is put in the URL as it is, so that for
    "Phoenix#, AZ" the whole query falls into the fragment and the URL has
    no query parameter, and for "Phoenix?status=sold&x=, AZ" the query
    starts with [status=sold] and has no [min_price] field. *)
Lemma C10_counterexample :
  Filters.parse_market "Phoenix#, AZ" = Ok ("az", "phoenix#") /\
  (exists url,
      Filters.build_search_url "Phoenix#, AZ" Filters.default_args = Ok url /\
      String.prefix "https://www.estately.com/az/phoenix#?min_price=600000" url
        = true /\
      Urllib.url_query url = "") /\
  (exists url,
      Filters.build_search_url "Phoenix?status=sold&x=, AZ" Filters.default_args
        = Ok url /\
      split_on "&" (Urllib.url_query url)
      = ["status=sold"; "x=?min_price=600000"; "min_beds=3"; "min_sqft=1000";
         "property_type=house"; "status=active"; "sort=newest"; "hoa=no";
         "keywords=fixer%2Cforeclosure%2Cshort%2Bsale%2Creo%2Cdistressed"]).
Proof.
  split; [reflexivity|]. split; eexists; (split; [reflexivity|]).
  - split; reflexivity.
  - reflexivity.
Qed.

Lemma optional_max_price (x : string) : optional_field ("max_price=" ++ x).
Proof. exists "max_price". split; [simpl; auto | simpl; destruct x; reflexivity]. Qed.

Lemma optional_hoa (x : string) : optional_field ("hoa=" ++ x).
Proof. exists "hoa". split; [simpl; auto | simpl; destruct x; reflexivity]. Qed.

Lemma optional_keywords (x : string) : optional_field ("keywords=" ++ x).
Proof. exists "keywords". split; [simpl; auto | simpl; destruct x; reflexivity]. Qed.

Lemma search_fields (a : Filters.search_args) :
  exists rest,
    List.map query_piece (Filters.search_params a)
    = List.app
        ["min_price=" ++ str_of_Z (Filters.min_price a);
         "min_beds=" ++ str_of_Z (Filters.min_beds a);
         "min_sqft=" ++ str_of_Z (Filters.min_sqft a);
         "property_type=" ++ Filters.quote_plus (Filters.property_type a);
         "status=active";
         "sort=" ++ Filters.quote_plus (Filters.sort a)] rest /\
    Forall optional_field rest.
Proof.
  unfold Filters.search_params.
  rewrite <- (quote_plus_str_of_Z (Filters.min_price a)).
  rewrite <- (quote_plus_str_of_Z (Filters.min_beds a)).
  rewrite <- (quote_plus_str_of_Z (Filters.min_sqft a)).
  destruct (Filters.max_price a) as [m|];
    [destruct (negb (m =? 0))|];
    destruct (Filters.no_hoa a), (Filters.distressed a);
    (eexists; split; [cbn; reflexivity|]);
    repeat (constructor;
            [first [apply optional_max_price | apply optional_hoa
                   | apply optional_keywords]|]);
    constructor.
Qed.

Lemma search_params_nonempty (a : Filters.search_args) :
  Filters.search_params a <> [].
Proof.
  destruct (search_fields a) as [rest [E _]]. intros H. rewrite H in E.
  discriminate E.
Qed.

(** C10 (amended).  For an accepted market whose state code and city slug
    have neither [?] nor [#], and any arguments, the URL is the market's
    page followed by [?] and its query, and the fields of the query are
    [min_price], [min_beds], [min_sqft] (each with the decimal numeral of
    its argument), [property_type], [status=active] and [sort], in this
    order, then only [max_price], [hoa] and [keywords] fields. *)
Theorem C10_search_url_parameters :
  forall (market : string) (a : Filters.search_args) (st city : string),
    Filters.parse_market market = Ok (st, city) ->
    Urllib.plain_path st = true ->
    Urllib.plain_path city = true ->
    exists url rest,
      Filters.build_search_url market a = Ok url /\
      url = ("https://www.estately.com/" ++ st ++ "/" ++ city) ++ "?"
            ++ Urllib.url_query url /\
      split_on "&" (Urllib.url_query url)
      = List.app
          ["min_price=" ++ str_of_Z (Filters.min_price a);
           "min_beds=" ++ str_of_Z (Filters.min_beds a);
           "min_sqft=" ++ str_of_Z (Filters.min_sqft a);
           "property_type=" ++ Filters.quote_plus (Filters.property_type a);
           "status=active";
           "sort=" ++ Filters.quote_plus (Filters.sort a)] rest /\
      Forall optional_field rest.
Proof.
  intros market a st city Hm Hst Hcity.
  unfold Filters.build_search_url. rewrite Hm. cbn [bind].
  destruct (search_fields a) as [rest [E F]].
  eexists. exists rest. split; [reflexivity|].
  assert (Q : Urllib.url_query
                (("https://www.estately.com/" ++ st ++ "/" ++ city) ++ "?"
                 ++ Filters.urlencode (Filters.search_params a))
              = Filters.urlencode (Filters.search_params a)).
  { apply url_query_of; [|apply urlencode_no_hash].
    apply (plain_path_app "https://www.estately.com/"); [reflexivity|].
    apply plain_path_app; [exact Hst|].
    apply (plain_path_app "/"); [reflexivity | exact Hcity]. }
  rewrite Q. split; [reflexivity|]. split; [|exact F].
  rewrite urlencode_fields by apply search_params_nonempty. exact E.
Qed.

Lemma C10_search_url_parameters_witness :
  exists url rest,
    Filters.build_search_url "Phoenix, AZ" Filters.default_args = Ok url /\
    url = "https://www.estately.com/az/phoenix" ++ "?" ++ Urllib.url_query url /\
    split_on "&" (Urllib.url_query url)
    = List.app ["min_price=600000"; "min_beds=3"; "min_sqft=1000";
                "property_type=house"; "status=active"; "sort=newest"] rest.
Proof.
  destruct (C10_search_url_parameters "Phoenix, AZ" Filters.default_args
              "az" "phoenix" eq_refl eq_refl eq_refl)
    as (url & rest & H1 & H2 & H3 & _).
  exists url, rest. split; [exact H1|]. split; [exact H2 | exact H3].
Defined.

(** *** The calls of a whole run *)

Section SessionCalls.
Import Scraper.
Import Ladder.

Variable urljoin : string -> string -> string.
Variable w : world.
Variable lim : limits.
Variable P : event -> bool.
Hypothesis Hhttp : admits_http P.
Hypothesis Hpage : admits_page P.

Lemma adds_inline_and_fallback_any p url seen :
  adds P (inline_and_fallback urljoin w lim p url seen).
Proof.
  unfold inline_and_fallback.
  apply adds_bind; [apply adds_get_run|]. intros s.
  destruct (_ && _); [|apply adds_ret].
  apply adds_bind.
  { apply adds_for_each. intros. apply adds_inline_step. }
  intros seen'. apply adds_bind; [|intros; apply adds_ret].
  apply adds_catch; [|apply adds_ret].
  apply adds_bind; [|intros; apply adds_ret].
  apply adds_for_each. intros.
  apply adds_fallback_dom_step, Hhttp.
Qed.

Lemma adds_dom_and_advance_any p url seen :
  adds P (dom_and_advance urljoin lim p url seen).
Proof.
  destruct Hpage as (_ & _ & _ & _ & _ & Hc & Hg).
  unfold dom_and_advance.
  apply adds_bind; [apply adds_emit, Hc|]. intros _.
  apply adds_bind.
  { apply adds_for_each. intros. apply adds_dom_step. }
  intros seen'.
  apply adds_bind; [apply adds_emit, Hg|]. intros _.
  destruct (match p_next_attr p with
            | Some h => if non_empty h then Some h else h_next (p_html p)
            | None => h_next (p_html p)
            end) as [h|]; [destruct (non_empty h)|]; apply adds_ret.
Qed.

Lemma adds_rendered_turn_any p url seen :
  adds P (rendered_turn urljoin w lim p url seen).
Proof.
  assert (Tail : forall seen',
             adds P
               (bindM (inline_and_fallback urljoin w lim p url seen')
                      (fun seen'' => dom_and_advance urljoin lim p url seen''))).
  { intros seen'. apply adds_bind; [apply adds_inline_and_fallback_any|].
    intros. apply adds_dom_and_advance_any. }
  destruct Hpage as (H1 & H2 & H3 & H4 & H5 & H6 & _).
  unfold rendered_turn.
  apply adds_bind; [apply adds_push_net|]. intros _.
  apply adds_bind; [apply adds_emit, H1|]. intros _.
  apply adds_bind; [apply adds_emit, H2|]. intros _.
  apply adds_bind; [apply adds_emit, H3|]. intros _.
  apply adds_bind; [apply adds_emit, H4|]. intros _.
  apply adds_bind; [apply adds_emit, H5|]. intros _.
  apply adds_bind; [apply adds_emit, H3|]. intros _.
  apply adds_bind; [apply adds_emit, H6|]. intros _.
  apply adds_bind; [apply adds_get_run|]. intros s.
  destruct (_ && _); [|apply Tail].
  apply adds_bind; [apply adds_lift|]. intros harvested.
  destruct (negb (is_nil harvested)); [|apply Tail].
  apply adds_bind.
  { apply adds_for_each. intros. apply adds_net_step. }
  intros seen'. apply adds_bind; [apply adds_get_run|]. intros s'.
  destruct (negb (is_nil (results s'))); [|apply Tail].
  apply adds_bind; [apply adds_emit, H6|]. intros _.
  destruct (h_next (p_html p)) as [h|]; [destruct (non_empty h)|]; apply adds_ret.
Qed.

Lemma adds_nav_failure_any cfg url : adds P (nav_failure w lim cfg url).
Proof.
  pose proof Hhttp as (Hf & _ & _). unfold nav_failure.
  apply adds_bind; [apply adds_emit, Hf|]. intros _.
  destruct (w_fetch w url); [|apply adds_lift].
  apply adds_bind.
  { apply adds_for_each. intros. apply adds_nav_fallback_step. }
  intros _. apply adds_bind; [apply adds_persist, Hhttp|].
  intros. apply adds_ret.
Qed.

(** One turn of the page loop: one navigation, then calls admitted by
    [P]. *)
Lemma page_turn_one_goto cfg idx url seen s :
  exists b ev,
    trace (fst (page_turn urljoin w lim cfg idx url seen s))
      = (trace s ++ EvGoto url b :: ev)%list /\
    Forall (fun e => P e = true) ev.
Proof.
  unfold page_turn. destruct (w_goto w idx url) as [|p].
  - unfold bindM at 1. cbn [emit].
    match goal with
    | |- context [nav_failure w lim cfg url ?s1] =>
        destruct (adds_nav_failure_any cfg url s1) as [ev [H F]]
    end.
    exists false, ev. split; [|exact F].
    rewrite H. cbn [trace]. rewrite <- app_assoc. reflexivity.
  - unfold bindM at 1. cbn [emit].
    match goal with
    | |- context [rendered_turn urljoin w lim p url seen ?s1] =>
        destruct (adds_rendered_turn_any p url seen s1) as [ev [H F]]
    end.
    exists true, ev. split; [|exact F].
    rewrite H. cbn [trace]. rewrite <- app_assoc. reflexivity.
Qed.

Hypothesis Hgoto : forall u b, P (EvGoto u b) = true.

Lemma adds_page_turn_any cfg idx url seen :
  adds P (page_turn urljoin w lim cfg idx url seen).
Proof.
  intros s. destruct (page_turn_one_goto cfg idx url seen s) as (b & ev & H & F).
  exists (EvGoto url b :: ev). split; [exact H|].
  constructor; [apply Hgoto | exact F].
Qed.

Lemma adds_page_loop_any cfg n :
  forall idx url seen, adds P (page_loop urljoin w lim cfg n idx url seen).
Proof.
  induction n as [|k IH]; intros idx url seen; simpl.
  - apply adds_ret.
  - apply adds_bind; [apply adds_page_turn_any|].
    intros [url' seen'|seen'|]; [apply IH | apply adds_ret | apply adds_ret].
Qed.

End SessionCalls.

Section Runs.
Import Scraper.
Import Ladder.

Variable urljoin : string -> string -> string.
Variable w : world.
Variable lim : limits.

Lemma search_url_refused (market : string) (e : exn) :
  Filters.parse_market market = Raise e -> search_url lim market = Raise e.
Proof.
  intros H. unfold search_url, Filters.build_search_url. rewrite H. reflexivity.
Qed.

Lemma search_url_accepted (market : string) (p : string * string) :
  Filters.parse_market market = Ok p -> exists url, search_url lim market = Ok url.
Proof.
  intros H. unfold search_url, Filters.build_search_url. rewrite H.
  destruct p as [st city]. eexists. reflexivity.
Qed.

Lemma http_call_admits_http : admits_http http_call.
Proof. repeat split. Qed.

Lemma session_call_admits_http : admits_http session_call.
Proof. repeat split. Qed.

Lemma session_call_admits_page : admits_page session_call.
Proof. repeat split. Qed.

(** Without a browser a run makes HTTP calls and the upsert only. *)
Lemma http_only_run_calls cfg market n :
  playwright_available cfg = false ->
  Forall (fun e => http_call e = true) (fst (run_collect urljoin w lim cfg market n)).
Proof.
  intros Hc. unfold run_collect.
  destruct (collect_estately urljoin w lim cfg market n empty_run) as [sf rf] eqn:E.
  cbn [fst]. unfold collect_estately, bindM at 1, lift in E.
  destruct (search_url lim market) as [url|e].
  - rewrite Hc in E. cbn [negb] in E.
    assert (A : adds http_call
                  (bindM (http_only_pages urljoin w lim n url)
                         (fun _ => bindM (persist cfg) (fun _ => current_results)))).
    { apply adds_bind; [apply adds_http_only_pages, http_call_admits_http|].
      intros _. apply adds_bind; [apply adds_persist, http_call_admits_http|].
      intros _. apply adds_current_results. }
    destruct (A empty_run) as [ev [H F]]. rewrite E in H. cbn [fst] in H.
    rewrite H. exact F.
  - injection E as <- <-. constructor.
Qed.

(** With a browser, the run of an accepted market launches it first and
    closes it last. *)
Lemma browser_run_calls cfg market n p :
  playwright_available cfg = true ->
  Filters.parse_market market = Ok p ->
  exists mid,
    fst (run_collect urljoin w lim cfg market n)
      = (EvLaunch :: mid ++ [EvClose])%list /\
    Forall (fun e => session_call e = true) mid.
Proof.
  intros Hc Hm. destruct (search_url_accepted market p Hm) as [url Hu].
  unfold run_collect.
  destruct (collect_estately urljoin w lim cfg market n empty_run) as [sf rf] eqn:E.
  cbn [fst]. unfold collect_estately, bindM at 1, lift in E.
  rewrite Hu, Hc in E. cbn [negb] in E.
  unfold bindM at 1 in E. cbn [emit] in E. unfold finally in E.
  match type of E with
  | (let '(s', r) := ?m ?s1 in _) = _ =>
      assert (A : adds session_call m);
      [|destruct (A s1) as [ev [H F]]; destruct (m s1) as [s2 r2];
        injection E as <- <-; exists ev; split; [|exact F];
        cbn [fst] in H; cbn [fst emit trace]; rewrite H; reflexivity]
  end.
  apply adds_bind; [apply adds_emit; reflexivity|]. intros _.
  apply adds_bind; [apply adds_emit; reflexivity|]. intros _.
  apply adds_bind.
  { apply adds_page_loop_any;
      [apply session_call_admits_http | apply session_call_admits_page
      | reflexivity]. }
  intros [[url' seen]|].
  - apply adds_bind; [apply adds_final_fallback|]. intros _.
    apply adds_bind; [apply adds_persist, session_call_admits_http|].
    intros _. apply adds_current_results.
  - apply adds_current_results.
Qed.

Lemma refused_market_run cfg market n e :
  Filters.parse_market market = Raise e ->
  run_collect urljoin w lim cfg market n = ([], Raise e).
Proof.
  intros H. unfold run_collect, collect_estately, bindM, lift.
  rewrite (search_url_refused market e H). reflexivity.
Qed.

Lemma navigations_app (a b : list event) :
  navigations (a ++ b) = (navigations a + navigations b)%nat.
Proof. unfold navigations. rewrite filter_app, length_app. reflexivity. Qed.

Lemma navigations_none (ev : list event) :
  Forall (fun e => not_goto e = true) ev -> navigations ev = 0%nat.
Proof.
  unfold navigations, not_goto. induction 1 as [|e l He Hl IH]; [reflexivity|].
  simpl. destruct (is_goto e); [discriminate | exact IH].
Qed.

Lemma not_goto_admits_http : admits_http not_goto.
Proof. repeat split. Qed.

Lemma not_goto_admits_page : admits_page not_goto.
Proof. repeat split. Qed.

Lemma navs_le_adds {A} (m : M A) : adds not_goto m -> navs_le 0 m.
Proof.
  intros H s. destruct (H s) as [ev [E F]].
  rewrite E, navigations_app, (navigations_none ev F). lia.
Qed.

Lemma navs_le_bind {A B} (k1 k2 : nat) (m : M A) (f : A -> M B) :
  navs_le k1 m -> (forall a, navs_le k2 (f a)) -> navs_le (k1 + k2) (bindM m f).
Proof.
  intros Hm Hf s. unfold bindM. specialize (Hm s).
  destruct (m s) as [s' [a|e]]; cbn [fst] in Hm.
  - specialize (Hf a s'). lia.
  - cbn [fst]. lia.
Qed.

Lemma navs_le_more {A} (k k' : nat) (m : M A) :
  (k <= k')%nat -> navs_le k m -> navs_le k' m.
Proof. intros Hk Hm s. specialize (Hm s). lia. Qed.

Lemma navs_le_page_turn cfg idx url seen :
  navs_le 1 (page_turn urljoin w lim cfg idx url seen).
Proof.
  intros s.
  destruct (page_turn_one_goto urljoin w lim not_goto not_goto_admits_http
              not_goto_admits_page cfg idx url seen s) as (b & ev & H & F).
  rewrite H, navigations_app.
  change (EvGoto url b :: ev) with ([EvGoto url b] ++ ev)%list.
  rewrite navigations_app, (navigations_none ev F). simpl. lia.
Qed.

Lemma navs_le_page_loop cfg n :
  forall idx url seen, navs_le n (page_loop urljoin w lim cfg n idx url seen).
Proof.
  induction n as [|k IH]; intros idx url seen.
  - apply navs_le_adds. apply adds_ret.
  - change (S k) with (1 + k)%nat. cbn [page_loop].
    apply navs_le_bind; [apply navs_le_page_turn|].
    intros [url' seen'|seen'|].
    + apply IH.
    + apply (navs_le_more 0); [lia|]. apply navs_le_adds, adds_ret.
    + apply (navs_le_more 0); [lia|]. apply navs_le_adds, adds_ret.
Qed.

(** A run makes at most [max_pages] navigations. *)
Lemma run_navigations cfg market n :
  (navigations (fst (run_collect urljoin w lim cfg market n)) <= n)%nat.
Proof.
  unfold run_collect.
  destruct (collect_estately urljoin w lim cfg market n empty_run) as [sf rf] eqn:E.
  cbn [fst]. unfold collect_estately, bindM at 1, lift in E.
  destruct (search_url lim market) as [url|e].
  - destruct (negb (playwright_available cfg)).
    + assert (A : adds not_goto
                    (bindM (http_only_pages urljoin w lim n url)
                           (fun _ => bindM (persist cfg) (fun _ => current_results)))).
      { apply adds_bind; [apply adds_http_only_pages, not_goto_admits_http|].
        intros _. apply adds_bind; [apply adds_persist, not_goto_admits_http|].
        intros _. apply adds_current_results. }
      pose proof (navs_le_adds _ A empty_run) as N. rewrite E in N.
      cbn [fst] in N. simpl in N. lia.
    + unfold bindM at 1 in E. cbn [emit] in E. unfold finally in E.
      match type of E with
      | (let '(s', r) := ?m ?s1 in _) = _ =>
          assert (A : navs_le (0 + (0 + (n + 0))) m);
          [|pose proof (A s1) as N; destruct (m s1) as [s2 r2]]
      end.
      { apply navs_le_bind; [apply navs_le_adds, adds_emit; reflexivity|].
        intros _.
        apply navs_le_bind; [apply navs_le_adds, adds_emit; reflexivity|].
        intros _.
        apply navs_le_bind; [apply navs_le_page_loop|].
        intros [[url' seen]|]; apply navs_le_adds.
        - apply adds_bind; [apply adds_final_fallback|]. intros _.
          apply adds_bind; [apply adds_persist, not_goto_admits_http|].
          intros _. apply adds_current_results.
        - apply adds_current_results. }
      injection E as <- <-. cbn [fst emit trace] in N |- *.
      rewrite navigations_app.
      change (navigations [EvClose]) with 0%nat.
      change (navigations (trace empty_run ++ [EvLaunch])) with 0%nat in N.
      lia.
  - injection E as <- <-. apply Nat.le_0_l.
Qed.

End Runs.








(** *** One card per key *)

Section Keys.
Import Scraper.

Lemma fresh_keys_app (seen a b : list key) :
  fresh_keys seen a -> fresh_keys (rev a ++ seen) b -> fresh_keys seen (a ++ b).
Proof.
  revert seen. induction a as [|k a IH]; intros seen Ha Hb; [exact Hb|].
  destruct Ha as [Hk Ha]. simpl. split; [exact Hk|].
  apply IH; [exact Ha|]. simpl in Hb. rewrite <- app_assoc in Hb. exact Hb.
Qed.

Lemma tracks_ret {A} (proj : A -> option (list key)) (seen : list key) (a : A) :
  (forall seen', proj a = Some seen' -> seen' = seen) ->
  tracks proj seen (ret a).
Proof.
  intros H s. exists []. rewrite app_nil_r. split; [reflexivity|].
  split; [exact I|]. intros a' seen' E Hp. injection E as <-.
  apply H. exact Hp.
Qed.

Lemma tracks_raise {A} (proj : A -> option (list key)) (seen : list key) (e : exn) :
  tracks proj seen (lift (Raise e)).
Proof.
  intros s. exists []. rewrite app_nil_r. split; [reflexivity|].
  split; [exact I|]. intros a' seen' E. discriminate E.
Qed.

Lemma tracks_quiet_bind {A B} (proj : B -> option (list key)) (seen : list key)
  (m : M A) (k : A -> M B) :
  quiet m -> (forall a, tracks proj seen (k a)) -> tracks proj seen (bindM m k).
Proof.
  intros Hm Hk s. unfold bindM. specialize (Hm s).
  destruct (m s) as [s1 [a|e]]; cbn [fst] in Hm.
  - destruct (Hk a s1) as (new & H1 & H2 & H3).
    exists new. rewrite H1, Hm. repeat split; assumption.
  - exists []. rewrite app_nil_r. split; [exact Hm|].
    split; [exact I|]. intros a' seen' E. discriminate E.
Qed.

Lemma tracks_bind {A B} (pa : A -> option (list key)) (pb : B -> option (list key))
  (seen : list key) (m : M A) (k : A -> M B) :
  tracks pa seen m ->
  (forall a, match pa a with
             | Some seen' => tracks pb seen' (k a)
             | None => quiet (k a) /\
                       forall s b, snd (k a s) = Ok b -> pb b = None
             end) ->
  tracks pb seen (bindM m k).
Proof.
  intros Hm Hk s. unfold bindM.
  destruct (Hm s) as (new1 & H1 & F1 & R1).
  destruct (m s) as [s1 [a|e]]; cbn [fst snd] in *.
  - specialize (Hk a). destruct (pa a) as [seen1|] eqn:Pa.
    + specialize (R1 a seen1 eq_refl Pa). subst seen1.
      destruct (Hk s1) as (new2 & H2 & F2 & R2).
      exists (new1 ++ new2)%list. split; [rewrite H2, H1, app_assoc; reflexivity|].
      rewrite map_app. split; [apply fresh_keys_app; assumption|].
      intros b seen' E Pb. rewrite (R2 b seen' E Pb).
      rewrite rev_app_distr, app_assoc. reflexivity.
    + destruct Hk as [Hq Hn]. exists new1. rewrite (Hq s1).
      split; [exact H1|]. split; [exact F1|].
      intros b seen' E Pb. rewrite (Hn s1 b E) in Pb. discriminate Pb.
  - exists new1. split; [exact H1|]. split; [exact F1|].
    intros b seen' E. discriminate E.
Qed.

Lemma tracks_for_each {I} (step : I -> list key -> M (list key)) (items : list I) :
  (forall x seen, tracks Some seen (step x seen)) ->
  forall seen, tracks Some seen (for_each step items seen).
Proof.
  intros Hs. induction items as [|x r IH]; intros seen; cbn [for_each].
  - apply tracks_ret. intros seen' E. injection E as <-. reflexivity.
  - apply (tracks_bind Some); [apply Hs|]. intros a. apply IH.
Qed.

Lemma card_key_make (d : dict) (url : string) :
  card_key (make_card d url) = row_key d.
Proof. reflexivity. Qed.

Lemma tracks_dedupe_emit (d d_doc : dict) (url : string) (seen : list key) :
  tracks Some seen (dedupe_emit d d_doc url seen).
Proof.
  intros s. unfold dedupe_emit, bindM, lift.
  destruct (seen_mem (row_key d) seen) as [dup|e] eqn:E.
  - destruct dup.
    + exists []. rewrite app_nil_r. split; [reflexivity|]. split; [exact I|].
      intros a seen' Ea Ep. injection Ea as <-. injection Ep as <-. reflexivity.
    + assert (Hf : existsb (key_eqb (row_key d)) seen = false).
      { unfold seen_mem in E. destruct (_ && _); [|discriminate].
        injection E as E. exact E. }
      cbn [push_card].
      destruct (_normalize_property_from_dict d_doc _) as [doc|e'].
      * exists [make_card d url]. split; [reflexivity|].
        split; [simpl; split; [exact Hf | exact I]|].
        intros a seen' Ea Ep. cbn [push_doc ret snd] in Ea.
        injection Ea as <-. injection Ep as <-. reflexivity.
      * exists [make_card d url]. split; [reflexivity|].
        split; [simpl; split; [exact Hf | exact I]|].
        intros a seen' Ea. discriminate Ea.
  - exists []. rewrite app_nil_r. split; [reflexivity|]. split; [exact I|].
    intros a seen' Ea. discriminate Ea.
Qed.

Lemma tracks_same (seen : list key) : tracks Some seen (ret seen).
Proof. apply tracks_ret. intros seen' E. injection E as <-. reflexivity. Qed.

Lemma quiet_lift {A} (r : result A) : quiet (lift r).
Proof. intros s. reflexivity. Qed.

Lemma quiet_ret {A} (a : A) : quiet (ret a).
Proof. intros s. reflexivity. Qed.

Lemma quiet_emit (e : event) : quiet (emit e).
Proof. intros s. reflexivity. Qed.

Lemma quiet_push_net (l : list blob) : quiet (push_net l).
Proof. intros s. reflexivity. Qed.

Lemma quiet_get_run : quiet get_run.
Proof. intros s. reflexivity. Qed.

Lemma quiet_bind {A B} (m : M A) (k : A -> M B) :
  quiet m -> (forall a, quiet (k a)) -> quiet (bindM m k).
Proof.
  intros Hm Hk s. unfold bindM. specialize (Hm s).
  destruct (m s) as [s1 [a|e]]; cbn [fst] in *; [rewrite (Hk a s1)|]; exact Hm.
Qed.

Lemma quiet_persist (cfg : config) : quiet (persist cfg).
Proof.
  unfold persist. apply quiet_bind; [apply quiet_get_run|]. intros s.
  destruct (_ && _); [apply quiet_emit | apply quiet_ret].
Qed.

Variable urljoin : string -> string -> string.
Variable lim : limits.

Lemma tracks_inline_step url d seen : tracks Some seen (inline_step lim url d seen).
Proof.
  unfold inline_step.
  destruct (negb (passes_mins lim d)); [apply tracks_same|].
  destruct (negb (snd (_extract_status d ""))); [apply tracks_same|].
  apply tracks_dedupe_emit.
Qed.

Lemma tracks_net_step url d seen : tracks Some seen (net_step lim url d seen).
Proof.
  unfold net_step.
  apply tracks_quiet_bind; [apply quiet_lift|]. intros low.
  destruct low; [apply tracks_same|].
  destruct (negb (_passes_min (get d "beds") (min_beds lim))); [apply tracks_same|].
  destruct (negb (_passes_min (get d "sqft") (min_sqft lim))); [apply tracks_same|].
  destruct (text_filtered lim ""); [apply tracks_same|].
  destruct (negb (snd (_extract_status d ""))); [apply tracks_same|].
  apply tracks_dedupe_emit.
Qed.

Lemma tracks_dom_step url c seen :
  tracks Some seen (dom_step urljoin lim url c seen).
Proof.
  unfold dom_step.
  apply tracks_quiet_bind; [apply quiet_lift|]. intros data.
  apply tracks_quiet_bind; [apply quiet_lift|]. intros low.
  destruct low; [apply tracks_same|].
  destruct (text_filtered lim (Parsing.c_text c)); [apply tracks_same|].
  destruct (negb (snd (_extract_status data (Parsing.c_text c))));
    [apply tracks_same|].
  apply tracks_dedupe_emit.
Qed.

Variable w : world.

Lemma tracks_inline_and_fallback p url seen :
  tracks Some seen (inline_and_fallback urljoin w lim p url seen).
Proof.
  unfold inline_and_fallback.
  apply tracks_quiet_bind; [apply quiet_get_run|]. intros s.
  destruct (h_cards (p_html p)) as [|c cards]; [|apply tracks_same].
  destruct (is_nil (results s)); [|apply tracks_same].
  cbn [is_nil andb].
  apply (tracks_bind Some).
  { apply tracks_for_each. intros. apply tracks_inline_step. }
  intros seen'. cbv beta iota.
  apply tracks_quiet_bind; [intros s0; reflexivity|]. intros _.
  apply tracks_same.
Qed.

Lemma tracks_ctl_next url seen : tracks ctl_seen seen (ret (CtlNext url seen)).
Proof. apply tracks_ret. intros seen' E. injection E as <-. reflexivity. Qed.

Lemma tracks_ctl_break seen : tracks ctl_seen seen (ret (CtlBreak seen)).
Proof. apply tracks_ret. intros seen' E. injection E as <-. reflexivity. Qed.

Lemma tracks_dom_and_advance p url seen :
  tracks ctl_seen seen (dom_and_advance urljoin lim p url seen).
Proof.
  unfold dom_and_advance.
  apply tracks_quiet_bind; [apply quiet_emit|]. intros _.
  apply (tracks_bind Some).
  { apply tracks_for_each. intros. apply tracks_dom_step. }
  intros seen'. cbv beta iota.
  apply tracks_quiet_bind; [apply quiet_emit|]. intros _.
  destruct (match p_next_attr p with
            | Some h => if non_empty h then Some h else h_next (p_html p)
            | None => h_next (p_html p)
            end) as [h|]; [destruct (non_empty h)|];
    first [apply tracks_ctl_next | apply tracks_ctl_break].
Qed.

Lemma tracks_rendered_turn p url seen :
  tracks ctl_seen seen (rendered_turn urljoin w lim p url seen).
Proof.
  assert (Tail : forall seen',
             tracks ctl_seen seen'
               (bindM (inline_and_fallback urljoin w lim p url seen')
                      (fun seen'' => dom_and_advance urljoin lim p url seen''))).
  { intros seen'. apply (tracks_bind Some); [apply tracks_inline_and_fallback|].
    intros seen''. apply tracks_dom_and_advance. }
  unfold rendered_turn.
  apply tracks_quiet_bind; [apply quiet_push_net|]. intros _.
  do 7 (apply tracks_quiet_bind; [apply quiet_emit|]; intros _).
  apply tracks_quiet_bind; [apply quiet_get_run|]. intros s.
  destruct (_ && _); [|apply Tail].
  apply tracks_quiet_bind; [apply quiet_lift|]. intros harvested.
  destruct (negb (is_nil harvested)); [|apply Tail].
  apply (tracks_bind Some).
  { apply tracks_for_each. intros. apply tracks_net_step. }
  intros seen'. cbv beta iota.
  apply tracks_quiet_bind; [apply quiet_get_run|]. intros s'.
  destruct (negb (is_nil (results s'))); [|apply Tail].
  apply tracks_quiet_bind; [apply quiet_emit|]. intros _.
  destruct (h_next (p_html p)) as [h|]; [destruct (non_empty h)|];
    first [apply tracks_ctl_next | apply tracks_ctl_break].
Qed.

Hypothesis Hnav : forall idx url, w_goto w idx url <> NavFailed.

Lemma tracks_page_turn cfg idx url seen :
  tracks ctl_seen seen (page_turn urljoin w lim cfg idx url seen).
Proof.
  unfold page_turn. destruct (w_goto w idx url) as [|p] eqn:E.
  - exfalso. exact (Hnav idx url E).
  - apply tracks_quiet_bind; [apply quiet_emit|]. intros _.
    apply tracks_rendered_turn.
Qed.

Lemma tracks_page_loop cfg n :
  forall idx url seen,
    tracks (option_map snd) seen (page_loop urljoin w lim cfg n idx url seen).
Proof.
  induction n as [|k IH]; intros idx url seen; cbn [page_loop].
  - apply tracks_ret. intros seen' E. injection E as <-. reflexivity.
  - apply (tracks_bind ctl_seen); [apply tracks_page_turn|].
    intros [url' seen'|seen'|]; cbn [ctl_seen].
    + apply IH.
    + apply tracks_ret. intros seen'' E. injection E as <-. reflexivity.
    + split; [apply quiet_ret|]. intros s b E. injection E as <-. reflexivity.
Qed.

Lemma tracks_final_fallback url seen :
  tracks (fun _ : unit => None) seen (final_fallback lim url seen).
Proof.
  unfold final_fallback.
  apply tracks_quiet_bind; [apply quiet_get_run|]. intros s.
  destruct (_ && _); [|apply tracks_ret; discriminate].
  apply tracks_quiet_bind; [apply quiet_lift|]. intros harvested.
  apply (tracks_bind Some).
  { apply tracks_for_each. intros. apply tracks_inline_step. }
  intros seen'. cbv beta iota. apply tracks_ret. discriminate.
Qed.

Lemma quiet_current_results : quiet current_results.
Proof. intros s. reflexivity. Qed.

Lemma returns_current_results : returns_results current_results.
Proof. intros s cards E. injection E as <-. reflexivity. Qed.

Lemma returns_results_bind {A} (m : M A) (k : A -> M (list PropertyCard)) :
  (forall a, returns_results (k a)) -> returns_results (bindM m k).
Proof.
  intros Hk s cards. unfold bindM.
  destruct (m s) as [s1 [a|e]]; [apply Hk | discriminate].
Qed.

(** What runs between the launch and the closing of the browser. *)
Lemma tracks_session cfg n url :
  tracks (fun _ : list PropertyCard => None) []
    (bindM (emit EvNewPage) (fun _ =>
     bindM (emit EvHook) (fun _ =>
     bindM (page_loop urljoin w lim cfg n 0 url []) (fun r =>
       match r with
       | None => current_results
       | Some (url', seen) =>
           bindM (final_fallback lim url' seen) (fun _ =>
           bindM (persist cfg) (fun _ => current_results))
       end)))).
Proof.
  apply tracks_quiet_bind; [apply quiet_emit|]. intros _.
  apply tracks_quiet_bind; [apply quiet_emit|]. intros _.
  apply (tracks_bind (option_map snd)); [apply tracks_page_loop|].
  intros [[url' seen]|]; cbn [option_map snd].
  - apply (tracks_bind (fun _ : unit => None)); [apply tracks_final_fallback|].
    intros _. cbv beta iota. split; [|reflexivity].
    apply quiet_bind; [apply quiet_persist|]. intros _. apply quiet_current_results.
  - split; [apply quiet_current_results | reflexivity].
Qed.

Lemma returns_session cfg n url :
  returns_results
    (bindM (emit EvNewPage) (fun _ =>
     bindM (emit EvHook) (fun _ =>
     bindM (page_loop urljoin w lim cfg n 0 url []) (fun r =>
       match r with
       | None => current_results
       | Some (url', seen) =>
           bindM (final_fallback lim url' seen) (fun _ =>
           bindM (persist cfg) (fun _ => current_results))
       end)))).
Proof.
  do 3 (apply returns_results_bind; intros).
  match goal with
  | |- returns_results (match ?r with _ => _ end) => destruct r as [[url' seen]|]
  end.
  - do 2 (apply returns_results_bind; intros). apply returns_current_results.
  - apply returns_current_results.
Qed.

(** When no navigation fails, the cards returned by a run with the browser
    have fresh keys. *)
Lemma browser_run_keys cfg market n cards :
  playwright_available cfg = true ->
  snd (run_collect urljoin w lim cfg market n) = Ok cards ->
  fresh_keys [] (List.map card_key cards).
Proof.
  intros Hc. unfold run_collect.
  destruct (collect_estately urljoin w lim cfg market n empty_run) as [sf rf] eqn:E.
  cbn [snd]. intros ->.
  unfold collect_estately, bindM at 1, lift in E.
  destruct (search_url lim market) as [url|e]; [|discriminate].
  rewrite Hc in E. cbn [negb] in E.
  unfold bindM at 1 in E. cbn [emit] in E. unfold finally in E.
  match type of E with
  | (let '(s', r) := ?m ?s1 in _) = _ =>
      destruct (tracks_session cfg n url s1) as (new & H & F & _);
      pose proof (returns_session cfg n url s1) as R;
      destruct (m s1) as [s2 r2]
  end.
  injection E as _ ->. cbn [fst snd results] in H, R.
  rewrite (R cards eq_refl), H. exact F.
Qed.

End Keys.



(** *** The driver that walks the list of cities *)

Lemma drop_while_suffix (p : ascii -> bool) (s : string) :
  exists pre, s = pre ++ sdrop_while p s.
Proof.
  induction s as [|x s [pre IH]]; [exists ""; reflexivity|].
  simpl. destruct (p x).
  - exists (String x pre). simpl. rewrite <- IH. reflexivity.
  - exists "". reflexivity.
Qed.

Lemma strip_idem (s : string) : strip (strip s) = strip s.
Proof.
  unfold strip, lstrip, rstrip.
  set (t := sdrop_while is_space s).
  destruct (sdrop_while is_space (srev t)) as [|c r] eqn:W; [reflexivity|].
  pose proof (drop_while_head _ _ _ _ W) as Hc.
  destruct (drop_while_suffix is_space (srev t)) as [pre Hp].
  rewrite W in Hp.
  assert (Ht : t = srev (String c r) ++ srev pre).
  { rewrite <- (srev_involutive t), Hp. apply srev_app. }
  destruct (srev (String c r)) as [|c' r'] eqn:U.
  - exfalso. pose proof (srev_involutive (String c r)) as I.
    rewrite U in I. discriminate I.
  - assert (Hc' : is_space c' = false).
    { apply (drop_while_head is_space s c' (r' ++ srev pre)). exact Ht. }
    assert (D : sdrop_while is_space (String c' r') = String c' r').
    { simpl. rewrite Hc'. reflexivity. }
    rewrite D. rewrite <- U. rewrite srev_involutive.
    simpl. rewrite Hc. reflexivity.
Qed.

Lemma mem_In (x : string) (l : list string) :
  ScrapeAll.mem x l = true <-> In x l.
Proof.
  unfold ScrapeAll.mem. rewrite existsb_exists. split.
  - intros [y [Hy E]]. apply String.eqb_eq in E. subst. exact Hy.
  - intros H. exists x. split; [exact H | apply String.eqb_refl].
Qed.

Lemma pair_eqb_eq (a b : string * string) :
  ScrapeAll.pair_eqb a b = true <-> a = b.
Proof.
  destruct a as [a1 a2], b as [b1 b2]. unfold ScrapeAll.pair_eqb. simpl.
  rewrite andb_true_iff, !String.eqb_eq. split.
  - intros [-> ->]. reflexivity.
  - intros E. injection E as -> ->. split; reflexivity.
Qed.

Lemma seen_In (p : string * string) (seen : list (string * string)) :
  existsb (ScrapeAll.pair_eqb p) seen = true <-> In p seen.
Proof.
  rewrite existsb_exists. split.
  - intros [y [Hy E]]. apply pair_eqb_eq in E. subst. exact Hy.
  - intros H. exists p. split; [exact H | apply pair_eqb_eq; reflexivity].
Qed.

Lemma dedupe_step_eq (seen deduped : list (string * string)) (x : string * string) :
  ScrapeAll.dedupe_step (seen, deduped) x
  = if existsb (ScrapeAll.pair_eqb x) seen then (seen, deduped)
    else (x :: seen, (deduped ++ [x])%list).
Proof. reflexivity. Qed.

(** The loop that removes duplicates keeps [seen] and [deduped] with the
    same members, and [deduped] without a repetition. *)
Lemma dedupe_loop (l : list (string * string)) :
  forall seen deduped,
    NoDup deduped -> (forall p, In p seen <-> In p deduped) ->
    NoDup (snd (fold_left ScrapeAll.dedupe_step l (seen, deduped))) /\
    (forall p, In p (snd (fold_left ScrapeAll.dedupe_step l (seen, deduped)))
               <-> In p deduped \/ In p l).
Proof.
  induction l as [|x l IH]; intros seen deduped Hn Hs.
  - split; [exact Hn|]. intros p. simpl. tauto.
  - cbn [fold_left]. rewrite dedupe_step_eq.
    destruct (existsb (ScrapeAll.pair_eqb x) seen) eqn:E.
    + apply seen_In in E. apply Hs in E.
      destruct (IH seen deduped Hn Hs) as [N M]. split; [exact N|].
      intros p. rewrite (M p). simpl. split; [tauto|].
      intros [H|[<-|H]]; tauto.
    + assert (Hx : ~ In x deduped).
      { intros H. apply Hs in H. apply seen_In in H. congruence. }
      assert (Hn' : NoDup (deduped ++ [x])).
      { apply NoDup_app; [exact Hn | repeat constructor; simpl; tauto|].
        intros a Ha [<-|[]]. exact (Hx Ha). }
      assert (Hs' : forall p, In p (x :: seen) <-> In p (deduped ++ [x])).
      { intros p. rewrite in_app_iff. simpl. rewrite (Hs p). tauto. }
      destruct (IH (x :: seen) (deduped ++ [x])%list Hn' Hs') as [N M].
      split; [exact N|].
      intros p. rewrite (M p), in_app_iff. simpl. tauto.
Qed.

Lemma dedupe_members (l : list (string * string)) :
  NoDup (ScrapeAll.dedupe l) /\ (forall p, In p (ScrapeAll.dedupe l) <-> In p l).
Proof.
  unfold ScrapeAll.dedupe.
  destruct (dedupe_loop l [] [] (NoDup_nil _) (fun p => conj (fun H => H) (fun H => H)))
    as [N M].
  split; [exact N|]. intros p. rewrite (M p). simpl. tauto.
Qed.

(** What a row contributes. *)
Lemma row_location_sound (ck sk : string) (pk : option string)
  (wl : option (list string)) (m : Z) (r : ScrapeAll.row) (city state : string) :
  ScrapeAll.row_location ck sk pk wl m r = Some (city, state) ->
  city <> "" /\ strip city = city /\ In state ScrapeAll.US_STATE_ABBRS /\
  (forall x w, wl = Some (x :: w) -> In state (x :: w)).
Proof.
  unfold ScrapeAll.row_location.
  set (c := strip (ScrapeAll.text_or (ScrapeAll.row_get r ck) "")).
  set (s := upper (strip (ScrapeAll.text_or (ScrapeAll.row_get r sk) ""))).
  destruct (non_empty c) eqn:Ec; cbn [negb orb]; [|discriminate].
  destruct (ScrapeAll.mem s ScrapeAll.US_STATE_ABBRS) eqn:Es; cbn [negb orb]; [|discriminate].
  assert (K : Some (c, s) = Some (city, state) ->
              city <> "" /\ strip city = city /\ In state ScrapeAll.US_STATE_ABBRS).
  { intros H. injection H as <- <-. split; [|split].
    - intros E. rewrite E in Ec. discriminate Ec.
    - apply strip_idem.
    - apply mem_In. exact Es. }
  assert (P : forall (b : bool),
             (if b then None
              else match pk with
                   | Some k =>
                       if match ScrapeAll.py_int
                                  (remove_char "," (ScrapeAll.text_or (ScrapeAll.row_get r k) "0"))
                          with Some z => z | None => 0 end <? m
                       then None else Some (c, s)
                   | None => Some (c, s)
                   end) = Some (city, state) ->
             b = false /\ Some (c, s) = Some (city, state)).
  { intros b H. destruct b; [discriminate H|]. split; [reflexivity|].
    destruct pk as [k|]; [|exact H].
    destruct (_ <? m); [discriminate H | exact H]. }
  intros H. apply P in H. destruct H as [Hb H].
  destruct (K H) as [K1 [K2 K3]]. repeat split; try assumption.
  intros x w E. subst wl. apply negb_false_iff in Hb.
  assert (Hst : s = state) by congruence.
  rewrite <- Hst. apply mem_In. exact Hb.
Qed.

(** The pieces of a text joined with commas character by character and
    split at the commas: one piece per character, two empty ones for a
    comma. *)
Lemma split_join_letters (cs : list ascii) :
  cs <> [] ->
  split_on "," (join "," (List.map (fun c => String c EmptyString) cs))
  = flat_map (fun c => if Ascii.eqb c "," then [""; ""] else [String c ""]) cs.
Proof.
  induction cs as [|c cs IH]; intros Hne; [contradiction|].
  destruct cs as [|d cs].
  - simpl. destruct (Ascii.eqb c ","); reflexivity.
  - change (join "," (List.map (fun c => String c EmptyString) (c :: d :: cs)))
      with (String c (String ","
              (join "," (List.map (fun c => String c EmptyString) (d :: cs))))).
    change (flat_map (fun c => if Ascii.eqb c "," then [""; ""] else [String c ""])
              (c :: d :: cs))
      with ((if Ascii.eqb c "," then [""; ""] else [String c ""])
            ++ flat_map (fun c => if Ascii.eqb c "," then [""; ""] else [String c ""])
                 (d :: cs))%list.
    rewrite <- IH by discriminate.
    cbn [split_on]. rewrite Ascii.eqb_refl.
    destruct (Ascii.eqb c ","); reflexivity.
Qed.

Lemma strip_letter (c : ascii) :
  strip (String c "") = if is_space c then "" else String c "".
Proof.
  unfold strip, lstrip, rstrip. simpl.
  destruct (is_space c) eqn:E; [reflexivity|].
  unfold srev. simpl. rewrite E. reflexivity.
Qed.

(** The whitelist read from a text has one-character members only. *)
Lemma whitelist_of_text (t : string) :
  t <> "" ->
  Forall (fun s => String.length s = 1%nat)
         (ScrapeAll.whitelist_set (ScrapeAll.letters t)) /\
  (forall c, In c (chars t) -> is_space c = false -> c <> ","%char ->
             ScrapeAll.whitelist_set (ScrapeAll.letters t) <> []).
Proof.
  intros Hne. unfold ScrapeAll.whitelist_set, ScrapeAll.letters.
  rewrite split_join_letters by (destruct t; [contradiction | discriminate]).
  fold (chars t). generalize (chars t) as cs. intros cs. split.
  - induction cs as [|c cs IH]; [constructor|].
    cbn [flat_map]. rewrite filter_app, map_app. apply Forall_app. split; [|exact IH].
    destruct (Ascii.eqb c ","); [constructor|].
    cbn [filter]. rewrite strip_letter.
    destruct (is_space c) eqn:E; [constructor|].
    cbn [non_empty String.eqb negb map]. constructor; [|constructor].
    rewrite strip_letter, E. reflexivity.
  - intros c Hin Hs Hc E. apply map_eq_nil in E.
    assert (Hp : In (String c "")
                   (filter (fun s => non_empty (strip s))
                      (flat_map (fun c => if Ascii.eqb c "," then [""; ""]
                                          else [String c ""]) cs))).
    { apply filter_In. split.
      - apply in_flat_map. exists c. split; [exact Hin|].
        apply Ascii.eqb_neq in Hc. rewrite Hc. left. reflexivity.
      - rewrite strip_letter, Hs. reflexivity. }
    rewrite E in Hp. exact Hp.
Qed.

Lemma us_states_two_letters :
  Forall (fun s => String.length s = 2%nat) ScrapeAll.US_STATE_ABBRS.
Proof. repeat constructor. Qed.

Lemma mem_other_length (x : string) (l : list string) (n : nat) :
  Forall (fun s => String.length s = n) l -> String.length x <> n ->
  ScrapeAll.mem x l = false.
Proof.
  intros F H. destruct (ScrapeAll.mem x l) eqn:E; [|reflexivity].
  apply mem_In in E. rewrite Forall_forall in F. apply F in E. contradiction.
Qed.

(** With a whitelist of one-character members no row is kept. *)
Lemma row_location_short_whitelist (ck sk : string) (pk : option string)
  (x : string) (w : list string) (m : Z) (r : ScrapeAll.row) :
  Forall (fun s => String.length s = 1%nat) (x :: w) ->
  ScrapeAll.row_location ck sk pk (Some (x :: w)) m r = None.
Proof.
  intros F. unfold ScrapeAll.row_location.
  set (c := strip (ScrapeAll.text_or (ScrapeAll.row_get r ck) "")).
  set (s := upper (strip (ScrapeAll.text_or (ScrapeAll.row_get r sk) ""))).
  destruct (non_empty c); cbn [negb orb]; [|reflexivity].
  destruct (ScrapeAll.mem s ScrapeAll.US_STATE_ABBRS) eqn:Es; cbn [negb orb];
    [|reflexivity].
  apply mem_In in Es.
  pose proof us_states_two_letters as U. rewrite Forall_forall in U.
  apply U in Es.
  rewrite (mem_other_length s (x :: w) 1 F) by (rewrite Es; discriminate).
  reflexivity.
Qed.

Lemma flat_map_nothing {A B} (f : A -> list B) (l : list A) :
  (forall a, f a = []) -> flat_map f l = [].
Proof.
  intros H. induction l as [|a l IH]; [reflexivity|].
  simpl. rewrite H, IH. reflexivity.
Qed.

Lemma load_with_text_whitelist (disk : string -> option ScrapeAll.csv_file)
  (path t : string) (m : Z) (c : ascii) :
  In c (chars t) -> is_space c = false -> c <> ","%char ->
  ScrapeAll.load_locations_from_csv disk path (Some (ScrapeAll.letters t)) m
  = bind (ScrapeAll.load_locations_from_csv disk path None m) (fun _ => Ok []).
Proof.
  intros Hin Hs Hc.
  assert (Hne : t <> "") by (intros ->; exact Hin).
  destruct (whitelist_of_text t Hne) as [F N].
  specialize (N c Hin Hs Hc).
  unfold ScrapeAll.load_locations_from_csv.
  destruct (disk path) as [f|]; [|reflexivity].
  assert (L : exists l0 ls, ScrapeAll.letters t = l0 :: ls).
  { destruct t as [|a t]; [contradiction|]. eexists. eexists. reflexivity. }
  destruct L as [l0 [ls L]]. rewrite L in *.
  destruct (ScrapeAll.whitelist_set (l0 :: ls)) as [|x w] eqn:W;
    [contradiction|].
  destruct (Filters.assoc "city" _) as [ck|]; [|reflexivity].
  destruct (ScrapeAll.key_or _ _) as [sk|]; [|reflexivity].
  destruct (_ || _); [reflexivity|].
  cbn [bind]. f_equal.
  rewrite flat_map_nothing; [reflexivity|].
  intros r. rewrite (row_location_short_whitelist ck sk _ x w m r F). reflexivity.
Qed.

Lemma us_states_plain :
  Forall (fun s => strip (String " " s) = s /\ strip s = s /\
                   String.length s = 2%nat /\
                   occurrences "," (String " " s) = 0%nat)
         ScrapeAll.US_STATE_ABBRS.
Proof.
  apply Forall_forall. intros s H.
  assert (B : forallb (fun s => String.eqb (strip (String " " s)) s
                                && String.eqb (strip s) s
                                && Nat.eqb (String.length s) 2
                                && Nat.eqb (occurrences "," (String " " s)) 0)
                      ScrapeAll.US_STATE_ABBRS = true) by (vm_compute; reflexivity).
  rewrite forallb_forall in B. specialize (B s H).
  apply andb_true_iff in B. destruct B as [B B4].
  apply andb_true_iff in B. destruct B as [B B3].
  apply andb_true_iff in B. destruct B as [B1 B2].
  apply String.eqb_eq in B1. apply String.eqb_eq in B2.
  apply Nat.eqb_eq in B3. apply Nat.eqb_eq in B4. tauto.
Qed.

Lemma parse_market_raises (market : string) (e : exn) :
  Filters.parse_market market = Raise e -> e = ValueError.
Proof.
  unfold Filters.parse_market.
  destruct (List.map strip (split_on "," market)) as [|a [|b [|x l]]];
    try (intros E; injection E as <-; reflexivity).
  destruct (Nat.eqb _ 2); [discriminate|].
  destruct (Filters.assoc _ _) as [v|]; [destruct (non_empty v)|];
    try discriminate; intros E; injection E as <-; reflexivity.
Qed.

(** The market text of a stripped city and a state of the list. *)
Lemma location_market (city state : string) :
  strip city = city -> In state ScrapeAll.US_STATE_ABBRS ->
  (occurrences "," city = 0%nat ->
   Filters.parse_market (ScrapeAll.location city state)
   = Ok (lower state, Filters._slug city)) /\
  (occurrences "," city <> 0%nat ->
   Filters.parse_market (ScrapeAll.location city state) = Raise ValueError).
Proof.
  intros Hc Hs.
  pose proof us_states_plain as U. rewrite Forall_forall in U.
  destruct (U state Hs) as [U1 [U2 [U3 U4]]].
  change (ScrapeAll.location city state) with (city ++ String "," (String " " state)).
  split; intros H.
  - unfold Filters.parse_market.
    rewrite (split_on_app "," city _ H), (split_on_plain "," _ U4).
    cbn [List.map]. rewrite Hc, U1, U2, U3. reflexivity.
  - destruct (Filters.parse_market (city ++ String "," (String " " state)))
      as [r|e] eqn:E.
    + exfalso. apply parse_market_commas in E.
      rewrite occurrences_app, occurrences_cons in E.
      rewrite Ascii.eqb_refl in E. rewrite U4 in E. apply H. lia.
    + apply parse_market_raises in E. subst. reflexivity.
Qed.

Lemma fallback_locations_plain :
  Forall (fun p => fst p <> "" /\ strip (fst p) = fst p /\
                   In (snd p) ScrapeAll.US_STATE_ABBRS)
         ScrapeAll.FALLBACK_LOCATIONS.
Proof.
  repeat (constructor; [split; [discriminate | split; [reflexivity|]];
                        apply mem_In; reflexivity|]).
  constructor.
Qed.

(** What [load_locations_from_csv] returns. *)
Lemma loaded_locations (disk : string -> option ScrapeAll.csv_file)
  (path : string) (wl : option (list string)) (m : Z)
  (locs : list (string * string)) :
  ScrapeAll.load_locations_from_csv disk path wl m = Ok locs ->
  NoDup locs /\
  Forall (fun p => fst p <> "" /\ strip (fst p) = fst p /\
                   In (snd p) ScrapeAll.US_STATE_ABBRS) locs /\
  (forall x w, wl = Some (x :: w) -> ScrapeAll.whitelist_set (x :: w) <> [] ->
     Forall (fun p => In (snd p) (ScrapeAll.whitelist_set (x :: w))) locs).
Proof.
  unfold ScrapeAll.load_locations_from_csv.
  destruct (disk path) as [f|].
  2:{ intros E. injection E as <-. split; [constructor|].
      split; [constructor|]. intros. constructor. }
  destruct (Filters.assoc "city" _) as [ck|]; [|discriminate].
  destruct (ScrapeAll.key_or _ _) as [sk|]; [|discriminate].
  destruct (_ || _); [discriminate|].
  intros E. injection E as <-.
  match goal with
  | |- context [ScrapeAll.dedupe ?l] => destruct (dedupe_members l) as [N M]
  end.
  split; [exact N|]. split.
  - apply Forall_forall. intros [city state] Hin. apply M in Hin.
    apply in_flat_map in Hin. destruct Hin as [r [_ Hr]].
    destruct (ScrapeAll.row_location _ _ _ _ _ r) as [q|] eqn:R; [|contradiction].
    destruct Hr as [->|[]].
    apply row_location_sound in R. simpl. tauto.
  - intros x w -> Hw. apply Forall_forall. intros [city state] Hin. apply M in Hin.
    apply in_flat_map in Hin. destruct Hin as [r [_ Hr]].
    destruct (ScrapeAll.row_location _ _ _ _ _ r) as [q|] eqn:R; [|contradiction].
    destruct Hr as [->|[]].
    apply row_location_sound in R. destruct R as [_ [_ [_ R]]].
    destruct (ScrapeAll.whitelist_set (x :: w)) as [|y ys] eqn:W; [contradiction|].
    simpl. exact (R y ys eq_refl).
Qed.







(** *** The JSON text of an inline script *)

Lemma opens_cons (c : ascii) (s : string) :
  opens (String c s) = ((if Inline.is_open c then 1 else 0) + opens s)%nat.
Proof. unfold opens, chars. simpl. destruct (Inline.is_open c); reflexivity. Qed.

Lemma closes_cons (c : ascii) (s : string) :
  closes (String c s) = ((if Inline.is_close c then 1 else 0) + closes s)%nat.
Proof. unfold closes, chars. simpl. destruct (Inline.is_close c); reflexivity. Qed.

Lemma open_not_close (c : ascii) :
  Inline.is_open c = true -> Inline.is_close c = false.
Proof.
  unfold Inline.is_open, Inline.is_close. intros H.
  apply orb_true_iff in H. destruct H as [H|H]; apply Ascii.eqb_eq in H; subst;
    reflexivity.
Qed.

Lemma substring_prefix (a b : string) :
  substring 0 (String.length a) (a ++ b) = a.
Proof. induction a as [|c a IH]; simpl; [destruct b; reflexivity | rewrite IH; reflexivity]. Qed.

Lemma length_append (a b : string) :
  String.length (a ++ b) = (String.length a + String.length b)%nat.
Proof. induction a as [|c a IH]; simpl; [|rewrite IH]; reflexivity. Qed.

(** The scan from a stack that is not empty: where it breaks, the depth
    comes back to zero for the first time. *)
Lemma end_brace_found (cand : string) :
  forall (stack : list ascii) (i e : nat),
    stack <> [] ->
    Inline.end_brace cand stack i = Some e ->
    exists p ch q,
      cand = p ++ String ch q /\ e = (i + String.length p)%nat /\
      (closes (p ++ String ch "") = List.length stack + opens (p ++ String ch ""))%nat /\
      (forall p1 p2, p ++ String ch "" = p1 ++ p2 -> p2 <> "" ->
                     (closes p1 < List.length stack + opens p1)%nat).
Proof.
  induction cand as [|c cand IH]; intros stack i e Hne H; [discriminate H|].
  cbn [Inline.end_brace] in H.
  destruct (Inline.is_open c) eqn:Eo.
  - apply IH in H; [|discriminate].
    destruct H as [p [ch [q [Hc [He [Hb Hp]]]]]].
    exists (String c p), ch, q. split; [simpl; rewrite Hc; reflexivity|].
    split; [simpl; lia|]. split.
    + cbn [append]. rewrite opens_cons, closes_cons, Eo, (open_not_close c Eo).
      rewrite Hb. simpl. lia.
    + intros p1 p2 E Hp2. destruct p1 as [|x p1].
      * destruct stack; [contradiction|]. simpl. unfold closes, chars. simpl. lia.
      * cbn [append] in E. injection E as <- E.
        rewrite opens_cons, closes_cons, Eo, (open_not_close c Eo).
        specialize (Hp p1 p2 E Hp2). simpl in Hp. lia.
  - destruct (Inline.is_close c) eqn:Ec.
    + destruct stack as [|top below]; [contradiction|].
      destruct below as [|b below].
      * injection H as <-. exists "", c, cand.
        split; [reflexivity|]. split; [simpl; lia|]. split.
        -- cbn [append]. rewrite opens_cons, closes_cons, Eo, Ec. reflexivity.
        -- intros p1 p2 E Hp2. destruct p1 as [|x p1].
           ++ simpl. unfold closes, chars. simpl. lia.
           ++ cbn [append] in E. injection E as _ E.
              destruct p1; [|discriminate E]. simpl in E. subst p2. contradiction.
      * apply IH in H; [|discriminate].
        destruct H as [p [ch [q [Hc [He [Hb Hp]]]]]].
        exists (String c p), ch, q. split; [simpl; rewrite Hc; reflexivity|].
        split; [simpl; lia|]. split.
        -- cbn [append]. rewrite opens_cons, closes_cons, Eo, Ec.
           rewrite Hb. simpl. lia.
        -- intros p1 p2 E Hp2. destruct p1 as [|x p1].
           ++ simpl. unfold closes, chars. simpl. lia.
           ++ cbn [append] in E. injection E as <- E.
              rewrite opens_cons, closes_cons, Eo, Ec.
              specialize (Hp p1 p2 E Hp2). simpl in Hp. simpl. lia.
    + apply IH in H; [|exact Hne].
      destruct H as [p [ch [q [Hc [He [Hb Hp]]]]]].
      exists (String c p), ch, q. split; [simpl; rewrite Hc; reflexivity|].
      split; [simpl; lia|]. split.
      * cbn [append]. rewrite opens_cons, closes_cons, Eo, Ec. exact Hb.
      * intros p1 p2 E Hp2. destruct p1 as [|x p1].
        -- destruct stack; [contradiction|]. simpl. unfold closes, chars. simpl. lia.
        -- cbn [append] in E. injection E as <- E.
           rewrite opens_cons, closes_cons, Eo, Ec.
           exact (Hp p1 p2 E Hp2).
Qed.

(** The scan that never breaks: the depth stays above zero. *)
Lemma end_brace_missing (cand : string) :
  forall (stack : list ascii) (i : nat),
    stack <> [] ->
    Inline.end_brace cand stack i = None ->
    forall p1 p2, cand = p1 ++ p2 ->
                  (closes p1 < List.length stack + opens p1)%nat.
Proof.
  induction cand as [|c cand IH]; intros stack i Hne H p1 p2 E.
  - destruct p1; [|discriminate E].
    destruct stack; [contradiction|]. simpl. unfold closes, chars. simpl. lia.
  - destruct p1 as [|x p1].
    { destruct stack; [contradiction|]. simpl. unfold closes, chars. simpl. lia. }
    cbn [append] in E. injection E as <- E.
    cbn [Inline.end_brace] in H. rewrite opens_cons, closes_cons.
    destruct (Inline.is_open c) eqn:Eo.
    + rewrite (open_not_close c Eo).
      pose proof (IH (c :: stack) (S i) ltac:(discriminate) H p1 p2 E) as K.
      simpl in K. lia.
    + destruct (Inline.is_close c) eqn:Ec.
      * destruct stack as [|top below]; [contradiction|].
        destruct below as [|b below]; [discriminate H|].
        pose proof (IH (b :: below) (S i) ltac:(discriminate) H p1 p2 E) as K.
        simpl in K. simpl. lia.
      * exact (IH stack (S i) Hne H p1 p2 E).
Qed.

Lemma occurrences_absent (c : ascii) (s : string) :
  Forall (fun x => negb (Ascii.eqb x c) = true) (chars s) <->
  occurrences c s = 0%nat.
Proof.
  induction s as [|x s IH].
  - split; [reflexivity | constructor].
  - rewrite occurrences_cons. change (chars (String x s)) with (x :: chars s).
    split.
    + intros H. inversion H as [|y l Hx Hl]. subst.
      apply negb_true_iff in Hx. rewrite Hx. apply IH. exact Hl.
    + intros H. destruct (Ascii.eqb x c) eqn:E; [discriminate H|].
      constructor; [rewrite E; reflexivity | apply IH; exact H].
Qed.

Lemma contains_brace (txt : string) :
  contains "{" txt = false <-> occurrences "{" txt = 0%nat.
Proof.
  induction txt as [|x s IH]; [split; reflexivity|].
  rewrite occurrences_cons. cbn [contains String.prefix].
  destruct (ascii_dec "{" x) as [<-|N].
  - rewrite Ascii.eqb_refl. destruct s; simpl; split; discriminate.
  - assert (E : Ascii.eqb x "{" = false).
    { apply Ascii.eqb_neq. intros ->. apply N. reflexivity. }
    rewrite E. cbn [orb Nat.add]. exact IH.
Qed.

Lemma from_first_brace_head (txt : string) :
  contains "{" txt = true ->
  exists r, Inline.from_first_brace txt = String "{" r.
Proof.
  intros H. unfold Inline.from_first_brace.
  destruct (sdrop_while (fun c => negb (Ascii.eqb c "{")) txt) as [|c r] eqn:D.
  - exfalso. apply drop_while_all in D. apply occurrences_absent in D.
    apply contains_brace in D. congruence.
  - apply drop_while_head in D. apply negb_false_iff, Ascii.eqb_eq in D.
    subst. exists r. reflexivity.
Qed.

Lemma substring_none (s : string) : substring 0 0 s = "".
Proof. destruct s; reflexivity. Qed.

Lemma substring_again (n : nat) (s : string) :
  substring 0 n (substring 0 n s) = substring 0 n s.
Proof.
  revert s. induction n as [|n IH]; intros s.
  - rewrite !substring_none. reflexivity.
  - destruct s as [|c s]; [reflexivity|]. simpl. rewrite IH. reflexivity.
Qed.

(** The scan stops at the same index on the text cut after that index. *)
Lemma end_brace_cut (cand : string) :
  forall (stack : list ascii) (i e : nat),
    Inline.end_brace cand stack i = Some e ->
    (i <= e)%nat /\
    Inline.end_brace (substring 0 (e + 1 - i) cand) stack i = Some e.
Proof.
  induction cand as [|c cand IH]; intros stack i e H; [discriminate H|].
  cbn [Inline.end_brace] in H.
  assert (S1 : forall st, Inline.end_brace cand st (S i) = Some e ->
                 (i <= e)%nat /\
                 substring 0 (e + 1 - i) (String c cand)
                 = String c (substring 0 (e + 1 - S i) cand) /\
                 Inline.end_brace (substring 0 (e + 1 - S i) cand) st (S i) = Some e).
  { intros st K. destruct (IH st (S i) e K) as [L R]. split; [lia|].
    split; [|exact R].
    replace (e + 1 - i)%nat with (S (e + 1 - S i)) by lia. reflexivity. }
  destruct (Inline.is_open c) eqn:Eo.
  - destruct (S1 _ H) as [L [E R]]. split; [exact L|].
    rewrite E. cbn [Inline.end_brace]. rewrite Eo. exact R.
  - destruct (Inline.is_close c) eqn:Ec.
    + destruct (match stack with [] => [] | _ :: below => below end) as [|b below] eqn:St.
      * injection H as <-. split; [lia|].
        replace (i + 1 - i)%nat with 1%nat by lia.
        cbn [substring]. rewrite substring_none.
        cbn [Inline.end_brace]. rewrite Eo, Ec, St. reflexivity.
      * destruct (S1 _ H) as [L [E R]]. split; [exact L|].
        rewrite E. cbn [Inline.end_brace]. rewrite Eo, Ec, St. exact R.
    + destruct (S1 _ H) as [L [E R]]. split; [exact L|].
      rewrite E. cbn [Inline.end_brace]. rewrite Eo, Ec. exact R.
Qed.

Lemma append_one (p : string) (ch : ascii) (q : string) :
  (p ++ String ch "") ++ q = p ++ String ch q.
Proof. induction p as [|x p IH]; simpl; [|rewrite IH]; reflexivity. Qed.

(** X23.  The text [_mine_inline_scripts] hands to [json.loads] starts at
    the first brace of the script text and is a contiguous part of it; in
    it no proper prefix has as many closing braces and brackets as opening
    ones, and either the whole has (the text is cut where the depth first
    comes back to zero, braces and brackets counted alike, those inside
    JSON strings included) or nothing is cut at the end; trimming what was
    trimmed changes nothing. *)
Theorem X23_json_candidate_is_cut_where_the_depth_returns_to_zero :
  forall (txt c : string),
    Inline.json_candidate txt = Some c ->
    exists pre post,
      txt = pre ++ c ++ post /\ occurrences "{" pre = 0%nat /\
      String.prefix "{" c = true /\
      (forall p1 p2, c = p1 ++ p2 -> p1 <> "" -> p2 <> "" ->
                     (closes p1 < opens p1)%nat) /\
      (closes c = opens c \/ ((closes c < opens c)%nat /\ post = "")) /\
      Inline.json_candidate c = Some c.
Proof.
  intros txt c.
  unfold Inline.json_candidate at 1.
  destruct (contains "{" txt) eqn:Hb; cbn [negb]; [|discriminate].
  destruct (from_first_brace_head txt Hb) as [r Hr].
  assert (Hpre : txt = stake_while (fun c => negb (Ascii.eqb c "{")) txt
                       ++ String "{" r).
  { rewrite <- Hr. symmetry. apply take_drop_while. }
  assert (Hno : occurrences "{" (stake_while (fun c => negb (Ascii.eqb c "{")) txt)
                = 0%nat).
  { apply occurrences_absent. apply chars_take_while. }
  rewrite Hr.
  assert (Hself : forall s, Inline.from_first_brace (String "{" s) = String "{" s)
    by reflexivity.
  assert (Hcont : forall s, contains "{" (String "{" s) = true).
  { intros s. destruct s; reflexivity. }
  destruct (Inline.end_brace (String "{" r) [] 0) as [e|] eqn:E.
  - pose proof (end_brace_cut _ _ _ _ E) as [_ Cut].
    replace (e + 1 - 0)%nat with (e + 1)%nat in Cut by lia.
    cbn [Inline.end_brace] in E. change (Inline.is_open "{") with true in E.
    cbv iota in E.
    apply end_brace_found in E; [|discriminate].
    destruct E as [p [ch [q [Hc [He [Hbal Hp]]]]]].
    subst r e.
    assert (Hsub : substring 0 (1 + String.length p + 1) (String "{" (p ++ String ch q))
                   = String "{" (p ++ String ch "")).
    { rewrite <- (append_one p ch q).
      change (String "{" ((p ++ String ch "") ++ q))
        with (String "{" (p ++ String ch "") ++ q).
      replace (1 + String.length p + 1)%nat
        with (String.length (String "{" (p ++ String ch ""))).
      - apply substring_prefix.
      - cbn [String.length]. rewrite length_append. simpl. lia. }
    rewrite Hsub in Cut. rewrite Hsub.
    intros H. injection H as <-.
    exists (stake_while (fun c => negb (Ascii.eqb c "{")) txt), q.
    split.
    { rewrite Hpre at 1. f_equal. change (String "{" (p ++ String ch "") ++ q)
        with (String "{" ((p ++ String ch "") ++ q)).
      rewrite append_one. reflexivity. }
    split; [exact Hno|]. split; [destruct (p ++ String ch ""); reflexivity|].
    split.
    { intros p1 p2 Ec Hp1 Hp2. destruct p1 as [|x p1]; [contradiction|].
      cbn [append] in Ec. injection Ec as <- Ec.
      rewrite opens_cons, closes_cons.
      change (Inline.is_open "{") with true. change (Inline.is_close "{") with false.
      specialize (Hp p1 p2 Ec Hp2). simpl in Hp. simpl. lia. }
    split.
    { left. rewrite opens_cons, closes_cons.
      change (Inline.is_open "{") with true. change (Inline.is_close "{") with false.
      rewrite Hbal. simpl. lia. }
    unfold Inline.json_candidate. rewrite Hcont. cbn [negb].
    rewrite Hself, Cut. rewrite <- Hsub. rewrite substring_again. reflexivity.
  - intros H. injection H as <-.
    pose proof E as E0.
    cbn [Inline.end_brace] in E. change (Inline.is_open "{") with true in E.
    cbv iota in E.
    pose proof (end_brace_missing r ["{"%char] 1 ltac:(discriminate) E) as Hp.
    exists (stake_while (fun c => negb (Ascii.eqb c "{")) txt), "".
    split; [rewrite append_empty_r; exact Hpre|].
    split; [exact Hno|]. split; [destruct r; reflexivity|].
    assert (Hall : forall p1 p2, String "{" r = p1 ++ p2 -> p1 <> "" ->
                                 (closes p1 < opens p1)%nat).
    { intros p1 p2 Ec Hp1. destruct p1 as [|x p1]; [contradiction|].
      cbn [append] in Ec. injection Ec as <- Ec.
      rewrite opens_cons, closes_cons.
      change (Inline.is_open "{") with true. change (Inline.is_close "{") with false.
      specialize (Hp p1 p2 Ec). simpl in Hp. simpl. lia. }
    split; [intros p1 p2 Ec Hp1 _; exact (Hall p1 p2 Ec Hp1)|].
    split.
    { right. split; [|reflexivity].
      apply (Hall (String "{" r) ""); [rewrite append_empty_r; reflexivity | discriminate]. }
    unfold Inline.json_candidate. rewrite Hcont. cbn [negb].
    rewrite Hself, E0. reflexivity.
Qed.

Lemma X23_json_candidate_is_cut_where_the_depth_returns_to_zero_witness :
  Inline.json_candidate "window.S = {a: [1, {b: 2}]}; init({});"
  = Some "{a: [1, {b: 2}]}" /\
  Inline.json_candidate "{a: [1, {b: 2}]}" = Some "{a: [1, {b: 2}]}".
Proof.
  split; [reflexivity|].
  destruct (X23_json_candidate_is_cut_where_the_depth_returns_to_zero
              "window.S = {a: [1, {b: 2}]}; init({});" "{a: [1, {b: 2}]}" eq_refl)
    as [pre [post [_ [_ [_ [_ [_ H]]]]]]].
  exact H.
Defined.
